(** * EcoLedger: the ledger services under [backend/ledger_service]

    The repository holds two implementations of the ledger service:

    - [app.py]: module-level functions over an SQLite file with five tables;
      a transaction row is written as [pending], a block is appended, and the
      row is then marked [confirmed] (module [App] below);
    - [blockchain_api.py]: the class [BlockchainSimulator], whose methods
      write block, transaction and report (or credit) rows inside one SQLite
      transaction (module [Simulator] below).

    SQLite tables are lists of rows in insertion order; [UNIQUE] and
    [PRIMARY KEY] constraints are checked by the insert functions, which
    raise [IntegrityError] as [sqlite3] does.  SHA-256, the [json] codec, the
    wall clock and the UUID generator are the members of the class [Runtime]:
    the general theorems hold for all of them, and the examples run on the
    runtime of module [Concrete].

    Amounts, prices and scores are rationals, compared, multiplied and
    subtracted exactly.  The code holds them in Python floats and SQLite
    [REAL] columns, which round: the theorems about the sum of the active
    credits are stated for whole numbers that floating point adds exactly
    ([exact_amounts]). *)

From Stdlib Require Import String Ascii List Bool Arith PeanoNat ZArith QArith Lia Lqa.
From Stdlib Require Import DecimalString Sorted.
Import ListNotations.

Local Close Scope Q_scope.
Local Open Scope nat_scope.
Local Open Scope string_scope.
Local Open Scope list_scope.

Set Implicit Arguments.
Set Warnings "-register-all".

(** ** Python values *)

(** A decoded JSON document ([request.get_json()], [json.loads]). *)
Inductive json : Type :=
| JNull
| JBool (b : bool)
| JNum (q : Q)
| JStr (s : string)
| JArr (items : list json)
| JObj (members : list (string * json)).

(** The exceptions the two services can raise. *)
Inductive exn : Type :=
| IntegrityError (constraint : string)   (* sqlite3.IntegrityError *)
| InterfaceError                         (* sqlite3: unsupported parameter type *)
| OverflowError                          (* sqlite3: Python int too large for INTEGER *)
| TypeError
| AttributeError
| ValueError (message : string)
| JSONDecodeError
| PlainException (message : string)      (* raise Exception("...") *)
| Failed (what : string) (cause : exn).  (* raise Exception(f"{what}: {str(e)}") *)

Inductive outcome (A : Type) : Type :=
| Return (a : A)
| Raise (e : exn).
Arguments Return {A} a.
Arguments Raise {A} e.

(** What the services take from their libraries and from the machine. *)
Class Runtime : Type := {
  (** [hashlib.sha256(s.encode()).hexdigest()] *)
  sha256_hexdigest : string -> string;
  (** [json.dumps(v, sort_keys=b)] *)
  json_dumps : bool -> json -> string;
  (** [json.loads(s)]; [None] is a [JSONDecodeError] *)
  json_loads : string -> option json;
  (** the n-th reading of [datetime.now(...).isoformat()] *)
  isoformat_now : nat -> string;
  (** the n-th draw of [str(uuid.uuid4())] *)
  uuid4 : nat -> string
}.

(** ** State and exceptions

    A world is the database file together with the number of clock readings
    and UUID draws made so far.  A computation may raise; the world it leaves
    behind holds whatever was committed before. *)

Record world (D : Type) : Type := World {
  db : D;
  clock : nat;
  draws : nat
}.
Arguments World {D} db clock draws.

Definition M (D A : Type) : Type := world D -> world D * outcome A.

Definition ret {D A} (a : A) : M D A := fun w => (w, Return a).

Definition raise {D A} (e : exn) : M D A := fun w => (w, Raise e).

Definition bind {D A B} (m : M D A) (k : A -> M D B) : M D B :=
  fun w =>
    match m w with
    | (w', Return a) => k a w'
    | (w', Raise e) => (w', Raise e)
    end.

Notation "x <- m ;; k" := (bind m (fun x => k))
  (at level 61, m at next level, right associativity).
Notation "m ;; k" := (bind m (fun _ => k))
  (at level 61, right associativity).

(** [datetime.now(...).isoformat()] *)
Definition now `{Runtime} {D} : M D string :=
  fun w => (World (db w) (S (clock w)) (draws w), Return (isoformat_now (clock w))).

(** [str(uuid.uuid4())] *)
Definition new_uuid `{Runtime} {D} : M D string :=
  fun w => (World (db w) (clock w) (S (draws w)), Return (uuid4 (draws w))).

(** A read-only SQL query. *)
Definition query {D A} (f : D -> A) : M D A := fun w => (w, Return (f (db w))).

(** One SQL statement; it either yields the new database or raises. *)
Definition execute {D} (f : D -> outcome D) : M D unit :=
  fun w =>
    match f (db w) with
    | Return d => (World d (clock w) (draws w), Return tt)
    | Raise e => (w, Raise e)
    end.

(** [with sqlite3.connect(path) as conn: ...; conn.commit()]: the statements
    of the block are committed together; an exception leaving the block rolls
    the database back to what it was on entry. *)
Definition connection {D A} (m : M D A) : M D A :=
  fun w =>
    match m w with
    | (w', Return a) => (w', Return a)
    | (w', Raise e) => (World (db w) (clock w') (draws w'), Raise e)
    end.

(** [try: ... except Exception as e: raise Exception(f"{what}: {str(e)}")] *)
Definition rewrap {D A} (what : string) (m : M D A) : M D A :=
  fun w =>
    match m w with
    | (w', Return a) => (w', Return a)
    | (w', Raise e) => (w', Raise (Failed what e))
    end.

(** A computation that touches neither the database nor the clock. *)
Definition lift {D A} (o : outcome A) : M D A := fun w => (w, o).

(** [m], started in a database that satisfies [P], returns [a] in a database
    that satisfies [Q a], or raises in one that satisfies [E]. *)
Definition hoare {D A} (P : D -> Prop) (m : M D A) (Q : A -> D -> Prop)
    (E : D -> Prop) : Prop :=
  forall w, P (db w) ->
    match m w with
    | (w', Return a) => Q a (db w')
    | (w', Raise _) => E (db w')
    end.

(** [m] keeps the invariant [I], whether it returns or raises. *)
Definition preserves {D A} (I : D -> Prop) (m : M D A) : Prop :=
  hoare I m (fun _ => I) I.

(** [d.get(key)] on a dict. *)
Fixpoint dict_get (key : string) (members : list (string * json)) : option json :=
  match members with
  | [] => None
  | (k, v) :: rest => if String.eqb k key then Some v else dict_get key rest
  end.

(** [v.get(key, default)]: an [AttributeError] unless [v] is a dict. *)
Definition py_get {D} (v : json) (key : string) (default : json) : M D json :=
  match v with
  | JObj members =>
      ret (match dict_get key members with Some x => x | None => default end)
  | _ => raise AttributeError
  end.

(** [str(n)] for a non-negative integer. *)
Definition str_of_nat (n : nat) : string := NilEmpty.string_of_uint (Nat.to_uint n).

(** [s[:n]] *)
Definition prefix (n : nat) (s : string) : string := substring 0 n s.

(** Comparisons of SQL [REAL] and Python numbers, here rationals. *)
Definition Qltb (x y : Q) : bool := (Qnum x * QDen y <? Qnum y * QDen x)%Z.

(** [needle in haystack] on two strings. *)
Fixpoint occurs (needle haystack : string) : bool :=
  String.prefix needle haystack ||
  match haystack with
  | EmptyString => false
  | String _ rest => occurs needle rest
  end.

(** [field in data]: a key of a dict, an item of a list, a substring of a
    string; [None], a number and a boolean are not iterable. *)
Definition py_in (field : string) (data : json) : outcome bool :=
  match data with
  | JObj members => Return (existsb (fun m => String.eqb (fst m) field) members)
  | JArr items =>
      Return (existsb (fun v => match v with
                                | JStr s => String.eqb s field
                                | _ => false
                                end) items)
  | JStr s => Return (occurs field s)
  | _ => Raise TypeError
  end.

(** [for row in rows: out.append(f(row))], where [f] may raise. *)
Fixpoint for_each {D A B} (f : A -> M D B) (rows : list A) : M D (list B) :=
  match rows with
  | [] => ret []
  | row :: rest =>
      b <- f row ;;
      bs <- for_each f rest ;;
      ret (b :: bs)
  end.

(** [json.loads(s)] *)
Definition py_loads `{Runtime} {D} (s : string) : M D json :=
  match json_loads s with
  | Some v => ret v
  | None => raise JSONDecodeError
  end.

(** ** SQL in [SELECT] statements *)

(** [ORDER BY key DESC], where [geb x y] says that the key of [x] is at
    least that of [y].  Rows with equal keys stay in table order here; SQLite
    leaves their order open, and no property below depends on it. *)
Fixpoint insert_desc {A} (geb : A -> A -> bool) (x : A) (sorted : list A) : list A :=
  match sorted with
  | [] => [x]
  | y :: rest => if geb x y then x :: sorted else y :: insert_desc geb x rest
  end.

Definition order_by_desc {A} (geb : A -> A -> bool) (rows : list A) : list A :=
  fold_right (insert_desc geb) [] rows.

(** A Python [int] that [sqlite3] can bind to a parameter: a 64-bit signed
    integer.  Binding any other raises [OverflowError]. *)
Definition sqlite_integer (n : Z) : bool :=
  (- 2 ^ 63 <=? n)%Z && (n <? 2 ^ 63)%Z.

(** [LIMIT n]: a negative [n] is no limit. *)
Definition sql_limit {A} (n : Z) (rows : list A) : list A :=
  if (n <? 0)%Z then rows else firstn (Z.to_nat n) rows.

(** [SUM(column)], and Python's [sum(...)], over the rows; [or 0] turns the
    [NULL] of an empty selection into the same 0. *)
Definition sum_of {A} (column : A -> Q) (rows : list A) : Q :=
  fold_right (fun row total => (column row + total)%Q) 0%Q rows.



(** [COUNT( * ) ... WHERE p] *)
Definition count_where {A} (p : A -> bool) (rows : list A) : nat :=
  length (filter p rows).

(** The LIKE operator, on UTF-8 text: [%] stands for any run of characters,
    [_] for one character, and an ASCII letter matches in either case. *)
Definition is_continuation (c : ascii) : bool :=
  let n := nat_of_ascii c in Nat.leb 128 n && Nat.ltb n 192.

Fixpoint skip_continuation (s : string) : string :=
  match s with
  | String c rest => if is_continuation c then skip_continuation rest else s
  | EmptyString => s
  end.

(** [s] without its first character. *)
Definition skip_utf8 (s : string) : option string :=
  match s with
  | EmptyString => None
  | String c rest =>
      Some (if Nat.leb 192 (nat_of_ascii c) then skip_continuation rest else rest)
  end.

Definition lower (c : ascii) : ascii :=
  let n := nat_of_ascii c in
  if Nat.leb 65 n && Nat.leb n 90 then ascii_of_nat (n + 32) else c.

(** [matches] holds of [s] or of [s] without some of its first characters. *)
Fixpoint somewhere (fuel : nat) (matches : string -> bool) (s : string) : bool :=
  matches s ||
  match fuel with
  | O => false
  | S fuel' =>
      match skip_utf8 s with
      | Some rest => somewhere fuel' matches rest
      | None => false
      end
  end.

Fixpoint like (pattern s : string) : bool :=
  match pattern with
  | EmptyString => match s with EmptyString => true | _ => false end
  | String c pattern' =>
      if Ascii.eqb c "%" then somewhere (String.length s) (like pattern') s
      else if Ascii.eqb c "_" then
        match skip_utf8 s with
        | Some rest => like pattern' rest
        | None => false
        end
      else
        match s with
        | String d rest => Ascii.eqb (lower c) (lower d) && like pattern' rest
        | EmptyString => false
        end
  end.

(** [s] between double quotes, as an f-string writes it. *)
Definition quoted (s : string) : string :=
  String (ascii_of_nat 34) (s ++ String (ascii_of_nat 34) EmptyString).

(** ** [app.py] *)

Module App.

(** *** Tables (the [id] and [created_at] columns are never read) *)

Record block : Type := Block {
  block_number : nat;
  previous_hash : string;
  block_hash : string;
  timestamp : string;
  merkle_root : string;
  transactions_count : nat
}.

Record transaction : Type := Transaction {
  tx_hash : string;
  tx_block_number : option nat;
  tx_type : string;
  from_entity : string;
  to_entity : string;
  data : string;
  tx_timestamp : string;
  tx_status : string
}.

Record carbon_credit : Type := CarbonCredit {
  credit_id : string;
  ngo_id : string;
  project_id : string;
  credits_amount : Q;
  verification_score : Q;
  co2_absorbed : Q;
  tree_count : Z;
  project_location : string;
  issuance_date : string;
  status : string;
  owner_id : string;
  price_per_credit : Q;
  market_value : Q;
  verification_data : string;
  credit_tx_hash : string
}.

Record credit_transfer : Type := CreditTransfer {
  transfer_id : string;
  transfer_credit_id : string;
  from_owner : string;
  to_owner : string;
  credits_transferred : Q;
  transfer_price : Q;
  transfer_date : string;
  transfer_tx_hash : string;
  transfer_status : string
}.

Record database : Type := Database {
  blocks : list block;
  transactions : list transaction;
  carbon_credits : list carbon_credit;
  credit_transfers : list credit_transfer
}.

(** The database file before [init_database] has run. *)
Definition empty_database : database := Database [] [] [] [].

Definition fresh : world database := World empty_database 0 0.

Definition with_blocks (d : database) (bs : list block) : database :=
  Database bs (transactions d) (carbon_credits d) (credit_transfers d).

Definition with_transactions (d : database) (ts : list transaction) : database :=
  Database (blocks d) ts (carbon_credits d) (credit_transfers d).

Definition with_carbon_credits (d : database) (cs : list carbon_credit) : database :=
  Database (blocks d) (transactions d) cs (credit_transfers d).

Definition with_credit_transfers (d : database) (xs : list credit_transfer) : database :=
  Database (blocks d) (transactions d) (carbon_credits d) xs.

(** *** SQL statements *)

(** [INSERT INTO blocks]: [block_number] and [block_hash] are [UNIQUE]. *)
Definition insert_block (b : block) (d : database) : outcome database :=
  if existsb (fun x => Nat.eqb (block_number x) (block_number b)) (blocks d)
  then Raise (IntegrityError "blocks.block_number")
  else if existsb (fun x => String.eqb (block_hash x) (block_hash b)) (blocks d)
  then Raise (IntegrityError "blocks.block_hash")
  else Return (with_blocks d (blocks d ++ [b])).

(** [INSERT INTO transactions]: [tx_hash] is [UNIQUE]. *)
Definition insert_transaction (t : transaction) (d : database) : outcome database :=
  if existsb (fun x => String.eqb (tx_hash x) (tx_hash t)) (transactions d)
  then Raise (IntegrityError "transactions.tx_hash")
  else Return (with_transactions d (transactions d ++ [t])).

(** [INSERT INTO carbon_credits]: [credit_id] is [UNIQUE]. *)
Definition insert_carbon_credit (c : carbon_credit) (d : database) : outcome database :=
  if existsb (fun x => String.eqb (credit_id x) (credit_id c)) (carbon_credits d)
  then Raise (IntegrityError "carbon_credits.credit_id")
  else Return (with_carbon_credits d (carbon_credits d ++ [c])).

(** [INSERT INTO credit_transfers]: [transfer_id] is [UNIQUE]. *)
Definition insert_credit_transfer (x : credit_transfer) (d : database) : outcome database :=
  if existsb (fun y => String.eqb (transfer_id y) (transfer_id x)) (credit_transfers d)
  then Raise (IntegrityError "credit_transfers.transfer_id")
  else Return (with_credit_transfers d (credit_transfers d ++ [x])).

(** [UPDATE transactions SET block_number = ?, status = 'confirmed'
     WHERE tx_hash = ?] *)
Definition confirm_transaction (n : nat) (h : string) (d : database) : outcome database :=
  Return (with_transactions d
    (map (fun t =>
            if String.eqb (tx_hash t) h
            then Transaction (tx_hash t) (Some n) (tx_type t) (from_entity t)
                   (to_entity t) (data t) (tx_timestamp t) "confirmed"
            else t)
         (transactions d))).

Definition set_owner_and_amount (owner : string) (amount : Q) (c : carbon_credit)
  : carbon_credit :=
  CarbonCredit (credit_id c) (ngo_id c) (project_id c) amount
    (verification_score c) (co2_absorbed c) (tree_count c) (project_location c)
    (issuance_date c) (status c) owner (price_per_credit c) (market_value c)
    (verification_data c) (credit_tx_hash c).

Definition set_status (s : string) (c : carbon_credit) : carbon_credit :=
  CarbonCredit (credit_id c) (ngo_id c) (project_id c) (credits_amount c)
    (verification_score c) (co2_absorbed c) (tree_count c) (project_location c)
    (issuance_date c) s (owner_id c) (price_per_credit c) (market_value c)
    (verification_data c) (credit_tx_hash c).

(** [UPDATE carbon_credits SET owner_id = ?, credits_amount = credits_amount - ?
     WHERE credit_id = ?] *)
Definition reassign_credit (new_owner : string) (amount : Q) (id : string)
    (d : database) : outcome database :=
  Return (with_carbon_credits d
    (map (fun c =>
            if String.eqb (credit_id c) id
            then set_owner_and_amount new_owner (credits_amount c - amount)%Q c
            else c)
         (carbon_credits d))).

(** [UPDATE carbon_credits SET status = 'transferred'
     WHERE credit_id = ? AND credits_amount = 0] *)
Definition mark_transferred (id : string) (d : database) : outcome database :=
  Return (with_carbon_credits d
    (map (fun c =>
            if String.eqb (credit_id c) id && Qeq_bool (credits_amount c) 0
            then set_status "transferred" c
            else c)
         (carbon_credits d))).

(** [SELECT ... FROM carbon_credits WHERE credit_id = ? AND status = 'active'],
    [fetchone()] *)
Definition select_active_credit (id : string) (d : database) : option carbon_credit :=
  find (fun c => String.eqb (credit_id c) id && String.eqb (status c) "active")
       (carbon_credits d).

(** [SELECT * FROM blocks ORDER BY block_number DESC LIMIT 1], [fetchone()] *)
Definition highest (best : option block) (b : block) : option block :=
  match best with
  | None => Some b
  | Some a => if Nat.ltb (block_number a) (block_number b) then Some b else Some a
  end.

Definition select_last_block (d : database) : option block :=
  fold_left highest (blocks d) None.

(** *** Requests and replies

    A request is taken after [request.get_json()] and the required-fields
    check, with the field types of the table columns.  The optional
    [price_per_credit] of an issuance may be absent, [null] or a number. *)

Inductive reply (A : Type) : Type :=
| OK (body : A)                                   (* 200 *)
| CreditNotFoundOrInactive                        (* 404 *)
| OwnedBy (current_owner from_owner : string)     (* 403 *)
| InsufficientCredits (available requested : Q)   (* 400 *)
| InternalServerError (e : exn).                  (* 500 *)
Arguments OK {A} body.
Arguments CreditNotFoundOrInactive {A}.
Arguments OwnedBy {A} current_owner from_owner.
Arguments InsufficientCredits {A} available requested.
Arguments InternalServerError {A} e.

Record submission : Type := Submission {
  submitted_tx_hash : string;
  report_hash : string;
  submitted_block_number : nat;
  submitted_block_hash : string;
  submitted_timestamp : string;
  summary_tree_count : json;
  summary_final_score : json;
  summary_co2_absorbed : json;
  summary_carbon_credits : json
}.

(** An optional request field. *)
Inductive field (A : Type) : Type :=
| Absent
| Null
| Given (a : A).
Arguments Absent {A}.
Arguments Null {A}.
Arguments Given {A} a.

Record issue_options : Type := IssueOptions {
  opt_co2_absorbed : option Q;
  opt_tree_count : option Z;
  opt_project_location : option string;
  opt_price_per_credit : field Q;
  opt_verification_data : option json
}.

Definition no_options : issue_options := IssueOptions None None None Absent None.

Record issuance : Type := Issuance {
  issued_credit_id : string;
  issued_tx_hash : string;
  issued_block_number : nat;
  issued_block_hash : string;
  credits_issued : Q;
  issued_owner : string;
  issued_verification_score : Q;
  issued_date : string
}.

Record transfer : Type := Transfer {
  transferred_id : string;
  transferred_tx_hash : string;
  transferred_block_number : nat;
  transferred_block_hash : string;
  transferred_credit_id : string;
  transferred_from : string;
  transferred_to : string;
  credits_moved : Q;
  transferred_price : Q;
  total_value : Q;
  transferred_date : string
}.

Inductive request : Type :=
| Submit (ngo_id project_id : string) (verification_data : json)
| Issue (ngo_id project_id : string) (credits_amount verification_score : Q)
        (options : issue_options)
| TransferCredits (credit_id from_owner to_owner : string)
        (credits_amount transfer_price : Q).

Section WithRuntime.
Context `{Runtime}.

(** *** Helpers *)

(** An argument of [calculate_hash]: a block number or a string. *)
Inductive hash_arg : Type :=
| Int (n : nat)
| Str (s : string).

(** [str(d)] *)
Definition str (d : hash_arg) : string :=
  match d with
  | Int n => str_of_nat n
  | Str s => s
  end.

(** SHA-256 of the arguments' [str], joined without separator. *)
Definition calculate_hash (data : list hash_arg) : string :=
  sha256_hexdigest (String.concat EmptyString (map str data)).

Definition get_last_block : M database (option block) :=
  connection (query select_last_block).

Definition create_genesis_block : M database unit :=
  t0 <- now ;;
  let genesis_data :=
    JObj [("type", JStr "genesis");
          ("message", JStr "EcoLedger Genesis Block - Carbon Credit Verification System");
          ("timestamp", JStr t0)] in
  let genesis_hash := calculate_hash [Str "0"; Str (json_dumps true genesis_data)] in
  connection (
    t1 <- now ;;
    execute (insert_block (Block 0 "0" genesis_hash t1 "genesis" 0))).

(** The tables always exist in the model, so [CREATE TABLE IF NOT EXISTS]
    changes nothing; what remains is the genesis check. *)
Definition init_database : M database unit :=
  connection (
    count <- query (fun d => length (blocks d)) ;;
    if Nat.eqb count 0 then create_genesis_block else ret tt).

(** [tx.get('tx_hash', '')] for an entry of the list given to
    [create_new_block]; the callers always store a string there.  For any
    other value the code hashes Python's [str] of it, which [json_dumps]
    stands for here. *)
Definition tx_hash_of (tx : list (string * json)) : hash_arg :=
  match dict_get "tx_hash" tx with
  | Some (JStr h) => Str h
  | Some v => Str (json_dumps false v)
  | None => Str EmptyString
  end.

(** The block that [create_new_block] builds on top of [last_block]. *)
Definition next_block (last_block : block) (txs : list (list (string * json)))
    (ts : string) : block :=
  let new_block_number := block_number last_block + 1 in
  let previous_hash := block_hash last_block in
  let tx_hashes := map tx_hash_of txs in
  let merkle_root :=
    match tx_hashes with
    | [] => "empty"
    | _ => calculate_hash tx_hashes
    end in
  let block_hash :=
    calculate_hash [Int new_block_number; Str previous_hash; Str merkle_root; Str ts] in
  Block new_block_number previous_hash block_hash ts merkle_root (length txs).

(** The rest of [create_new_block] once [last_block] has been read: build
    the block and insert it. *)
Definition append_block_after (last : block) (txs : list (list (string * json)))
  : M database block :=
  ts <- now ;;
  let b := next_block last txs ts in
  connection (execute (insert_block b)) ;;
  ret b.

Definition create_new_block (txs : list (list (string * json))) : M database block :=
  last_block <- get_last_block ;;
  match last_block with
  | None => raise (PlainException "No genesis block found")
  | Some last => append_block_after last txs
  end.

(** Two requests served by two threads.  [db_lock] is created at module
    level and acquired nowhere, so the two calls of [create_new_block] can
    interleave between their database connections: here both threads read
    the last block before either inserts. *)
Definition racing_create_new_block (txs1 txs2 : list (list (string * json)))
    (w : world database) : world database * (outcome block * outcome block) :=
  let '(w1, last1) := get_last_block w in          (* thread 1 *)
  let '(w2, last2) := get_last_block w1 in         (* thread 2 *)
  let '(w3, block1) :=                             (* thread 1 *)
    match last1 with
    | Return (Some last) => append_block_after last txs1 w2
    | _ => (w2, Raise (PlainException "No genesis block found"))
    end in
  let '(w4, block2) :=                             (* thread 2 *)
    match last2 with
    | Return (Some last) => append_block_after last txs2 w3
    | _ => (w3, Raise (PlainException "No genesis block found"))
    end in
  (w4, (block1, block2)).

Definition create_transaction (tx_type from_entity to_entity : string) (data : json)
  : M database string :=
  tx_id <- new_uuid ;;
  ts <- now ;;
  let tx_data :=
    JObj [("tx_id", JStr tx_id); ("type", JStr tx_type); ("from", JStr from_entity);
          ("to", JStr to_entity); ("data", data); ("timestamp", JStr ts)] in
  let tx_hash := calculate_hash [Str (json_dumps true tx_data)] in
  connection (
    execute (insert_transaction
      (Transaction tx_hash None tx_type from_entity to_entity
         (json_dumps false data) ts "pending"))) ;;
  ret tx_hash.

(** *** Routes *)

(** [try: ... except Exception as e: return jsonify(...), 500] *)
Definition try_except {A} (m : M database (reply A)) (w : world database)
  : world database * reply A :=
  match m w with
  | (w', Return r) => (w', r)
  | (w', Raise e) => (w', InternalServerError e)
  end.

Definition submit_verification_report (ngo_id project_id : string)
    (verification_data : json) : world database -> world database * reply submission :=
  try_except (
    tx_hash <- create_transaction "verification_submission" ngo_id "ecoledger_system"
      (JObj [("project_id", JStr project_id);
             ("verification_data", verification_data);
             ("action", JStr "submit_verification_report")]) ;;
    let report_hash := calculate_hash [Str (json_dumps true verification_data)] in
    let transactions :=
      [[("tx_hash", JStr tx_hash); ("type", JStr "verification_submission");
        ("project_id", JStr project_id); ("ngo_id", JStr ngo_id)]] in
    block <- create_new_block transactions ;;
    connection (execute (confirm_transaction (block_number block) tx_hash)) ;;
    tree_count <- py_get verification_data "tree_count" (JNum 0) ;;
    final_score <- py_get verification_data "final_score" (JNum 0) ;;
    co2_absorbed <- py_get verification_data "co2_absorbed" (JNum 0) ;;
    carbon_credits <- py_get verification_data "carbon_credits" (JNum 0) ;;
    ret (OK (Submission tx_hash report_hash (block_number block) (block_hash block)
               (timestamp block) tree_count final_score co2_absorbed carbon_credits))).

Definition or_default {A} (o : option A) (default : A) : A :=
  match o with
  | Some a => a
  | None => default
  end.

(** [data.get('price_per_credit', 15.50)]: [None] is Python's [None]. *)
Definition get_price (f : field Q) : option Q :=
  match f with
  | Absent => Some (31 # 2)%Q
  | Null => None
  | Given p => Some p
  end.

Definition issue_carbon_credits (ngo_id project_id : string)
    (credits_amount verification_score : Q) (options : issue_options)
  : world database -> world database * reply issuance :=
  try_except (
    u <- new_uuid ;;
    let credit_id := ("ECC-" ++ project_id ++ "-" ++ prefix 8 u)%string in
    tx_hash <- create_transaction "credit_issuance" "ecoledger_system" ngo_id
      (JObj [("credit_id", JStr credit_id);
             ("project_id", JStr project_id);
             ("credits_amount", JNum credits_amount);
             ("verification_score", JNum verification_score);
             ("action", JStr "issue_carbon_credits")]) ;;
    connection (
      ts <- now ;;
      match get_price (opt_price_per_credit options) with
      | None => raise TypeError   (* credits_amount * None *)
      | Some price =>
          if sqlite_integer (or_default (opt_tree_count options) 0%Z)
          then
            execute (insert_carbon_credit
              (CarbonCredit credit_id ngo_id project_id credits_amount verification_score
                 (or_default (opt_co2_absorbed options) 0%Q)
                 (or_default (opt_tree_count options) 0%Z)
                 (or_default (opt_project_location options) EmptyString)
                 ts "active" ngo_id price (credits_amount * price)%Q
                 (json_dumps false
                    (or_default (opt_verification_data options) (JObj [])))
                 tx_hash))
          else raise OverflowError   (* tree_count does not fit 64 bits *)
      end) ;;
    let transactions :=
      [[("tx_hash", JStr tx_hash); ("type", JStr "credit_issuance");
        ("credit_id", JStr credit_id); ("ngo_id", JStr ngo_id);
        ("credits_amount", JNum credits_amount)]] in
    block <- create_new_block transactions ;;
    connection (execute (confirm_transaction (block_number block) tx_hash)) ;;
    ret (OK (Issuance credit_id tx_hash (block_number block) (block_hash block)
               credits_amount ngo_id verification_score (timestamp block)))).

Definition transfer_carbon_credits (credit_id from_owner to_owner : string)
    (credits_amount transfer_price : Q)
  : world database -> world database * reply transfer :=
  try_except (
    credit_info <- connection (query (select_active_credit credit_id)) ;;
    match credit_info with
    | None => ret CreditNotFoundOrInactive
    | Some credit =>
        let available_credits := App.credits_amount credit in
        let current_owner := owner_id credit in
        if negb (String.eqb current_owner from_owner)
        then ret (OwnedBy current_owner from_owner)
        else if Qltb available_credits credits_amount
        then ret (InsufficientCredits available_credits credits_amount)
        else
          u <- new_uuid ;;
          let transfer_id := ("TXF-" ++ prefix 8 u)%string in
          tx_hash <- create_transaction "credit_transfer" from_owner to_owner
            (JObj [("transfer_id", JStr transfer_id);
                   ("credit_id", JStr credit_id);
                   ("credits_amount", JNum credits_amount);
                   ("transfer_price", JNum transfer_price);
                   ("total_value", JNum (credits_amount * transfer_price)%Q);
                   ("action", JStr "transfer_carbon_credits")]) ;;
          connection (
            ts <- now ;;
            execute (insert_credit_transfer
              (CreditTransfer transfer_id credit_id from_owner to_owner credits_amount
                 transfer_price ts tx_hash "completed")) ;;
            execute (reassign_credit to_owner credits_amount credit_id) ;;
            execute (mark_transferred credit_id)) ;;
          let transactions :=
            [[("tx_hash", JStr tx_hash); ("type", JStr "credit_transfer");
              ("transfer_id", JStr transfer_id); ("credit_id", JStr credit_id);
              ("from_owner", JStr from_owner); ("to_owner", JStr to_owner);
              ("credits_amount", JNum credits_amount)]] in
          block <- create_new_block transactions ;;
          connection (execute (confirm_transaction (block_number block) tx_hash)) ;;
          ret (OK (Transfer transfer_id tx_hash (block_number block) (block_hash block)
                     credit_id from_owner to_owner credits_amount transfer_price
                     (credits_amount * transfer_price)%Q (timestamp block)))
    end).

(** *** Reachable worlds

    The process starts by running [init_database] on a new database file and
    then serves requests one after the other. *)

Definition serve (r : request) (w : world database) : world database :=
  match r with
  | Submit n p v => fst (submit_verification_report n p v w)
  | Issue n p a s o => fst (issue_carbon_credits n p a s o w)
  | TransferCredits c f t a p => fst (transfer_carbon_credits c f t a p w)
  end.

Definition started : world database := fst (init_database fresh).

Definition run (requests : list request) : world database :=
  fold_left (fun w r => serve r w) requests started.

Inductive reachable : world database -> Prop :=
| reachable_start : reachable started
| reachable_serve : forall w r, reachable w -> reachable (serve r w).

End WithRuntime.

(** *** The hash chain *)

(** The blocks, in insertion order, carry the numbers [k], [k+1], ... *)
Definition numbered_from (k : nat) (bs : list block) : Prop :=
  forall i b, nth_error bs i = Some b -> block_number b = k + i.

(** Each block names the hash of the block inserted just before it. *)
Definition linked (bs : list block) : Prop :=
  forall i p b,
    nth_error bs i = Some p -> nth_error bs (S i) = Some b ->
    previous_hash b = block_hash p.

Definition chain (d : database) : Prop :=
  blocks d <> [] /\ numbered_from 0 (blocks d) /\ linked (blocks d).

(** [SELECT * FROM blocks WHERE block_number = ?], [fetchone()] *)
Definition block_at (n : nat) (d : database) : option block :=
  find (fun b => Nat.eqb (block_number b) n) (blocks d).

(** Every confirmed transaction carries the number of a stored block. *)
Definition confirmed_have_blocks (d : database) : Prop :=
  forall t, In t (transactions d) -> tx_status t = "confirmed" ->
    exists b, In b (blocks d) /\ tx_block_number t = Some (block_number b).

(** The statements on the other tables leave [blocks] alone. *)
Definition keeps_blocks (f : database -> outcome database) : Prop :=
  forall d d', f d = Return d' -> blocks d' = blocks d.

(** A statement that touches neither [blocks] nor [transactions]. *)
Definition keeps_ledger (f : database -> outcome database) : Prop :=
  forall d d', f d = Return d' ->
    blocks d' = blocks d /\ transactions d' = transactions d.

(** [SELECT * FROM carbon_credits WHERE credit_id = ?], [fetchone()] *)
Definition credit_by_id (id : string) (d : database) : option carbon_credit :=
  find (fun c => String.eqb (credit_id c) id) (carbon_credits d).

(** *** The required-fields check of the POST routes *)

(** [[field for field in required_fields if field not in data]] *)
Fixpoint missing_fields (required_fields : list string) (data : json)
  : outcome (list string) :=
  match required_fields with
  | [] => Return []
  | field :: rest =>
      match py_in field data with
      | Raise e => Raise e
      | Return present =>
          match missing_fields rest data with
          | Raise e => Raise e
          | Return missing => Return (if present then missing else field :: missing)
          end
      end
  end.

(** What the check makes of the request: the 400 reply with its message,
    or nothing, and the route goes on. *)
Inductive checked : Type :=
| MissingRequiredFields (error : string)
| Complete.

Definition check_required_fields (required_fields : list string) (data : json)
  : outcome checked :=
  match missing_fields required_fields data with
  | Raise e => Raise e
  | Return [] => Return Complete
  | Return missing =>
      Return (MissingRequiredFields
                ("Missing required fields: " ++ String.concat ", " missing))
  end.

Definition submit_required_fields : list string :=
  ["ngo_id"; "project_id"; "verification_data"].

Definition issue_required_fields : list string :=
  ["ngo_id"; "project_id"; "credits_amount"; "verification_score"].

Definition transfer_required_fields : list string :=
  ["credit_id"; "from_owner"; "to_owner"; "credits_amount"; "transfer_price"].

(** *** The GET routes *)

(** Python's truth value of a query parameter. *)
Definition given (parameter : option string) : bool :=
  match parameter with
  | Some (String _ _) => true
  | _ => false
  end.

(** One entry of the reply of [/ledger/query].  The route reads the columns
    of [SELECT * FROM transactions] by position, and the table has a
    [signature] column, written by no statement, between [data] and
    [timestamp]: the entry's [timestamp] is [row[7]], that column, and its
    [status] is [row[8]], the row's timestamp. *)
Record report : Type := Report {
  report_tx_hash : string;            (* row[1] *)
  report_block_number : option nat;   (* row[2] *)
  report_from_entity : string;        (* row[4] *)
  report_timestamp : option string;   (* row[7] *)
  report_status : string;             (* row[8] *)
  report_verification_data : json;
  report_project_id : json
}.

Inductive query_reply : Type :=
| Found (reports : list report)   (* 200, with count = len(reports) *)
| NoQueryParameter                (* 400 *)
| NoReportsFound                  (* 404 *)
| QueryFailed (e : exn).          (* 500 *)

(** [SELECT * FROM transactions WHERE status = "confirmed"] and the one
    condition the route adds to it. *)
Definition select_confirmed (tx_hash project_id ngo_id : option string) (d : database)
  : list transaction :=
  filter (fun t =>
            String.eqb (tx_status t) "confirmed" &&
            if given tx_hash
            then String.eqb (App.tx_hash t) (or_default tx_hash EmptyString)
            else if given project_id
            then like ("%" ++ quoted "project_id" ++ ": "
                           ++ quoted (or_default project_id EmptyString) ++ "%")
                      (data t)
            else if given ngo_id
            then String.eqb (from_entity t) (or_default ngo_id EmptyString)
            else true)
         (transactions d).

(** The reply of [/ledger/credits]; an entry shows the row's columns up to
    [market_value]. *)
Record credit_listing : Type := CreditListing {
  credits : list carbon_credit;
  total_count : nat;
  filter_owner : option string;
  filter_status : string;
  filter_limit : Z
}.

(** [SELECT * FROM carbon_credits WHERE status = ? [AND owner_id = ?]
     ORDER BY issuance_date DESC LIMIT ?] *)
Definition select_credits (owner_id : option string) (status : string) (limit : Z)
    (d : database) : list carbon_credit :=
  sql_limit limit
    (order_by_desc (fun x y => String.leb (issuance_date y) (issuance_date x))
       (filter (fun c =>
                  String.eqb (App.status c) status &&
                  if given owner_id
                  then String.eqb (App.owner_id c) (or_default owner_id EmptyString)
                  else true)
               (carbon_credits d))).

(** The reply of [/ledger/blockchain]; an entry of [recent_blocks] shows
    the row's number, hash, timestamp and transaction count. *)
Record blockchain_info : Type := BlockchainInfo {
  total_blocks : nat;
  total_transactions : nat;
  total_credits_issued : nat;
  active_credits : Q;
  last_block : option block;
  recent_blocks : list block
}.

Section Reads.
Context `{Runtime}.

(** One row of the selection, as the route formats it. *)
Definition format_report (t : transaction) : M database report :=
  tx_data <- py_loads (data t) ;;
  verification_data <- py_get tx_data "verification_data" (JObj []) ;;
  project_id <- py_get tx_data "project_id" JNull ;;
  ret (Report (tx_hash t) (tx_block_number t) (from_entity t) None (tx_timestamp t)
              verification_data project_id).

(** The parameters are those of the query string, [None] when absent. *)
Definition query_verification_report (tx_hash project_id ngo_id : option string)
    (w : world database) : world database * query_reply :=
  match
    (if negb (given tx_hash || given project_id || given ngo_id)
     then ret NoQueryParameter
     else
       rows <- connection (query (select_confirmed tx_hash project_id ngo_id)) ;;
       match rows with
       | [] => ret NoReportsFound
       | _ =>
           reports <- for_each format_report rows ;;
           ret (Found reports)
       end) w
  with
  | (w', Return r) => (w', r)
  | (w', Raise e) => (w', QueryFailed e)
  end.

(** [owner] and [status] are the parameters of the query string; [limit]
    is what [request.args.get('limit', 50, type=int)] makes of the third,
    [None] when it is absent or no integer.  Python's integers are not
    bounded, and [cursor.execute] raises when it binds one that does not fit
    64 bits to [LIMIT ?]. *)
Definition list_carbon_credits (owner status : option string) (limit : option Z)
  : world database -> world database * reply credit_listing :=
  try_except (
    let owner_id := owner in
    let status := or_default status "active" in
    let limit := or_default limit 50%Z in
    rows <- connection (
      if sqlite_integer limit
      then query (select_credits owner_id status limit)
      else raise OverflowError) ;;
    ret (OK (CreditListing rows (length rows) owner_id status limit))).

Definition get_blockchain_info
  : world database -> world database * reply blockchain_info :=
  try_except (
    connection (
      total_blocks <- query (fun d => length (blocks d)) ;;
      total_transactions <-
        query (fun d => count_where (fun t => String.eqb (tx_status t) "confirmed")
                                    (transactions d)) ;;
      total_credits <- query (fun d => length (carbon_credits d)) ;;
      active_credits <-
        query (fun d => sum_of credits_amount
                          (filter (fun c => String.eqb (status c) "active")
                                  (carbon_credits d))) ;;
      recent_blocks <-
        query (fun d => sql_limit 10
                          (order_by_desc
                             (fun x y => Nat.leb (block_number y) (block_number x))
                             (blocks d))) ;;
      ret (OK (BlockchainInfo total_blocks total_transactions total_credits
                 active_credits (hd_error recent_blocks) recent_blocks)))).

End Reads.

(** *** What the routes keep true of the tables *)

(** The row that [UPDATE transactions SET block_number = ?, status =
    'confirmed' WHERE tx_hash = ?] makes of a row. *)
Definition confirmed_row (n : nat) (h : string) (t : transaction) : transaction :=
  if String.eqb (tx_hash t) h
  then Transaction (tx_hash t) (Some n) (tx_type t) (from_entity t)
         (to_entity t) (data t) (tx_timestamp t) "confirmed"
  else t.

(** The number of confirmed transactions. *)
Definition confirmed_count (d : database) : nat :=
  count_where (fun t => String.eqb (tx_status t) "confirmed") (transactions d).

(** A row with hash [h] waits for its block. *)
Definition pending_row (h : string) (d : database) : Prop :=
  exists t, In t (transactions d) /\ tx_hash t = h /\ tx_status t = "pending".

(** Transaction hashes are unique, and a transaction is pending, without a
    block number, or confirmed, with one. *)
Definition well_formed_transactions (d : database) : Prop :=
  NoDup (map tx_hash (transactions d)) /\
  forall t, In t (transactions d) ->
    (tx_status t = "pending" /\ tx_block_number t = None) \/
    (tx_status t = "confirmed" /\ exists n, tx_block_number t = Some n).

(** Every block but the genesis block has one confirmed transaction. *)
Definition ledger_counts (d : database) : Prop :=
  well_formed_transactions d /\ confirmed_count d + 1 = length (blocks d).

(** Between the insertion of a block and the confirmation of the
    transaction [h] it was made for. *)
Definition awaiting (h : string) (d : database) : Prop :=
  well_formed_transactions d /\ confirmed_count d + 2 = length (blocks d) /\
  pending_row h d.

(** What a commit that returned has done to the ledger tables: the pending
    row [t] was appended, the block [b] was appended, and the row was
    confirmed in that block. *)
Definition committed (d d' : database) (t : transaction) (b : block) : Prop :=
  existsb (fun x => String.eqb (tx_hash x) (tx_hash t)) (transactions d) = false /\
  tx_status t = "pending" /\ tx_block_number t = None /\
  blocks d' = blocks d ++ [b] /\
  transactions d' =
    map (confirmed_row (block_number b) (tx_hash t)) (transactions d ++ [t]).

(** Credit ids are unique; a credit is active, or transferred and empty. *)
Definition well_formed_credits (cs : list carbon_credit) : Prop :=
  NoDup (map credit_id cs) /\
  forall c, In c cs ->
    status c = "active" \/ (status c = "transferred" /\ (credits_amount c == 0)%Q).

(** The credits are well formed and [c] is the active credit with this id. *)
Definition selected (id : string) (c : carbon_credit) (cs : list carbon_credit) : Prop :=
  well_formed_credits cs /\
  find (fun x => String.eqb (credit_id x) id && String.eqb (status x) "active") cs
  = Some c.

(** What the two [UPDATE]s of a transfer make of a credit row. *)
Definition transferred_row (to_owner : string) (amount : Q) (id : string)
    (c : carbon_credit) : carbon_credit :=
  let moved :=
    if String.eqb (credit_id c) id
    then set_owner_and_amount to_owner (credits_amount c - amount)%Q c
    else c in
  if String.eqb (credit_id moved) id && Qeq_bool (credits_amount moved) 0
  then set_status "transferred" moved
  else moved.


End App.

(** ** [blockchain_api.py] *)

Module Simulator.

(** *** Tables (the [created_at] columns are never read) *)

Record block : Type := Block {
  block_number : nat;               (* INTEGER PRIMARY KEY AUTOINCREMENT *)
  block_hash : string;
  previous_hash : string;
  timestamp : string;
  merkle_root : string;
  transaction_count : nat
}.

Record transaction : Type := Transaction {
  transaction_id : string;
  tx_block_number : nat;
  transaction_type : string;
  from_org : string;
  to_org : option string;
  data : string;
  data_hash : string;
  tx_timestamp : string;
  tx_status : string
}.

Record verification_report : Type := VerificationReport {
  report_id : string;
  ngo_id : string;
  project_id : string;
  verification_data : string;
  report_data_hash : string;
  final_score : json;
  carbon_credits_value : json;
  report_transaction_id : string;
  report_status : string
}.

Record carbon_credit : Type := CarbonCredit {
  credit_id : string;
  credit_ngo_id : string;
  company_id : option string;
  amount : Q;
  price_per_credit : option Q;
  total_value : option Q;
  credit_report_id : string;
  status : string;
  transferred_at : option string
}.

Record database : Type := Database {
  blocks : list block;
  transactions : list transaction;
  verification_reports : list verification_report;
  carbon_credits : list carbon_credit
}.

(** The database file after [_init_database] has created the tables. *)
Definition empty_database : database := Database [] [] [] [].

Definition fresh : world database := World empty_database 0 0.

(** The same world with another [verification_reports] table. *)
Definition with_reports (rs : list verification_report) (w : world database)
  : world database :=
  World (Database (blocks (db w)) (transactions (db w)) rs (carbon_credits (db w)))
        (clock w) (draws w).

(** *** SQL statements *)

(** The largest [block_number] in the table, 0 when it is empty. *)
Definition max_block_number (bs : list block) : nat :=
  fold_left (fun m b => Nat.max m (block_number b)) bs 0.

(** [INSERT INTO blocks (block_hash, previous_hash, timestamp, merkle_root
     [, transaction_count])]: SQLite assigns the next [block_number], one
    more than the largest so far (no row is ever deleted), starting at 1;
    [block_hash] is [UNIQUE]. *)
Definition insert_block (block_hash previous_hash timestamp merkle_root : string)
    (transaction_count : nat) (d : database) : outcome database :=
  if existsb (fun x => String.eqb (Simulator.block_hash x) block_hash) (blocks d)
  then Raise (IntegrityError "blocks.block_hash")
  else
    let b := Block (S (max_block_number (blocks d))) block_hash previous_hash
               timestamp merkle_root transaction_count in
    Return (Database (blocks d ++ [b]) (transactions d) (verification_reports d)
              (carbon_credits d)).

(** [INSERT INTO transactions]: [transaction_id] is the primary key. *)
Definition insert_transaction (t : transaction) (d : database) : outcome database :=
  if existsb (fun x => String.eqb (transaction_id x) (transaction_id t)) (transactions d)
  then Raise (IntegrityError "transactions.transaction_id")
  else Return (Database (blocks d) (transactions d ++ [t]) (verification_reports d)
                 (carbon_credits d)).

(** A list or a dict cannot be bound to an SQL parameter. *)
Definition bindable (v : json) : bool :=
  match v with
  | JArr _ | JObj _ => false
  | _ => true
  end.

(** [INSERT INTO verification_reports]: [report_id] is the primary key. *)
Definition insert_verification_report (r : verification_report) (d : database)
  : outcome database :=
  if negb (bindable (final_score r) && bindable (carbon_credits_value r))
  then Raise InterfaceError
  else if existsb (fun x => String.eqb (report_id x) (report_id r)) (verification_reports d)
  then Raise (IntegrityError "verification_reports.report_id")
  else Return (Database (blocks d) (transactions d) (verification_reports d ++ [r])
                 (carbon_credits d)).

(** [INSERT INTO carbon_credits]: [credit_id] is the primary key. *)
Definition insert_carbon_credit (c : carbon_credit) (d : database) : outcome database :=
  if existsb (fun x => String.eqb (credit_id x) (credit_id c)) (carbon_credits d)
  then Raise (IntegrityError "carbon_credits.credit_id")
  else Return (Database (blocks d) (transactions d) (verification_reports d)
                 (carbon_credits d ++ [c])).

(** [UPDATE carbon_credits SET company_id = ?, status = 'transferred',
     transferred_at = ? WHERE credit_id = ?] *)
Definition mark_transferred (to_company ts id : string) (d : database) : outcome database :=
  Return (Database (blocks d) (transactions d) (verification_reports d)
    (map (fun c =>
            if String.eqb (credit_id c) id
            then CarbonCredit (credit_id c) (credit_ngo_id c) (Some to_company) (amount c)
                   (price_per_credit c) (total_value c) (credit_report_id c)
                   "transferred" (Some ts)
            else c)
         (carbon_credits d))).

(** [SELECT * FROM blocks ORDER BY block_number DESC LIMIT 1], [fetchone()] *)
Definition highest (best : option block) (b : block) : option block :=
  match best with
  | None => Some b
  | Some a => if Nat.ltb (block_number a) (block_number b) then Some b else Some a
  end.

Definition select_latest_block (d : database) : option block :=
  fold_left highest (blocks d) None.

(** [SELECT * FROM carbon_credits WHERE credit_id = ? AND status = "available"],
    [fetchone()] *)
Definition select_available_credit (id : string) (d : database) : option carbon_credit :=
  find (fun c => String.eqb (credit_id c) id && String.eqb (status c) "available")
       (carbon_credits d).

(** The row of [query_report]: the report's columns and those joined to it. *)
Record report_view : Type := ReportView {
  view_report : verification_report;
  view_verification_data : json;
  view_block_number : nat;
  view_transaction_id : string;
  view_block_hash : string
}.

(** [SELECT vr.*, t.block_number, t.transaction_id, b.block_hash
     FROM verification_reports vr
     JOIN transactions t ON vr.transaction_id = t.transaction_id
     JOIN blocks b ON t.block_number = b.block_number
     WHERE vr.report_id = ?], [fetchone()] *)
Definition select_report (id : string) (d : database)
  : option (verification_report * transaction * block) :=
  match
    flat_map (fun vr =>
      if String.eqb (report_id vr) id then
        flat_map (fun t =>
          if String.eqb (report_transaction_id vr) (transaction_id t) then
            flat_map (fun b =>
              if Nat.eqb (tx_block_number t) (block_number b) then [(vr, t, b)] else [])
              (blocks d)
          else [])
          (transactions d)
      else [])
      (verification_reports d)
  with
  | [] => None
  | row :: _ => Some row
  end.

(** A call of one of the public methods, or of [_create_genesis_block] as
    [__main__] makes it. *)
Inductive call : Type :=
| CreateGenesis
| Submit (ngo_id project_id : string) (verification_data : json)
| Issue (ngo_id report_id : string) (amount : Q) (price_per_credit : option Q)
| TransferCredits (credit_id from_ngo to_company : string) (amount : option Q).

Section WithRuntime.
Context `{Runtime}.

(** [data.encode()] exists for strings only. *)
Definition _calculate_hash (data : json) : outcome string :=
  match data with
  | JObj _ => Return (sha256_hexdigest (json_dumps true data))
  | JStr s => Return (sha256_hexdigest s)
  | _ => Raise AttributeError
  end.

Definition _get_latest_block : M database (option block) :=
  connection (query select_latest_block).

Definition _create_genesis_block : M database unit :=
  latest_block <- _get_latest_block ;;
  match latest_block with
  | Some _ => ret tt
  | None =>
      t0 <- now ;;
      let genesis_data :=
        JObj [("type", JStr "genesis");
              ("message", JStr "EcoLedger Genesis Block");
              ("timestamp", JStr t0)] in
      genesis_hash <- lift (_calculate_hash genesis_data) ;;
      connection (
        t1 <- now ;;
        execute (insert_block genesis_hash "0" t1 genesis_hash 0))
  end.

(** [{'block_number': ..., 'previous_hash': ..., 'transactions': [...],
     'timestamp': ...}] *)
Definition block_data (new_block_number : nat) (previous_hash : string)
    (transaction_data : json) (ts : string) : json :=
  JObj [("block_number", JNum (inject_Z (Z.of_nat new_block_number)));
        ("previous_hash", JStr previous_hash);
        ("transactions", JArr [transaction_data]);
        ("timestamp", JStr ts)].

Record submission : Type := Submission {
  submitted_report_id : string;
  submitted_transaction_id : string;
  submitted_block_number : nat;
  submitted_block_hash : string;
  submitted_data_hash : string;
  submitted_timestamp : string
}.

Definition submit_verification_report (ngo_id project_id : string)
    (verification_data : json) : M database submission :=
  rewrap "Failed to submit verification report" (
    _create_genesis_block ;;
    report_id <- new_uuid ;;
    transaction_id <- new_uuid ;;
    data_hash <- lift (_calculate_hash verification_data) ;;
    t0 <- now ;;
    let transaction_data :=
      JObj [("type", JStr "verification_report");
            ("report_id", JStr report_id);
            ("ngo_id", JStr ngo_id);
            ("project_id", JStr project_id);
            ("data_hash", JStr data_hash);
            ("timestamp", JStr t0)] in
    latest_block <- _get_latest_block ;;
    let new_block_number :=
      match latest_block with Some b => block_number b + 1 | None => 1 end in
    let previous_hash :=
      match latest_block with Some b => block_hash b | None => "0" end in
    t1 <- now ;;
    block_hash <- lift (_calculate_hash
                          (block_data new_block_number previous_hash transaction_data t1)) ;;
    connection (
      execute (insert_block block_hash previous_hash t1 data_hash 1) ;;
      t2 <- now ;;
      execute (insert_transaction
        (Transaction transaction_id new_block_number "verification_report" ngo_id None
           (json_dumps false verification_data) data_hash t2 "confirmed")) ;;
      final_score <- py_get verification_data "Final_Score" JNull ;;
      carbon_credits <- py_get verification_data "Carbon_Credits" JNull ;;
      execute (insert_verification_report
        (VerificationReport report_id ngo_id project_id
           (json_dumps false verification_data) data_hash final_score carbon_credits
           transaction_id "submitted"))) ;;
    t3 <- now ;;
    ret (Submission report_id transaction_id new_block_number block_hash data_hash t3)).

Definition query_report (report_id : string) : M database (option report_view) :=
  rewrap "Failed to query report" (
    connection (
      row <- query (select_report report_id) ;;
      match row with
      | Some (vr, t, b) =>
          match json_loads (verification_data vr) with
          | Some v =>
              ret (Some (ReportView vr v (tx_block_number t) (transaction_id t)
                           (block_hash b)))
          | None => raise JSONDecodeError
          end
      | None => ret None
      end)).

Record issuance : Type := Issuance {
  issued_credit_id : string;
  issued_transaction_id : string;
  issued_block_number : nat;
  issued_block_hash : string;
  issued_amount : Q
}.

(** [latest_block['block_number']] when [latest_block] may be [None]. *)
Definition subscript (latest_block : option block) : M database block :=
  match latest_block with
  | Some b => ret b
  | None => raise TypeError
  end.

(** Python's truth value of an optional number. *)
Definition truthy (x : option Q) : bool :=
  match x with
  | Some q => negb (Qeq_bool q 0)
  | None => false
  end.

Definition issue_carbon_credits (ngo_id report_id : string) (amount : Q)
    (price_per_credit : option Q) : M database issuance :=
  rewrap "Failed to issue carbon credits" (
    credit_id <- new_uuid ;;
    transaction_id <- new_uuid ;;
    let total_value :=
      match price_per_credit with
      | Some p => if truthy price_per_credit then Some (amount * p)%Q else None
      | None => None
      end in
    t0 <- now ;;
    let transaction_data :=
      JObj [("type", JStr "issue_credits");
            ("credit_id", JStr credit_id);
            ("ngo_id", JStr ngo_id);
            ("amount", JNum amount);
            ("report_id", JStr report_id);
            ("timestamp", JStr t0)] in
    latest_block <- _get_latest_block ;;
    latest <- subscript latest_block ;;
    let new_block_number := block_number latest + 1 in
    t1 <- now ;;
    block_hash <- lift (_calculate_hash
                          (block_data new_block_number (block_hash latest)
                             transaction_data t1)) ;;
    data_hash <- lift (_calculate_hash transaction_data) ;;
    connection (
      execute (insert_block block_hash (Simulator.block_hash latest) t1 data_hash 1) ;;
      t2 <- now ;;
      execute (insert_transaction
        (Transaction transaction_id new_block_number "issue_credits" ngo_id None
           (json_dumps false transaction_data) data_hash t2 "confirmed")) ;;
      execute (insert_carbon_credit
        (CarbonCredit credit_id ngo_id None amount price_per_credit total_value
           report_id "available" None))) ;;
    ret (Issuance credit_id transaction_id new_block_number block_hash amount)).

Record transfer : Type := Transfer {
  transferred_transaction_id : string;
  transferred_block_number : nat;
  transferred_block_hash : string;
  transferred_credit_id : string;
  transferred_amount : Q;
  transferred_from_ngo : string;
  transferred_to_company : string
}.

(** [amount or default] *)
Definition amount_or (amount : option Q) (default : Q) : Q :=
  match amount with
  | Some a => if truthy amount then a else default
  | None => default
  end.

Definition transfer_credits (credit_id from_ngo to_company : string)
    (amount : option Q) : M database transfer :=
  rewrap "Failed to transfer credits" (
    transaction_id <- new_uuid ;;
    transfer_amount <- connection (
      credit <- query (select_available_credit credit_id) ;;
      match credit with
      | None => raise (ValueError "Credit not found or not available")
      | Some credit_dict =>
          let transfer_amount := amount_or amount (Simulator.amount credit_dict) in
          if Qltb (Simulator.amount credit_dict) transfer_amount
          then raise (ValueError "Transfer amount exceeds available credits")
          else ret transfer_amount
      end) ;;
    t0 <- now ;;
    let transaction_data :=
      JObj [("type", JStr "transfer_credits");
            ("credit_id", JStr credit_id);
            ("from_ngo", JStr from_ngo);
            ("to_company", JStr to_company);
            ("amount", JNum transfer_amount);
            ("timestamp", JStr t0)] in
    latest_block <- _get_latest_block ;;
    latest <- subscript latest_block ;;
    let new_block_number := block_number latest + 1 in
    t1 <- now ;;
    block_hash <- lift (_calculate_hash
                          (block_data new_block_number (block_hash latest)
                             transaction_data t1)) ;;
    data_hash <- lift (_calculate_hash transaction_data) ;;
    connection (
      execute (insert_block block_hash (Simulator.block_hash latest) t1 data_hash 1) ;;
      t2 <- now ;;
      execute (insert_transaction
        (Transaction transaction_id new_block_number "transfer_credits" from_ngo
           (Some to_company) (json_dumps false transaction_data) data_hash t2
           "confirmed")) ;;
      t3 <- now ;;
      execute (mark_transferred to_company t3 credit_id)) ;;
    ret (Transfer transaction_id new_block_number block_hash credit_id transfer_amount
           from_ngo to_company)).

(** The call [m] meets no collision: the hash of its new block and the id
    of its new transaction are those of no stored row, so that SQLite raises
    no [IntegrityError]. *)
Definition collision_free {A} (m : M database A) (w : world database) : Prop :=
  forall w' what constraint, m w <> (w', Raise (Failed what (IntegrityError constraint))).

(** *** Reachable worlds

    The methods run one at a time ([with self.lock]) on a database that
    starts with empty tables. *)

Definition perform (c : call) (w : world database) : world database :=
  match c with
  | CreateGenesis => fst (_create_genesis_block w)
  | Submit n p v => fst (submit_verification_report n p v w)
  | Issue n r a p => fst (issue_carbon_credits n r a p w)
  | TransferCredits c f t a => fst (transfer_credits c f t a w)
  end.

Inductive reachable : world database -> Prop :=
| reachable_fresh : reachable fresh
| reachable_perform : forall w c, reachable w -> reachable (perform c w).

(** *** Tamper evidence

    Every stored transaction is confirmed, the block that bears its block
    number is stored, and its [data] is the serialisation of a payload whose
    canonical hash is its [data_hash]. *)
Definition tamper_evident (d : database) : Prop :=
  forall t, In t (transactions d) ->
    tx_status t = "confirmed" /\
    (exists b, In b (blocks d) /\ block_number b = tx_block_number t) /\
    exists payload,
      data t = json_dumps false payload /\
      _calculate_hash payload = Return (data_hash t).

End WithRuntime.

(** *** The hash chain *)

(** The blocks, in insertion order, carry the numbers [k], [k+1], ... *)
Definition numbered_from (k : nat) (bs : list block) : Prop :=
  forall i b, nth_error bs i = Some b -> block_number b = k + i.

(** Each block names the hash of the block inserted just before it. *)
Definition linked (bs : list block) : Prop :=
  forall i p b,
    nth_error bs i = Some p -> nth_error bs (S i) = Some b ->
    previous_hash b = block_hash p.

(** Numbers start at 1, and the first block names the sentinel. *)
Definition chain (d : database) : Prop :=
  numbered_from 1 (blocks d) /\ linked (blocks d) /\
  forall b, nth_error (blocks d) 0 = Some b -> previous_hash b = "0".

(** [SELECT * FROM blocks WHERE block_number = ?], [fetchone()] *)
Definition block_at (n : nat) (d : database) : option block :=
  find (fun b => Nat.eqb (block_number b) n) (blocks d).

(** [SELECT * FROM carbon_credits WHERE credit_id = ?], [fetchone()] *)
Definition credit_by_id (id : string) (d : database) : option carbon_credit :=
  find (fun c => String.eqb (credit_id c) id) (carbon_credits d).

(** *** What the methods keep true of the tables *)

(** [... FROM carbon_credits WHERE status = ?] *)
Definition with_status (s : string) (cs : list carbon_credit) : list carbon_credit :=
  filter (fun c => String.eqb (status c) s) cs.

(** The row that [UPDATE carbon_credits SET company_id = ?, status =
    'transferred', transferred_at = ? WHERE credit_id = ?] makes of a row. *)
Definition transferred_row (to_company ts id : string) (c : carbon_credit)
  : carbon_credit :=
  if String.eqb (credit_id c) id
  then CarbonCredit (credit_id c) (credit_ngo_id c) (Some to_company) (amount c)
         (price_per_credit c) (total_value c) (credit_report_id c)
         "transferred" (Some ts)
  else c.

(** What a method that returned has appended to the chain: the block [b],
    with the next number, and the confirmed transaction [t] of that block. *)
Definition appended (d d' : database) (b : block) (t : transaction) : Prop :=
  existsb (fun x => String.eqb (block_hash x) (block_hash b)) (blocks d) = false /\
  existsb (fun x => String.eqb (transaction_id x) (transaction_id t)) (transactions d)
  = false /\
  blocks d' = blocks d ++ [b] /\
  transactions d' = transactions d ++ [t] /\
  block_number b = S (max_block_number (blocks d)) /\
  tx_block_number t = block_number b /\
  tx_status t = "confirmed" /\
  transaction_count b = 1 /\
  merkle_root b = data_hash t.

(** Credit ids are unique; a credit is available or
    transferred; there is one transaction for every block but the first; and
    a transaction is a report, the issuance of a credit, or the transfer of a
    credit that is now transferred. *)
Definition accounts (d : database) : Prop :=
  NoDup (map credit_id (carbon_credits d)) /\
  (forall c, In c (carbon_credits d) ->
     status c = "available" \/ status c = "transferred") /\
  (blocks d = [] -> transactions d = []) /\
  (blocks d <> [] -> length (blocks d) = S (length (transactions d))) /\
  length (transactions d)
  = length (verification_reports d)
    + length (with_status "available" (carbon_credits d))
    + 2 * length (with_status "transferred" (carbon_credits d)).

(** *** Statistics *)

Record credit_stats : Type := CreditStats {
  count : nat;
  total_amount : Q
}.

Record blockchain_stats : Type := BlockchainStats {
  stats_blocks : nat;
  stats_transactions : nat;
  stats_verification_reports : nat;
  available_credits : credit_stats;
  transferred_credits : credit_stats
}.

(** [SELECT COUNT( * ), SUM(amount) FROM carbon_credits WHERE status = ?];
    [or 0] makes 0 of the [NULL] sum of no row. *)
Definition credits_with_status (s : string) (d : database) : credit_stats :=
  let rows := with_status s (carbon_credits d) in
  CreditStats (length rows) (sum_of amount rows).

Definition get_blockchain_stats : M database blockchain_stats :=
  rewrap "Failed to get blockchain stats" (
    connection (
      block_count <- query (fun d => length (blocks d)) ;;
      transaction_count <- query (fun d => length (transactions d)) ;;
      reports_count <- query (fun d => length (verification_reports d)) ;;
      available <- query (credits_with_status "available") ;;
      transferred <- query (credits_with_status "transferred") ;;
      ret (BlockchainStats block_count transaction_count reports_count
             available transferred))).

(** *** The routes

    A POST route first checks that the body has its required fields, and
    answers 400 for the first one that is missing. *)

(** [for field in required_fields: if field not in data: return ..., 400] *)
Fixpoint first_missing_field (required_fields : list string) (data : json)
  : outcome (option string) :=
  match required_fields with
  | [] => Return None
  | field :: rest =>
      match py_in field data with
      | Raise e => Raise e
      | Return false => Return (Some field)
      | Return true => first_missing_field rest data
      end
  end.

Definition submit_required_fields : list string :=
  ["ngo_id"; "project_id"; "verification_data"].

Definition issue_required_fields : list string := ["ngo_id"; "report_id"; "amount"].

Definition transfer_required_fields : list string :=
  ["credit_id"; "from_ngo"; "to_company"].

Inductive response (A : Type) : Type :=
| Success (body : A)                  (* 200 *)
| NotFound                            (* 404 *)
| Error (error : string) (e : exn).   (* 500, with "message": str(e) *)
Arguments Success {A} body.
Arguments NotFound {A}.
Arguments Error {A} error e.

(** [try: ...; return jsonify(result), 200
     except Exception as e: return jsonify({"error": ..., "message": str(e)}), 500] *)
Definition respond {A} (error : string) (m : M database A) (w : world database)
  : world database * response A :=
  match m w with
  | (w', Return a) => (w', Success a)
  | (w', Raise e) => (w', Error error e)
  end.

(** An entry of [/ledger/credits/available]: the credit's columns, and two
    of its report. *)
Record available_entry : Type := AvailableEntry {
  entry_credit : carbon_credit;
  entry_project_id : string;
  entry_final_score : json
}.

Record available_listing : Type := AvailableListing {
  listed : list available_entry;
  total_credits : Q
}.

(** [SELECT cc.*, vr.project_id, vr.final_score
     FROM carbon_credits cc
     JOIN verification_reports vr ON cc.report_id = vr.report_id
     WHERE cc.status = 'available'], in table order.  The route adds
    [ORDER BY cc.issued_at DESC], on a column that SQLite fills from its own
    clock and that the tables above do not hold: the entries of the reply are
    these, in an order that is not modelled. *)
Definition select_available_credits (d : database) : list available_entry :=
  flat_map (fun cc =>
    if String.eqb (status cc) "available" then
      flat_map (fun vr =>
        if String.eqb (credit_report_id cc) (report_id vr)
        then [AvailableEntry cc (project_id vr) (final_score vr)]
        else [])
        (verification_reports d)
    else [])
    (carbon_credits d).

(** An entry of [/ledger/history/<org_id>]. *)
Record history_entry : Type := HistoryEntry {
  entry_transaction : transaction;
  entry_data : json;
  entry_block_hash : string;
  entry_block_timestamp : string
}.

(** [SELECT t.*, b.block_hash, b.timestamp as block_timestamp
     FROM transactions t JOIN blocks b ON t.block_number = b.block_number
     WHERE t.from_org = ? OR t.to_org = ?
     ORDER BY t.timestamp DESC] *)
Definition select_history (org_id : string) (d : database)
  : list (transaction * block) :=
  order_by_desc
    (fun x y => String.leb (tx_timestamp (fst y)) (tx_timestamp (fst x)))
    (flat_map (fun t =>
       if String.eqb (from_org t) org_id
          || match to_org t with
             | Some o => String.eqb o org_id
             | None => false
             end
       then
         flat_map (fun b =>
           if Nat.eqb (tx_block_number t) (block_number b) then [(t, b)] else [])
           (blocks d)
       else [])
       (transactions d)).

Module Routes.

Section WithRuntime.
Context `{Runtime}.

Definition submit_report (ngo_id project_id : string) (verification_data : json)
  : world database -> world database * response submission :=
  respond "Failed to submit report"
    (submit_verification_report ngo_id project_id verification_data).

Definition query_report (report_id : string) (w : world database)
  : world database * response report_view :=
  match Simulator.query_report report_id w with
  | (w', Return (Some result)) => (w', Success result)
  | (w', Return None) => (w', NotFound)
  | (w', Raise e) => (w', Error "Failed to query report" e)
  end.


Definition transfer_credits (credit_id from_ngo to_company : string)
    (amount : option Q)
  : world database -> world database * response transfer :=
  respond "Failed to transfer credits"
    (Simulator.transfer_credits credit_id from_ngo to_company amount).

Definition get_available_credits
  : world database -> world database * response available_listing :=
  respond "Failed to get available credits" (
    credits <- connection (query select_available_credits) ;;
    ret (AvailableListing credits (sum_of (fun e => amount (entry_credit e)) credits))).

Definition get_stats : world database -> world database * response blockchain_stats :=
  respond "Failed to get stats" get_blockchain_stats.

Definition get_organization_history (org_id : string)
  : world database -> world database * response (list history_entry) :=
  respond "Failed to get organization history" (
    connection (
      rows <- query (select_history org_id) ;;
      for_each (fun row =>
                  tx_data <- py_loads (data (fst row)) ;;
                  ret (HistoryEntry (fst row) tx_data (block_hash (snd row))
                         (timestamp (snd row))))
               rows)).

End WithRuntime.

End Routes.

End Simulator.

(** ** [ai_apis/dynamic_dataset_api.py]: the caller of [/ledger/issue] *)

Module Caller.

(** The body that the admin approval posts to [localhost:5006/ledger/issue]
    once credits are approved. *)
Definition issue_request_body (ngo_id verification_id credits_issued : json) : json :=
  JObj [("ngo_id", ngo_id);
        ("report_id", verification_id);
        ("amount", credits_issued);
        ("price_per_credit", JNum 25)].

End Caller.

(** ** A concrete runtime

    For running the two services on examples: a printer and a parser for
    JSON text in the layout of [json.dumps] (numbers are exact, an integer is
    printed in decimal and any other rational as a fraction; characters
    outside ASCII are printed as they are, not escaped), a clock, a UUID
    source, and a digest that tags its input instead of compressing it, so
    that distinct inputs have distinct digests. *)

Module Concrete.

Local Open Scope string_scope.

Definition quote : ascii := ascii_of_nat 34.
Definition backslash : ascii := ascii_of_nat 92.

Fixpoint escape (s : string) : string :=
  match s with
  | EmptyString => EmptyString
  | String c rest =>
      if Ascii.eqb c quote || Ascii.eqb c backslash
      then String backslash (String c (escape rest))
      else String c (escape rest)
  end.

Definition print_string (s : string) : string :=
  String quote (escape s ++ String quote EmptyString).

Definition print_Z (z : Z) : string :=
  match z with
  | Z0 => "0"
  | Zpos p => str_of_nat (Pos.to_nat p)
  | Zneg p => "-" ++ str_of_nat (Pos.to_nat p)
  end.

Definition print_Q (q : Q) : string :=
  match Qden q with
  | xH => print_Z (Qnum q)
  | d => print_Z (Qnum q) ++ "/" ++ str_of_nat (Pos.to_nat d)
  end.

Fixpoint join (sep : string) (parts : list string) : string :=
  match parts with
  | [] => EmptyString
  | [p] => p
  | p :: rest => p ++ sep ++ join sep rest
  end.

(** Insertion of a printed member into a list of them sorted by key. *)
Fixpoint insert_member (m : string * string) (sorted : list (string * string))
  : list (string * string) :=
  match sorted with
  | [] => [m]
  | x :: rest =>
      if String.leb (fst m) (fst x) then m :: sorted else x :: insert_member m rest
  end.

Definition sort_members (members : list (string * string)) : list (string * string) :=
  fold_right insert_member [] members.

Fixpoint dumps (sort_keys : bool) (v : json) : string :=
  match v with
  | JNull => "null"
  | JBool true => "true"
  | JBool false => "false"
  | JNum q => print_Q q
  | JStr s => print_string s
  | JArr items => "[" ++ join ", " (map (dumps sort_keys) items) ++ "]"
  | JObj members =>
      let printed := map (fun '(k, x) => (k, dumps sort_keys x)) members in
      let ordered := if sort_keys then sort_members printed else printed in
      "{" ++ join ", " (map (fun m => print_string (fst m) ++ ": " ++ snd m) ordered) ++ "}"
  end.

Fixpoint skip_spaces (s : string) : string :=
  match s with
  | String c rest => if Ascii.eqb c " " then skip_spaces rest else s
  | EmptyString => s
  end.

Definition digit_of (c : ascii) : option nat :=
  let n := nat_of_ascii c in
  if Nat.leb 48 n && Nat.leb n 57 then Some (n - 48) else None.

(** The digits at the head of [s], read onto [acc]. *)
Fixpoint read_digits (acc : nat) (s : string) : nat * string :=
  match s with
  | String c rest =>
      match digit_of c with
      | Some d => read_digits (10 * acc + d) rest
      | None => (acc, s)
      end
  | EmptyString => (acc, s)
  end.

Definition starts_with_digit (s : string) : bool :=
  match s with
  | String c _ => match digit_of c with Some _ => true | None => false end
  | EmptyString => false
  end.

Definition read_natural (s : string) : option (nat * string) :=
  if starts_with_digit s then Some (read_digits 0 s) else None.

Definition read_number (s : string) : option (Q * string) :=
  let '(negative, s1) :=
    match s with
    | String "-" rest => (true, rest)
    | _ => (false, s)
    end in
  match read_natural s1 with
  | None => None
  | Some (n, s2) =>
      let z := if negative then Z.opp (Z.of_nat n) else Z.of_nat n in
      match s2 with
      | String "/" s3 =>
          match read_natural s3 with
          | Some (S d, s4) => Some (Qmake z (Pos.of_nat (S d)), s4)
          | _ => None
          end
      | _ => Some (Qmake z 1, s2)
      end
  end.

(** The characters up to the closing quote, escapes undone. *)
Fixpoint read_string (s : string) : option (string * string) :=
  match s with
  | EmptyString => None
  | String c rest =>
      if Ascii.eqb c quote then Some (EmptyString, rest)
      else if Ascii.eqb c backslash then
        match rest with
        | String e rest' =>
            match read_string rest' with
            | Some (body, tail) => Some (String e body, tail)
            | None => None
            end
        | EmptyString => None
        end
      else
        match read_string rest with
        | Some (body, tail) => Some (String c body, tail)
        | None => None
        end
  end.

Definition expect (word : string) (v : json) (s : string) : option (json * string) :=
  if String.prefix word s
  then Some (v, substring (String.length word) (String.length s - String.length word) s)
  else None.

(** Recursive descent; [fuel] bounds the nesting and the number of items. *)
Fixpoint read_value (fuel : nat) (s : string) : option (json * string) :=
  match fuel with
  | O => None
  | S fuel' =>
      match skip_spaces s with
      | String "n" _ => expect "null" JNull (skip_spaces s)
      | String "t" _ => expect "true" (JBool true) (skip_spaces s)
      | String "f" _ => expect "false" (JBool false) (skip_spaces s)
      | String "[" rest =>
          match skip_spaces rest with
          | String "]" tail => Some (JArr [], tail)
          | _ =>
              match read_items fuel' rest with
              | Some (items, tail) => Some (JArr items, tail)
              | None => None
              end
          end
      | String "{" rest =>
          match skip_spaces rest with
          | String "}" tail => Some (JObj [], tail)
          | _ =>
              match read_members fuel' rest with
              | Some (members, tail) => Some (JObj members, tail)
              | None => None
              end
          end
      | String c rest =>
          if Ascii.eqb c quote then
            match read_string rest with
            | Some (body, tail) => Some (JStr body, tail)
            | None => None
            end
          else
            match read_number (String c rest) with
            | Some (q, tail) => Some (JNum q, tail)
            | None => None
            end
      | EmptyString => None
      end
  end

with read_items (fuel : nat) (s : string) : option (list json * string) :=
  match fuel with
  | O => None
  | S fuel' =>
      match read_value fuel' s with
      | Some (v, tail) =>
          match skip_spaces tail with
          | String "," more =>
              match read_items fuel' more with
              | Some (vs, tail') => Some (v :: vs, tail')
              | None => None
              end
          | String "]" tail' => Some ([v], tail')
          | _ => None
          end
      | None => None
      end
  end

with read_members (fuel : nat) (s : string) : option (list (string * json) * string) :=
  match fuel with
  | O => None
  | S fuel' =>
      match skip_spaces s with
      | String c rest =>
          if Ascii.eqb c quote then
            match read_string rest with
            | Some (key, tail) =>
                match skip_spaces tail with
                | String ":" after =>
                    match read_value fuel' after with
                    | Some (v, tail') =>
                        match skip_spaces tail' with
                        | String "," more =>
                            match read_members fuel' more with
                            | Some (ms, tail'') => Some ((key, v) :: ms, tail'')
                            | None => None
                            end
                        | String "}" tail'' => Some ([(key, v)], tail'')
                        | _ => None
                        end
                    | None => None
                    end
                | _ => None
                end
            | None => None
            end
          else None
      | EmptyString => None
      end
  end.

Definition loads (s : string) : option json :=
  match read_value (S (String.length s)) s with
  | Some (v, tail) =>
      match skip_spaces tail with
      | EmptyString => Some v
      | _ => None
      end
  | None => None
  end.

(** [n] in decimal, padded with zeros on the left to [width] characters. *)
Fixpoint zeros (n : nat) : string :=
  match n with
  | O => EmptyString
  | S k => "0" ++ zeros k
  end.

Definition padded (width n : nat) : string :=
  let digits := str_of_nat n in
  zeros (width - String.length digits) ++ digits.

Definition digest (s : string) : string := "sha256(" ++ s ++ ")".

Definition timestamp_at (n : nat) : string :=
  "2025-01-01T00:00:00." ++ padded 6 n ++ "+00:00".

Definition uuid_at (n : nat) : string :=
  padded 8 n ++ "-0000-4000-8000-000000000000".

Definition runtime : Runtime :=
  {| sha256_hexdigest := digest;
     json_dumps := dumps;
     json_loads := loads;
     isoformat_now := timestamp_at;
     uuid4 := uuid_at |}.

(** *** Example runs of [app.py] *)

Definition sample_payload : json :=
  JObj [("Final_Score", JNum (9 # 10)); ("Carbon_Credits", JNum 5);
        ("tree_count", JNum 120)].

(** One report submitted after start-up. *)
Definition after_submission : world App.database :=
  @App.run runtime [App.Submit "ngoA" "p1" sample_payload].

(** Placeholders for the rows and replies that an example does not have. *)
Definition no_block : App.block :=
  App.Block 0 EmptyString EmptyString EmptyString EmptyString 0.

Definition no_credit : App.carbon_credit :=
  App.CarbonCredit EmptyString EmptyString EmptyString 0 0 0 0 EmptyString
    EmptyString EmptyString EmptyString 0 0 EmptyString EmptyString.

Definition newest_block (w : world App.database) : App.block :=
  last (App.blocks (db w)) no_block.

(** Ten credits issued to ngoA; the first UUID drawn makes the credit id. *)
Definition issued_credit_id : string := "ECC-p1-00000000".

Definition after_issuance : world App.database :=
  @App.run runtime [App.Issue "ngoA" "p1" 10 (9 # 10) App.no_options].

(** ngoA then sells all ten credits to companyB. *)
Definition after_full_transfer : world App.database :=
  @App.run runtime
    [App.Issue "ngoA" "p1" 10 (9 # 10) App.no_options;
     App.TransferCredits issued_credit_id "ngoA" "companyB" 10 15].

Definition stored_credit (w : world App.database) : App.carbon_credit :=
  match App.credit_by_id issued_credit_id (db w) with
  | Some c => c
  | None => no_credit
  end.

Definition body {A} (r : App.reply A) (default : A) : A :=
  match r with
  | App.OK a => a
  | _ => default
  end.

Definition no_transfer : App.transfer :=
  App.Transfer EmptyString EmptyString 0 EmptyString EmptyString EmptyString
    EmptyString 0 0 0 EmptyString.

(** *** Example runs of [blockchain_api.py] *)

(** The service as [__main__] starts it: tables created, genesis inserted. *)
Definition simulator_started : world Simulator.database :=
  fst (@Simulator._create_genesis_block runtime Simulator.fresh).

(** Ten credits issued against a report id that no report carries. *)
Definition unknown_report_issuance
  : world Simulator.database * outcome Simulator.issuance :=
  @Simulator.issue_carbon_credits runtime "ngoA" "no-such-report" 10 None
    simulator_started.

(** The first UUID drawn in [unknown_report_issuance] is the credit id. *)
Definition simulator_credit_id : string := uuid_at 0.

Definition available_credit (w : world Simulator.database) : Simulator.carbon_credit :=
  match Simulator.select_available_credit simulator_credit_id (db w) with
  | Some c => c
  | None =>
      Simulator.CarbonCredit EmptyString EmptyString None 0 None None EmptyString
        EmptyString None
  end.

(** A report submitted to a service that has just created its tables. *)
Definition first_submission
  : world Simulator.database * outcome Simulator.submission :=
  @Simulator.submit_verification_report runtime "ngoA" "p1" sample_payload
    Simulator.fresh.

Definition no_submission : Simulator.submission :=
  Simulator.Submission EmptyString EmptyString 0 EmptyString EmptyString EmptyString.

Definition returned_value {A} (o : outcome A) (default : A) : A :=
  match o with
  | Return a => a
  | Raise _ => default
  end.

End Concrete.

(** * Properties *)

(** ** Rules for [hoare] *)

Section Rules.
Context `{Runtime} {D : Type}.
Implicit Types (P I E : D -> Prop).

Lemma hoare_ret {A} P E (Q : A -> D -> Prop) (a : A) :
  (forall d, P d -> Q a d) -> hoare P (ret a) Q E.
Proof. intros HQ w HP. simpl. auto. Qed.

Lemma hoare_raise {A} P E (Q : A -> D -> Prop) (e : exn) :
  (forall d, P d -> E d) -> hoare P (raise e) Q E.
Proof. intros HE w HP. simpl. auto. Qed.

Lemma hoare_bind {A B} P E (R : A -> D -> Prop) (Q : B -> D -> Prop)
    (m : M D A) (k : A -> M D B) :
  hoare P m R E -> (forall a, hoare (R a) (k a) Q E) -> hoare P (bind m k) Q E.
Proof.
  intros Hm Hk w HP. unfold bind. specialize (Hm w HP).
  destruct (m w) as [w' [a|e]]; auto. apply Hk. exact Hm.
Qed.

Lemma hoare_weaken {A} (P P' : D -> Prop) (E E' : D -> Prop)
    (Q Q' : A -> D -> Prop) (m : M D A) :
  hoare P' m Q' E' ->
  (forall d, P d -> P' d) -> (forall a d, Q' a d -> Q a d) ->
  (forall d, E' d -> E d) ->
  hoare P m Q E.
Proof.
  intros Hm HP HQ HE w Hw. specialize (Hm w (HP _ Hw)).
  destruct (m w) as [w' [a|e]]; auto.
Qed.

Lemma hoare_now P E : hoare P now (fun _ => P) E.
Proof. intros w HP. simpl. exact HP. Qed.

Lemma hoare_new_uuid P E : hoare P new_uuid (fun _ => P) E.
Proof. intros w HP. simpl. exact HP. Qed.

Lemma hoare_execute P E (Q : D -> Prop) (f : D -> outcome D) :
  (forall d d', P d -> f d = Return d' -> Q d') ->
  (forall d e, P d -> f d = Raise e -> E d) ->
  hoare P (execute f) (fun _ => Q) E.
Proof.
  intros HQ HE w HP. unfold execute.
  destruct (f (db w)) as [d|e] eqn:Hf; simpl; eauto.
Qed.

Lemma preserves_ret {A} I (a : A) : preserves I (ret a).
Proof. apply hoare_ret. auto. Qed.

Lemma preserves_raise {A} I (e : exn) : preserves I (@raise D A e).
Proof. apply hoare_raise. auto. Qed.

Lemma preserves_bind {A B} I (m : M D A) (k : A -> M D B) :
  preserves I m -> (forall a, preserves I (k a)) -> preserves I (bind m k).
Proof. intros Hm Hk. eapply hoare_bind; [exact Hm | exact Hk]. Qed.

Lemma preserves_now I : preserves I now.
Proof. apply hoare_now. Qed.

Lemma preserves_new_uuid I : preserves I new_uuid.
Proof. apply hoare_new_uuid. Qed.

Lemma preserves_query {A} I (f : D -> A) : preserves I (query f).
Proof. intros w HI. simpl. exact HI. Qed.

Lemma preserves_execute I (f : D -> outcome D) :
  (forall d d', I d -> f d = Return d' -> I d') -> preserves I (execute f).
Proof. intros Hf. apply hoare_execute; auto. Qed.

Lemma preserves_connection {A} I (m : M D A) :
  preserves I m -> preserves I (connection m).
Proof.
  intros Hm w HI. unfold connection. specialize (Hm w HI).
  destruct (m w) as [w' [a|e]]; simpl; auto.
Qed.

Lemma preserves_py_get I (v : json) (key : string) (default : json) :
  preserves I (py_get v key default).
Proof. destruct v; simpl; first [apply preserves_ret | apply preserves_raise]. Qed.

End Rules.

(** ** [app.py]: the hash chain *)

Module AppFacts.
Import App.

Section WithRuntime.
Context `{Runtime}.

Lemma highest_in (bs : list block) : forall best r,
  fold_left highest bs best = Some r -> best = Some r \/ In r bs.
Proof.
  induction bs as [|b bs IH]; simpl; intros best r Hr.
  - left. exact Hr.
  - destruct (IH _ _ Hr) as [Hb | Hin]; [| right; right; exact Hin].
    destruct best as [a|]; simpl in Hb.
    + destruct (Nat.ltb (block_number a) (block_number b)).
      * right. left. congruence.
      * left. exact Hb.
    + right. left. congruence.
Qed.

Lemma numbered_index (k : nat) (bs : list block) (b : block) :
  numbered_from k bs -> In b bs ->
  exists i, nth_error bs i = Some b /\ block_number b = k + i /\ i < length bs.
Proof.
  intros Hn Hin. destruct (In_nth_error _ _ Hin) as [i Hi].
  exists i. split; [exact Hi|]. split; [apply Hn; exact Hi|].
  apply nth_error_Some. congruence.
Qed.

(** In a numbered table the newest row is the one [ORDER BY block_number
    DESC LIMIT 1] selects. *)
Lemma select_last_snoc (d : database) (bs : list block) (b : block) :
  blocks d = bs ++ [b] -> numbered_from 0 (blocks d) ->
  select_last_block d = Some b.
Proof.
  intros Hbs Hn. unfold select_last_block. rewrite Hbs in *.
  rewrite fold_left_app. simpl.
  assert (Hb : block_number b = length bs).
  { apply (Hn (length bs)). rewrite nth_error_app2 by lia.
    rewrite Nat.sub_diag. reflexivity. }
  destruct (fold_left highest bs None) as [a|] eqn:Ha; simpl; [|reflexivity].
  destruct (highest_in _ _ Ha) as [Hnone | Hin]; [discriminate|].
  destruct (In_nth_error _ _ Hin) as [i Hi].
  assert (Hlt : i < length bs) by (apply nth_error_Some; congruence).
  assert (Hnum : block_number a = i).
  { apply (Hn i). rewrite nth_error_app1 by exact Hlt. exact Hi. }
  replace (Nat.ltb (block_number a) (block_number b)) with true; [reflexivity|].
  symmetry. apply Nat.ltb_lt. lia.
Qed.

Lemma chain_last (d : database) :
  chain d ->
  exists bs last, blocks d = bs ++ [last] /\ select_last_block d = Some last.
Proof.
  intros (Hne & Hn & _).
  destruct (exists_last Hne) as (bs & last & Hbs).
  exists bs, last. split; [exact Hbs|]. eapply select_last_snoc; eauto.
Qed.

(** Appending the block built on the last one keeps the chain. *)
Lemma insert_next_block_chain (d d' : database) (last : block)
    (txs : list (list (string * json))) (ts : string) :
  chain d -> select_last_block d = Some last ->
  insert_block (next_block last txs ts) d = Return d' ->
  chain d' /\ blocks d' = blocks d ++ [next_block last txs ts].
Proof.
  intros Hc Hlast Hins.
  destruct (chain_last Hc) as (bs & last' & Hbs & Hlast').
  assert (last' = last) by congruence. subst last'.
  destruct Hc as (Hne & Hn & Hl).
  unfold insert_block in Hins.
  destruct (existsb _ (blocks d)); [discriminate|].
  destruct (existsb _ (blocks d)); [discriminate|].
  inversion Hins; subst d'; clear Hins. unfold with_blocks. simpl.
  assert (Hnum : block_number last = length bs).
  { apply (Hn (length bs)). rewrite Hbs, nth_error_app2 by lia.
    rewrite Nat.sub_diag. reflexivity. }
  assert (Hlen : length (blocks d) = S (length bs)).
  { rewrite Hbs, length_app. simpl. lia. }
  split; [|reflexivity]. unfold chain. simpl. split; [|split].
  - destruct (blocks d); discriminate.
  - intros i b Hi. destruct (Nat.lt_ge_cases i (length (blocks d))) as [Hlt | Hge].
    + rewrite nth_error_app1 in Hi by exact Hlt. apply Hn. exact Hi.
    + rewrite nth_error_app2 in Hi by exact Hge.
      destruct (i - length (blocks d)) as [|j] eqn:Hj.
      * simpl in Hi. inversion Hi; subst b. simpl. lia.
      * simpl in Hi. destruct j; discriminate.
  - intros i p b Hp Hb.
    destruct (Nat.lt_ge_cases (S i) (length (blocks d))) as [Hlt | Hge].
    + rewrite nth_error_app1 in Hb by exact Hlt.
      rewrite nth_error_app1 in Hp by lia. eapply Hl; eauto.
    + rewrite nth_error_app2 in Hb by exact Hge.
      destruct (S i - length (blocks d)) as [|j] eqn:Hj.
      * simpl in Hb. inversion Hb; subst b. simpl.
        assert (i = length bs) by lia. subst i.
        rewrite nth_error_app1 in Hp by lia.
        rewrite Hbs, nth_error_app2 in Hp by lia.
        rewrite Nat.sub_diag in Hp. simpl in Hp. congruence.
      * simpl in Hb. destruct j; discriminate.
Qed.

Lemma create_new_block_chain (txs : list (list (string * json))) :
  hoare chain (create_new_block txs)
        (fun b d => chain d /\ In b (blocks d)) chain.
Proof.
  intros w Hc.
  unfold create_new_block, append_block_after, get_last_block, bind, connection, query, now.
  simpl. destruct (select_last_block (db w)) as [last|] eqn:Hlast; simpl; [|exact Hc].
  unfold execute. simpl.
  destruct (insert_block _ (db w)) as [d'|e] eqn:Hins; simpl; [|exact Hc].
  destruct (insert_next_block_chain _ _ Hc Hlast Hins) as [Hc' Hbs].
  split; [exact Hc'|]. rewrite Hbs. apply in_or_app. right. left. reflexivity.
Qed.

Lemma create_new_block_preserves (txs : list (list (string * json))) :
  preserves chain (create_new_block txs).
Proof.
  eapply hoare_weaken with (Q' := fun b d => chain d /\ In b (blocks d));
    [apply create_new_block_chain | auto | | auto].
  intros a d [Hc _]. exact Hc.
Qed.

Lemma insert_transaction_blocks t : keeps_blocks (insert_transaction t).
Proof.
  intros d d' Hf. unfold insert_transaction in Hf.
  destruct (existsb _ _); inversion Hf; reflexivity.
Qed.

Lemma insert_carbon_credit_blocks c : keeps_blocks (insert_carbon_credit c).
Proof.
  intros d d' Hf. unfold insert_carbon_credit in Hf.
  destruct (existsb _ _); inversion Hf; reflexivity.
Qed.

Lemma insert_credit_transfer_blocks x : keeps_blocks (insert_credit_transfer x).
Proof.
  intros d d' Hf. unfold insert_credit_transfer in Hf.
  destruct (existsb _ _); inversion Hf; reflexivity.
Qed.

Lemma confirm_transaction_blocks n h : keeps_blocks (confirm_transaction n h).
Proof. intros d d' Hf. inversion Hf; reflexivity. Qed.

Lemma reassign_credit_blocks o a i : keeps_blocks (reassign_credit o a i).
Proof. intros d d' Hf. inversion Hf; reflexivity. Qed.

Lemma mark_transferred_blocks i : keeps_blocks (mark_transferred i).
Proof. intros d d' Hf. inversion Hf; reflexivity. Qed.

Lemma keeps_blocks_chain (f : database -> outcome database) :
  keeps_blocks f -> preserves chain (execute f).
Proof.
  intros Hf. apply preserves_execute. intros d d' Hc Hd.
  unfold chain. rewrite (Hf _ _ Hd). exact Hc.
Qed.

End WithRuntime.

Create HintDb blocks.

#[local] Hint Resolve insert_transaction_blocks insert_carbon_credit_blocks
  insert_credit_transfer_blocks confirm_transaction_blocks reassign_credit_blocks
  mark_transferred_blocks : blocks.

(** One step of an invariant proof over a route's code. *)
Ltac keep_step :=
  first
    [ apply preserves_ret | apply preserves_raise | apply preserves_now
    | apply preserves_new_uuid | apply preserves_query | apply preserves_py_get
    | apply create_new_block_preserves
    | apply keeps_blocks_chain; auto with blocks
    | apply preserves_connection
    | apply preserves_bind; [| intro]
    | match goal with
      | |- preserves _ (match ?x with _ => _ end) => destruct x
      end
    | progress cbv zeta ].

Section WithRuntime.
Context `{Runtime}.

Lemma create_transaction_preserves tx_type from_entity to_entity data :
  preserves chain (create_transaction tx_type from_entity to_entity data).
Proof. unfold create_transaction. repeat keep_step. Qed.

Lemma try_except_preserves {A} (I : database -> Prop) (m : M database (reply A)) :
  preserves I m -> forall w, I (db w) -> I (db (fst (try_except m w))).
Proof.
  intros Hm w HI. unfold try_except. specialize (Hm w HI).
  destruct (m w) as [w' [r|e]]; exact Hm.
Qed.

Lemma serve_chain (r : request) (w : world database) :
  chain (db w) -> chain (db (serve r w)).
Proof.
  intros Hc.
  destruct r; cbn [serve];
    [ unfold submit_verification_report
    | unfold issue_carbon_credits
    | unfold transfer_carbon_credits ];
    apply try_except_preserves; try exact Hc;
    repeat first [apply create_transaction_preserves | keep_step].
Qed.

Lemma started_chain : chain (db started).
Proof.
  unfold started, chain. simpl. split; [discriminate|]. split.
  - intros [|[|i]] b Hi; simpl in Hi; try discriminate.
    inversion Hi. reflexivity.
  - intros [|i] p b Hp Hb; simpl in Hb; discriminate.
Qed.

Lemma reachable_chain (w : world database) : reachable w -> chain (db w).
Proof.
  induction 1 as [|w r _ IH]; [apply started_chain | apply serve_chain; exact IH].
Qed.

Lemma numbered_find (bs : list block) : forall k i b,
  numbered_from k bs -> nth_error bs i = Some b ->
  find (fun x => Nat.eqb (block_number x) (k + i)) bs = Some b.
Proof.
  induction bs as [|x bs IH]; intros k i b Hn Hi.
  - destruct i; discriminate.
  - simpl. assert (Hx : block_number x = k) by (rewrite (Hn 0 x eq_refl); lia).
    destruct i as [|i]; simpl in Hi.
    + inversion Hi; subst x. rewrite Hx, Nat.add_0_r, Nat.eqb_refl. reflexivity.
    + replace (Nat.eqb (block_number x) (k + S i)) with false
        by (symmetry; apply Nat.eqb_neq; lia).
      replace (k + S i) with (S k + i) by lia. apply IH; [|exact Hi].
      intros j c Hj. rewrite (Hn (S j) c Hj). lia.
Qed.

(** C1. In every world reached from the genesis block by serving
    submissions, issuances and transfers, a stored block with number n > 0
    names as its previous hash the hash of the block with number n - 1, and
    that block is the only one with this number. *)
Theorem previous_hash_is_hash_of_predecessor (w : world database) (b : block) :
  reachable w -> In b (blocks (db w)) -> 0 < block_number b ->
  exists p,
    block_at (block_number b - 1) (db w) = Some p /\
    previous_hash b = block_hash p /\
    forall p', In p' (blocks (db w)) -> block_number p' = block_number b - 1 -> p' = p.
Proof.
  intros Hr Hin Hpos. destruct (reachable_chain Hr) as (_ & Hn & Hl).
  destruct (numbered_index b Hn Hin) as (i & Hi & Hnum & Hlt). simpl in Hnum.
  destruct i as [|j]; [lia|].
  destruct (nth_error (blocks (db w)) j) as [p|] eqn:Hp;
    [| apply nth_error_None in Hp; lia].
  exists p. replace (block_number b - 1) with j by lia. split; [|split].
  - apply (numbered_find (k := 0) j Hn Hp).
  - eapply Hl; eauto.
  - intros p' Hin' Hnum'.
    destruct (numbered_index p' Hn Hin') as (i' & Hi' & Hnum'' & _). simpl in Hnum''.
    assert (i' = j) by lia. subst i'. congruence.
Qed.

Lemma run_reachable (requests : list request) : reachable (run requests).
Proof.
  unfold run. generalize started reachable_start.
  induction requests as [|r rs IH]; intros w Hw; simpl; [exact Hw|].
  apply IH. apply reachable_serve. exact Hw.
Qed.

End WithRuntime.

(** The block appended by a first submission names the genesis hash. *)
Lemma previous_hash_is_hash_of_predecessor_witness :
  exists p,
    block_at (block_number (Concrete.newest_block Concrete.after_submission) - 1)
             (db Concrete.after_submission) = Some p /\
    previous_hash (Concrete.newest_block Concrete.after_submission) = block_hash p /\
    forall p', In p' (blocks (db Concrete.after_submission)) ->
      block_number p' = block_number (Concrete.newest_block Concrete.after_submission) - 1 ->
      p' = p.
Proof.
  apply (@previous_hash_is_hash_of_predecessor Concrete.runtime
           Concrete.after_submission (Concrete.newest_block Concrete.after_submission)).
  - apply run_reachable.
  - vm_compute. right. left. reflexivity.
  - vm_compute. lia.
Defined.

End AppFacts.

(** ** Runs that return

    What a computation that returned must have done, step by step. *)

Section Runs.
Context `{Runtime} {D : Type}.

Lemma bind_returns {A B} (m : M D A) (k : A -> M D B) (w w' : world D) (b : B) :
  bind m k w = (w', Return b) ->
  exists a w1, m w = (w1, Return a) /\ k a w1 = (w', Return b).
Proof.
  unfold bind. destruct (m w) as [w1 [a|e]]; intros Hk; [|discriminate].
  exists a, w1. split; [reflexivity | exact Hk].
Qed.

Lemma connection_returns {A} (m : M D A) (w w' : world D) (a : A) :
  connection m w = (w', Return a) -> m w = (w', Return a).
Proof.
  unfold connection. destruct (m w) as [w1 [x|e]]; intros Hm; [exact Hm | discriminate].
Qed.

Lemma execute_returns (f : D -> outcome D) (w w' : world D) (u : unit) :
  execute f w = (w', Return u) ->
  exists d, f (db w) = Return d /\ w' = World d (clock w) (draws w).
Proof.
  unfold execute. destruct (f (db w)) as [d|e]; intros Hf; [|discriminate].
  exists d. split; [reflexivity|]. congruence.
Qed.

Lemma query_returns {A} (f : D -> A) (w w' : world D) (a : A) :
  query f w = (w', Return a) -> w' = w /\ a = f (db w).
Proof. unfold query. intros Hq. split; congruence. Qed.

Lemma now_returns (w w' : world D) (ts : string) :
  now w = (w', Return ts) ->
  w' = World (db w) (S (clock w)) (draws w) /\ ts = isoformat_now (clock w).
Proof. unfold now. intros Hn. split; congruence. Qed.

Lemma new_uuid_returns (w w' : world D) (u : string) :
  new_uuid w = (w', Return u) ->
  w' = World (db w) (clock w) (S (draws w)) /\ u = uuid4 (draws w).
Proof. unfold new_uuid. intros Hn. split; congruence. Qed.

Lemma ret_returns {A} (a b : A) (w w' : world D) :
  ret a w = (w', Return b) -> w' = w /\ b = a.
Proof. unfold ret. intros Hr. split; congruence. Qed.

Lemma py_get_returns (v : json) (key : string) (default x : json) (w w' : world D) :
  py_get v key default w = (w', Return x) ->
  w' = w /\ exists members, v = JObj members /\
    x = match dict_get key members with Some y => y | None => default end.
Proof.
  destruct v; simpl; unfold raise, ret; intros Hg; try discriminate.
  split; [congruence|]. exists members. split; [reflexivity | congruence].
Qed.

Lemma rewrap_returns {A} (what : string) (m : M D A) (w w' : world D) (a : A) :
  rewrap what m w = (w', Return a) -> m w = (w', Return a).
Proof.
  unfold rewrap. destruct (m w) as [w1 [x|e]]; intros Hm; [exact Hm | discriminate].
Qed.

Lemma lift_returns {A} (o : outcome A) (w w' : world D) (a : A) :
  lift o w = (w', Return a) -> w' = w /\ o = Return a.
Proof. unfold lift. intros Hl. split; congruence. Qed.

End Runs.

(** Take apart a hypothesis [H : m w = (w', Return a)] along the code of [m]. *)
Ltac returned H :=
  cbv zeta in H; cbn [db clock draws] in H;
  lazymatch type of H with
  | bind _ _ _ = (_, Return _) =>
      let a := fresh "a" in
      let w1 := fresh "w" in
      let H1 := fresh "Hm" in
      let H2 := fresh "Hk" in
      apply bind_returns in H; destruct H as (a & w1 & H1 & H2);
      returned H1; returned H2
  | connection _ _ = (_, Return _) => apply connection_returns in H; returned H
  | execute _ _ = (_, Return _) =>
      let d := fresh "d" in
      let Hf := fresh "Hf" in
      let Hw := fresh "Hw" in
      apply execute_returns in H; destruct H as (d & Hf & Hw); subst
  | query _ _ = (_, Return _) =>
      let Hw := fresh "Hw" in
      let Ha := fresh "Ha" in
      apply query_returns in H; destruct H as (Hw & Ha); subst
  | now _ = (_, Return _) =>
      let Hw := fresh "Hw" in
      let Ha := fresh "Ha" in
      apply now_returns in H; destruct H as (Hw & Ha); subst
  | new_uuid _ = (_, Return _) =>
      let Hw := fresh "Hw" in
      let Ha := fresh "Ha" in
      apply new_uuid_returns in H; destruct H as (Hw & Ha); subst
  | ret _ _ = (_, Return _) =>
      let Hw := fresh "Hw" in
      let Ha := fresh "Ha" in
      apply ret_returns in H; destruct H as (Hw & Ha);
      first [discriminate Ha | subst]
  | raise _ _ = (_, Return _) => discriminate H
  | rewrap _ _ _ = (_, Return _) => apply rewrap_returns in H; returned H
  | lift _ _ = (_, Return _) =>
      let Hw := fresh "Hw" in
      let Ha := fresh "Ha" in
      apply lift_returns in H; destruct H as (Hw & Ha); subst
  | (match ?x with _ => _ end) _ = (_, Return _) =>
      let Hx := fresh "Hx" in
      destruct x eqn:Hx; returned H
  | _ => idtac
  end.

(** ** [app.py]: genesis, and the credits under transfer *)

Module AppCredits.
Import App.

Section WithRuntime.
Context `{Runtime}.

(** C2. After [init_database] has run on a new database file, and before any
    request is served, the store holds exactly one block, the genesis block:
    its number is 0, its previous hash is the sentinel "0" and it counts zero
    transactions; no transaction, credit or transfer row exists. *)
Theorem fresh_store_holds_only_genesis :
  init_database fresh = (started, Return tt) /\
  exists genesis,
    blocks (db started) = [genesis] /\
    block_number genesis = 0 /\
    previous_hash genesis = "0" /\
    transactions_count genesis = 0 /\
    transactions (db started) = [] /\
    carbon_credits (db started) = [] /\
    credit_transfers (db started) = [].
Proof.
  split; [reflexivity|]. eexists. unfold started. simpl.
  repeat split; reflexivity.
Qed.

Lemma try_except_OK {A} (m : M database (reply A)) (w w' : world database) (a : A) :
  try_except m w = (w', OK a) -> m w = (w', Return (OK a)).
Proof.
  unfold try_except. destruct (m w) as [w1 [r|e]]; intros Hm; congruence.
Qed.

Lemma create_transaction_returns tx_type from_entity to_entity data w w' h :
  create_transaction tx_type from_entity to_entity data w = (w', Return h) ->
  blocks (db w') = blocks (db w) /\
  carbon_credits (db w') = carbon_credits (db w) /\
  credit_transfers (db w') = credit_transfers (db w) /\
  exists row,
    transactions (db w') = transactions (db w) ++ [row] /\
    tx_hash row = h /\ tx_status row = "pending" /\ tx_block_number row = None.
Proof.
  intros Hrun. unfold create_transaction in Hrun. returned Hrun.
  unfold insert_transaction in Hf. simpl in Hf.
  destruct (existsb _ _); [discriminate|]. inversion Hf; subst; clear Hf. simpl.
  repeat split. eexists. repeat split.
Qed.

Lemma create_new_block_returns txs w w' b :
  create_new_block txs w = (w', Return b) ->
  In b (blocks (db w')) /\
  blocks (db w') = blocks (db w) ++ [b] /\
  transactions (db w') = transactions (db w) /\
  carbon_credits (db w') = carbon_credits (db w) /\
  credit_transfers (db w') = credit_transfers (db w).
Proof.
  intros Hrun. unfold create_new_block, get_last_block in Hrun. returned Hrun.
  match goal with
  | Ha : append_block_after _ _ _ = _ |- _ => unfold append_block_after in Ha; returned Ha
  end.
  unfold insert_block in Hf. simpl in Hf.
  destruct (existsb _ _); [discriminate|].
  destruct (existsb _ _); [discriminate|].
  inversion Hf; subst; clear Hf. simpl.
  repeat split. apply in_or_app. right. left. reflexivity.
Qed.

Lemma find_map_same_key {A} (key : A -> string) (f : A -> A) (id : string) (l : list A) :
  (forall x, key (f x) = key x) ->
  find (fun x => String.eqb (key x) id) (map f l) =
  option_map f (find (fun x => String.eqb (key x) id) l).
Proof.
  intros Hkey. induction l as [|x l IH]; simpl; [reflexivity|].
  rewrite Hkey. destruct (String.eqb (key x) id); [reflexivity | exact IH].
Qed.

(** The first row with the given id, when it is active, is the row that the
    transfer route selects. *)
Lemma active_credit_is_selected (id : string) (d : database) (c : carbon_credit) :
  credit_by_id id d = Some c -> status c = "active" ->
  select_active_credit id d = Some c.
Proof.
  unfold credit_by_id, select_active_credit. intros Hfind Hactive.
  induction (carbon_credits d) as [|x l IH]; simpl in *; [discriminate|].
  destruct (String.eqb (credit_id x) id) eqn:Hid; simpl.
  - inversion Hfind; subst x. rewrite Hactive. reflexivity.
  - apply IH. exact Hfind.
Qed.

(** [app.py] compares owners. For every stored active credit and every
    transfer request whose [from_owner] differs from the credit's current
    owner, the request is refused with the ownership error (403) before any
    mutation: the world, clock and UUID draws included, is unchanged. *)
Theorem transfer_by_non_owner_is_refused (w : world database)
    (credit_id from_owner to_owner : string) (credits_amount transfer_price : Q)
    (credit : carbon_credit) :
  credit_by_id credit_id (db w) = Some credit ->
  status credit = "active" ->
  owner_id credit <> from_owner ->
  transfer_carbon_credits credit_id from_owner to_owner credits_amount transfer_price w
  = (w, OwnedBy (owner_id credit) from_owner).
Proof.
  intros Hstored Hactive Howner.
  unfold transfer_carbon_credits, try_except, bind, connection, query. simpl.
  rewrite (active_credit_is_selected _ _ Hstored Hactive).
  apply String.eqb_neq in Howner. rewrite Howner. simpl.
  destruct w; reflexivity.
Qed.

(** [app.py]. When a transfer of [credits_amount] from an active credit with
    balance b succeeds, the credit's owner is [to_owner], whatever part of the
    balance was moved, its amount is b - [credits_amount], and its status is
    'transferred' exactly when that difference is zero. *)
Theorem successful_transfer_updates_credit (w w' : world database)
    (credit_id from_owner to_owner : string) (credits_amount transfer_price : Q)
    (credit : carbon_credit) (receipt : transfer) :
  credit_by_id credit_id (db w) = Some credit ->
  status credit = "active" ->
  transfer_carbon_credits credit_id from_owner to_owner credits_amount transfer_price w
  = (w', OK receipt) ->
  owner_id credit = from_owner /\
  (credits_amount <= App.credits_amount credit)%Q /\
  exists credit',
    credit_by_id credit_id (db w') = Some credit' /\
    owner_id credit' = to_owner /\
    App.credits_amount credit' = (App.credits_amount credit - credits_amount)%Q /\
    (status credit' = "transferred" <->
     (App.credits_amount credit - credits_amount == 0)%Q).
Proof.
  intros Hstored Hactive Hrun.
  apply try_except_OK in Hrun. unfold transfer_carbon_credits in Hrun.
  returned Hrun.
  match goal with
  | Hc : select_active_credit _ _ = Some ?selected |- _ =>
      rewrite (active_credit_is_selected _ _ Hstored Hactive) in Hc;
      injection Hc as Hc; subst selected
  end.
  match goal with
  | Hc : create_transaction _ _ _ _ _ = _ |- _ =>
      apply create_transaction_returns in Hc; destruct Hc as (_ & Hcredits & _)
  end.
  match goal with
  | Hb : create_new_block _ _ = _ |- _ =>
      apply create_new_block_returns in Hb; destruct Hb as (_ & _ & _ & Hcredits' & _)
  end.
  repeat match goal with
  | Hf : insert_credit_transfer _ _ = Return _ |- _ =>
      unfold insert_credit_transfer in Hf;
      destruct (existsb _ _); [discriminate|]; inversion Hf; subst; clear Hf
  | Hf : reassign_credit _ _ _ _ = Return _ |- _ =>
      unfold reassign_credit in Hf; inversion Hf; subst; clear Hf
  | Hf : mark_transferred _ _ = Return _ |- _ =>
      unfold mark_transferred in Hf; inversion Hf; subst; clear Hf
  | Hf : confirm_transaction _ _ _ = Return _ |- _ =>
      unfold confirm_transaction in Hf; inversion Hf; subst; clear Hf
  end.
  simpl in *.
  match goal with
  | Ho : negb (String.eqb _ _) = false, Hq : Qltb _ _ = false |- _ =>
      rename Ho into Howner; rename Hq into Henough
  end.
  split.
  { apply negb_false_iff in Howner. apply String.eqb_eq. exact Howner. }
  split.
  { unfold Qltb in Henough. apply Z.ltb_ge in Henough. unfold Qle. lia. }
  unfold credit_by_id in *. simpl. rewrite Hcredits'. simpl.
  rewrite map_map, find_map_same_key.
  2:{ intros x. destruct (String.eqb (App.credit_id x) credit_id); simpl;
      [destruct (_ && _)|destruct (_ && _)]; reflexivity. }
  rewrite Hcredits, Hstored. simpl.
  destruct (find_some _ _ Hstored) as [_ Hid]. rewrite Hid. simpl. rewrite Hid. simpl.
  eexists. split; [reflexivity|].
  destruct (Qeq_bool (App.credits_amount credit - credits_amount) 0) eqn:Hzero; simpl.
  - repeat split; auto. intros _. apply Qeq_bool_iff. exact Hzero.
  - repeat split; auto.
    + intros Hs. rewrite Hactive in Hs. discriminate.
    + intros Hq. apply Qeq_bool_iff in Hq. congruence.
Qed.

End WithRuntime.

(** companyB, a stranger to the credit ngoA holds, asks to move it. *)
Lemma transfer_by_non_owner_is_refused_witness :
  @transfer_carbon_credits Concrete.runtime Concrete.issued_credit_id
    "companyB" "companyC" 5 15 Concrete.after_issuance
  = (Concrete.after_issuance,
     OwnedBy (owner_id (Concrete.stored_credit Concrete.after_issuance)) "companyB").
Proof.
  apply (@transfer_by_non_owner_is_refused Concrete.runtime).
  - vm_compute. reflexivity.
  - vm_compute. reflexivity.
  - vm_compute. discriminate.
Defined.

(** [app.py] looks for active credits only: once
    ngoA has sold the whole credit to companyB, a request in the name of ngoA,
    who is not the owner, is answered "not found or inactive" (404), not with
    the ownership error (403). *)
Lemma transfer_of_inactive_credit_reports_not_found :
  exists credit,
    credit_by_id Concrete.issued_credit_id (db Concrete.after_full_transfer) = Some credit /\
    status credit = "transferred" /\
    owner_id credit = "companyB" /\
    owner_id credit <> "ngoA" /\
    @transfer_carbon_credits Concrete.runtime Concrete.issued_credit_id
      "ngoA" "companyC" 5 15 Concrete.after_full_transfer
    = (Concrete.after_full_transfer, CreditNotFoundOrInactive) /\
    @transfer_carbon_credits Concrete.runtime Concrete.issued_credit_id
      "ngoA" "companyC" 5 15 Concrete.after_full_transfer
    <> (Concrete.after_full_transfer, OwnedBy (owner_id credit) "ngoA").
Proof.
  eexists. split; [vm_compute; reflexivity|].
  split; [reflexivity|]. split; [reflexivity|].
  split; [discriminate|].
  split; [vm_compute; reflexivity | vm_compute; discriminate].
Qed.

(** ngoA moves four of its ten credits to companyB. *)
Lemma successful_transfer_updates_credit_witness :
  let credit := Concrete.stored_credit Concrete.after_issuance in
  let result :=
    @transfer_carbon_credits Concrete.runtime Concrete.issued_credit_id
      "ngoA" "companyB" 4 15 Concrete.after_issuance in
  owner_id credit = "ngoA" /\
  (4 <= credits_amount credit)%Q /\
  exists credit',
    credit_by_id Concrete.issued_credit_id (db (fst result)) = Some credit' /\
    owner_id credit' = "companyB" /\
    credits_amount credit' = (credits_amount credit - 4)%Q /\
    (status credit' = "transferred" <-> (credits_amount credit - 4 == 0)%Q).
Proof.
  intros credit result.
  apply (@successful_transfer_updates_credit Concrete.runtime
           Concrete.after_issuance (fst result) Concrete.issued_credit_id
           "ngoA" "companyB" 4 15 credit
           (Concrete.body (snd result) Concrete.no_transfer)).
  - vm_compute. reflexivity.
  - vm_compute. reflexivity.
  - vm_compute. reflexivity.
Defined.

End AppCredits.

(** ** [blockchain_api.py] *)

Module SimulatorFacts.
Import Simulator.

Section WithRuntime.
Context `{Runtime}.



Lemma highest_number (bs : list block) : forall a r,
  fold_left highest bs (Some a) = Some r ->
  block_number r = fold_left (fun m b => Nat.max m (block_number b)) bs (block_number a).
Proof.
  induction bs as [|b bs IH]; simpl; intros a r Hr.
  - congruence.
  - destruct (Nat.ltb (block_number a) (block_number b)) eqn:Hlt.
    + rewrite (IH _ _ Hr). f_equal. apply Nat.ltb_lt in Hlt. lia.
    + rewrite (IH _ _ Hr). f_equal. apply Nat.ltb_ge in Hlt. lia.
Qed.

(** The number the code computes for the new block is the number SQLite
    assigns to it. *)
Lemma next_number_is_assigned (d : database) :
  match select_latest_block d with
  | Some b => block_number b + 1
  | None => 1
  end = S (max_block_number (blocks d)).
Proof.
  unfold select_latest_block, max_block_number.
  destruct (blocks d) as [|b bs]; simpl; [reflexivity|].
  destruct (fold_left highest bs (Some b)) as [r|] eqn:Hr.
  - rewrite (highest_number _ _ Hr). lia.
  - exfalso. clear -Hr. revert b Hr.
    induction bs as [|x bs IH]; simpl; intros b Hr; [discriminate|].
    destruct (Nat.ltb _ _); eapply IH; exact Hr.
Qed.

Lemma max_block_number_bounds (bs : list block) : forall m b,
  In b bs -> block_number b <= fold_left (fun m b => Nat.max m (block_number b)) bs m.
Proof.
  induction bs as [|x bs IH]; simpl; intros m b Hin; [contradiction|].
  destruct Hin as [-> | Hin].
  - clear IH. generalize (Nat.max m (block_number b)) (Nat.le_max_r m (block_number b)).
    induction bs as [|y bs IH]; simpl; intros k Hk; [exact Hk|].
    apply IH. lia.
  - apply IH. exact Hin.
Qed.

Lemma flat_map_nothing {A B} (f : A -> list B) (l : list A) :
  (forall x, In x l -> f x = []) -> flat_map f l = [].
Proof.
  induction l as [|x l IH]; simpl; intros Hf; [reflexivity|].
  rewrite (Hf x (or_introl eq_refl)). apply IH. intros y Hy. apply Hf. right. exact Hy.
Qed.

Lemma flat_map_last {A B} (f : A -> list B) (l : list A) (x : A) :
  (forall y, In y l -> f y = []) -> flat_map f (l ++ [x]) = f x.
Proof.
  intros Hf. rewrite flat_map_app, (flat_map_nothing _ _ Hf). simpl.
  apply app_nil_r.
Qed.

Lemma existsb_false_eqb {A} (key : A -> string) (id : string) (l : list A) (x : A) :
  existsb (fun y => String.eqb (key y) id) l = false -> In x l ->
  String.eqb (key x) id = false.
Proof.
  intros Hex Hin. destruct (String.eqb (key x) id) eqn:Heq; [|reflexivity].
  rewrite <- Hex. symmetry. apply existsb_exists. exists x. auto.
Qed.

(** The join of [query_report] finds the rows a submission has just written. *)
Lemma select_new_report (bs : list block) (ts : list transaction)
    (rs : list verification_report) (cs : list carbon_credit)
    (b : block) (t : transaction) (r : verification_report) :
  existsb (fun x => String.eqb (report_id x) (report_id r)) rs = false ->
  existsb (fun x => String.eqb (transaction_id x) (transaction_id t)) ts = false ->
  report_transaction_id r = transaction_id t ->
  tx_block_number t = block_number b ->
  block_number b = S (max_block_number bs) ->
  select_report (report_id r) (Database (bs ++ [b]) (ts ++ [t]) (rs ++ [r]) cs)
  = Some (r, t, b).
Proof.
  intros Hr Ht Hrt Htb Hb. unfold select_report. simpl.
  rewrite flat_map_last.
  2:{ intros y Hy. rewrite (existsb_false_eqb _ _ _ _ Hr Hy). reflexivity. }
  rewrite String.eqb_refl. rewrite flat_map_last.
  2:{ intros y Hy. rewrite Hrt, String.eqb_sym.
      rewrite (existsb_false_eqb _ _ _ _ Ht Hy). reflexivity. }
  rewrite Hrt, String.eqb_refl. rewrite flat_map_last.
  2:{ intros y Hy. rewrite Htb.
      replace (Nat.eqb (block_number b) (block_number y)) with false; [reflexivity|].
      symmetry. apply Nat.eqb_neq.
      pose proof (max_block_number_bounds bs 0 y Hy) as Hmax.
      unfold max_block_number in Hb. lia. }
  rewrite Htb, Nat.eqb_refl. reflexivity.
Qed.

(** C8. When a submission returns, the report read back under the returned
    id carries a payload equal to the one submitted, provided the payload
    survives [json.loads(json.dumps(...))]; the canonical hash recomputed from
    the payload read back is the hash stored with the report, which is the
    hash the submission returned. *)
Theorem submitted_report_reads_back (w w' : world database)
    (ngo_id project_id : string) (payload : json) (receipt : submission) :
  json_loads (json_dumps false payload) = Some payload ->
  submit_verification_report ngo_id project_id payload w = (w', Return receipt) ->
  exists view,
    query_report (submitted_report_id receipt) w' = (w', Return (Some view)) /\
    view_verification_data view = payload /\
    _calculate_hash (view_verification_data view)
      = Return (report_data_hash (view_report view)) /\
    report_data_hash (view_report view) = submitted_data_hash receipt /\
    report_id (view_report view) = submitted_report_id receipt /\
    ngo_id = Simulator.ngo_id (view_report view) /\
    project_id = Simulator.project_id (view_report view).
Proof.
  intros Hrep Hrun. unfold submit_verification_report in Hrun. returned Hrun.
  repeat match goal with
  | Hg : _get_latest_block _ = (_, Return _) |- _ =>
      unfold _get_latest_block in Hg; returned Hg
  | Hg : py_get _ _ _ _ = (_, Return _) |- _ =>
      apply py_get_returns in Hg; destruct Hg as (-> & _)
  end.
  cbn [db clock draws] in *.
  match goal with
  | Hf : insert_block _ _ _ _ _ _ = Return _ |- _ =>
      unfold insert_block in Hf;
      destruct (existsb _ _) eqn:Hblock in Hf; [discriminate|];
      injection Hf as Hf; subst
  end.
  match goal with
  | Hf : insert_transaction _ _ = Return _ |- _ =>
      unfold insert_transaction in Hf; cbn [transactions transaction_id] in Hf;
      destruct (existsb _ _) eqn:Htx in Hf; [discriminate|];
      injection Hf as Hf; subst
  end.
  match goal with
  | Hf : insert_verification_report _ _ = Return _ |- _ =>
      unfold insert_verification_report in Hf;
      destruct (negb _) in Hf; [discriminate|];
      cbn [verification_reports report_id] in Hf;
      destruct (existsb _ _) eqn:Hreport in Hf; [discriminate|];
      injection Hf as Hf; subst
  end.
  cbn [blocks transactions verification_reports carbon_credits] in *.
  unfold query_report, rewrap, connection, bind, query.
  cbn [db clock draws submitted_report_id].
  match goal with
  | |- context [select_report _ (Database (?bs ++ [?b]) (?ts ++ [?t]) (?rs ++ [?r]) ?cs)] =>
      pose proof (@select_new_report bs ts rs cs b t r Hreport Htx eq_refl
                    (next_number_is_assigned (db w0)) eq_refl) as Hsel
  end.
  cbn [report_id] in Hsel. rewrite Hsel.
  cbn [verification_data]. rewrite Hrep.
  eexists. split; [reflexivity|].
  cbn [view_verification_data view_report report_data_hash submitted_data_hash
       report_id Simulator.ngo_id Simulator.project_id].
  repeat split; try reflexivity. assumption.
Qed.

(** Every method writes inside one connection, as its last step: a call
    that raises leaves the database as it was. *)
Ltac unchanged_on_raise :=
  unfold rewrap, bind, new_uuid, now, _get_latest_block, connection, query,
    subscript, lift, execute, ret, raise;
  cbn [db clock draws];
  repeat match goal with
  | |- context [match ?x with _ => _ end] =>
      lazymatch x with
      | context [match _ with _ => _ end] => fail
      | _ => destruct x; cbn [db clock draws]
      end
  end;
  intros Hrun; inversion Hrun; reflexivity.

Lemma issue_carbon_credits_is_atomic ngo_id report_id amount price w w' e :
  issue_carbon_credits ngo_id report_id amount price w = (w', Raise e) ->
  db w' = db w.
Proof. unfold issue_carbon_credits. unchanged_on_raise. Qed.

(** A submission first makes sure that the genesis block exists, in a
    connection of its own; what it writes after that is one unit. *)
Lemma submit_verification_report_is_atomic ngo_id project_id payload w w' e :
  submit_verification_report ngo_id project_id payload w = (w', Raise e) ->
  db w' = db (fst (_create_genesis_block w)).
Proof.
  unfold submit_verification_report, py_get. unchanged_on_raise.
Qed.

Lemma transfer_credits_is_atomic credit_id from_ngo to_company amount w w' e :
  transfer_credits credit_id from_ngo to_company amount w = (w', Raise e) ->
  db w' = db w.
Proof. unfold transfer_credits. unchanged_on_raise. Qed.

(** Issuance never reads the reports: put any rows in [verification_reports]
    and the call does the same, leaving those rows as they are. *)
Lemma issuance_ignores_reports ngo_id report_id amount price
    (rs : list verification_report) (w : world database) :
  issue_carbon_credits ngo_id report_id amount price (with_reports rs w)
  = (with_reports rs (fst (issue_carbon_credits ngo_id report_id amount price w)),
     snd (issue_carbon_credits ngo_id report_id amount price w)).
Proof.
  unfold issue_carbon_credits, rewrap, bind, new_uuid, now, _get_latest_block,
    connection, query, subscript, lift, execute, ret, raise, with_reports,
    select_latest_block.
  cbn [db clock draws blocks].
  destruct (fold_left highest (blocks (db w)) None) as [latest|];
    cbn [fst snd db clock draws]; [|reflexivity].
  unfold insert_block, insert_transaction, insert_carbon_credit.
  cbn [blocks transactions carbon_credits verification_reports _calculate_hash
       block_data].
  destruct (existsb _ (blocks (db w))); cbn [fst snd db clock draws];
    [reflexivity|].
  cbn [blocks transactions carbon_credits verification_reports].
  destruct (existsb _ (transactions (db w))); cbn [fst snd db clock draws];
    [reflexivity|].
  cbn [blocks transactions carbon_credits verification_reports].
  destruct (existsb _ (carbon_credits (db w))); cbn [fst snd db clock draws];
    reflexivity.
Qed.

(** The genesis block of this service is the first row of an
    [AUTOINCREMENT] table: its number is 1. *)
Lemma simulator_genesis_is_numbered_one :
  exists genesis,
    blocks (db (fst (_create_genesis_block fresh))) = [genesis] /\
    block_number genesis = 1 /\
    previous_hash genesis = "0" /\
    transaction_count genesis = 0.
Proof. eexists. repeat split. Qed.

(** *** The hash chain of this service *)

Lemma latest_in (bs : list block) : forall best r,
  fold_left highest bs best = Some r -> best = Some r \/ In r bs.
Proof.
  induction bs as [|b bs IH]; simpl; intros best r Hr.
  - left. exact Hr.
  - destruct (IH _ _ Hr) as [Hb | Hin]; [| right; right; exact Hin].
    destruct best as [a|]; simpl in Hb.
    + destruct (Nat.ltb (block_number a) (block_number b)).
      * right. left. congruence.
      * left. exact Hb.
    + right. left. congruence.
Qed.

Lemma latest_of_numbered (k : nat) (bs : list block) (b : block) :
  numbered_from k (bs ++ [b]) ->
  fold_left highest (bs ++ [b]) None = Some b.
Proof.
  intros Hn. rewrite fold_left_app. simpl.
  assert (Hb : block_number b = k + length bs).
  { apply (Hn (length bs)). rewrite nth_error_app2 by lia.
    rewrite Nat.sub_diag. reflexivity. }
  destruct (fold_left highest bs None) as [a|] eqn:Ha; simpl; [|reflexivity].
  destruct (latest_in _ _ Ha) as [Hnone | Hin]; [discriminate|].
  destruct (In_nth_error _ _ Hin) as [i Hi].
  assert (Hlt : i < length bs) by (apply nth_error_Some; congruence).
  assert (Hnum : block_number a = k + i).
  { apply (Hn i). rewrite nth_error_app1 by exact Hlt. exact Hi. }
  replace (Nat.ltb (block_number a) (block_number b)) with true; [reflexivity|].
  symmetry. apply Nat.ltb_lt. lia.
Qed.

Lemma no_latest_no_blocks (d : database) :
  select_latest_block d = None -> blocks d = [].
Proof.
  unfold select_latest_block. destruct (blocks d) as [|b bs]; [reflexivity|].
  simpl. intros Hnone. exfalso. revert b Hnone.
  induction bs as [|x bs IH]; simpl; intros b Hnone; [discriminate|].
  destruct (Nat.ltb _ _); eapply IH; exact Hnone.
Qed.

(** The inserted row, as [insert_block] builds it. *)
Lemma insert_block_appends h p ts mr n d d' :
  insert_block h p ts mr n d = Return d' ->
  blocks d' = blocks d ++ [Block (S (max_block_number (blocks d))) h p ts mr n] /\
  transactions d' = transactions d /\
  verification_reports d' = verification_reports d /\
  carbon_credits d' = carbon_credits d.
Proof.
  unfold insert_block. destruct (existsb _ _); [discriminate|].
  intros Hd. inversion Hd. repeat split.
Qed.

Lemma append_keeps_chain (d : database) (b : block) :
  chain d ->
  block_number b = S (max_block_number (blocks d)) ->
  previous_hash b =
    match select_latest_block d with Some l => block_hash l | None => "0" end ->
  numbered_from 1 (blocks d ++ [b]) /\ linked (blocks d ++ [b]) /\
  forall g, nth_error (blocks d ++ [b]) 0 = Some g -> previous_hash g = "0".
Proof.
  intros (Hn & Hl & Hg) Hnum Hprev.
  pose proof (next_number_is_assigned d) as Hnext. rewrite <- Hnum in Hnext.
  destruct (blocks d) as [|x l] eqn:Hbs using rev_ind.
  - (* the table was empty: the new block is the genesis block *)
    assert (Hnone : select_latest_block d = None)
      by (unfold select_latest_block; rewrite Hbs; reflexivity).
    rewrite Hnone in Hprev, Hnext. simpl. split; [|split].
    + intros [|i] g Hi; simpl in Hi; [| destruct i; discriminate].
      inversion Hi; subst g. lia.
    + intros [|i] p g Hp Hi; simpl in Hi; discriminate.
    + intros g Hi. inversion Hi; subst g. exact Hprev.
  - clear IHl.
    assert (Hlatest : select_latest_block d = Some x).
    { unfold select_latest_block. rewrite Hbs. eapply latest_of_numbered. exact Hn. }
    rewrite Hlatest in Hprev, Hnext.
    assert (Hx : block_number x = 1 + length l).
    { apply (Hn (length l)). rewrite nth_error_app2 by lia.
      rewrite Nat.sub_diag. reflexivity. }
    assert (Hlen : length (l ++ [x]) = S (length l))
      by (rewrite length_app; simpl; lia).
    split; [|split].
    + intros i g Hi.
      destruct (Nat.lt_ge_cases i (length (l ++ [x]))) as [Hlt | Hge].
      * rewrite nth_error_app1 in Hi by exact Hlt. apply Hn. exact Hi.
      * rewrite nth_error_app2 in Hi by exact Hge.
        destruct (i - length (l ++ [x])) as [|j] eqn:Hj; simpl in Hi.
        -- inversion Hi; subst g. lia.
        -- destruct j; discriminate.
    + intros i p g Hp Hi.
      destruct (Nat.lt_ge_cases (S i) (length (l ++ [x]))) as [Hlt | Hge].
      * rewrite nth_error_app1 in Hi by exact Hlt.
        rewrite nth_error_app1 in Hp by lia. eapply Hl; eauto.
      * rewrite nth_error_app2 in Hi by exact Hge.
        destruct (S i - length (l ++ [x])) as [|j] eqn:Hj; simpl in Hi.
        -- inversion Hi; subst g.
           assert (i = length l) by lia. subst i.
           rewrite nth_error_app1 in Hp by lia.
           rewrite nth_error_app2 in Hp by lia.
           rewrite Nat.sub_diag in Hp. simpl in Hp. congruence.
        -- destruct j; discriminate.
    + intros g Hi. apply Hg.
      rewrite nth_error_app1 in Hi; [exact Hi|]. rewrite Hlen. lia.
Qed.

(** A returning insert whose previous hash is that of the latest block (or
    the sentinel when there is none) keeps the chain. *)
Lemma insert_block_chain h ts mr n d d' :
  chain d ->
  insert_block h
    match select_latest_block d with Some l => block_hash l | None => "0" end
    ts mr n d = Return d' ->
  chain d'.
Proof.
  intros Hc Hd. destruct (insert_block_appends _ _ _ _ _ _ Hd) as (Hbs & _).
  unfold chain. rewrite Hbs. apply append_keeps_chain; [exact Hc | reflexivity ..].
Qed.

Lemma same_blocks_chain (d d' : database) :
  blocks d' = blocks d -> chain d -> chain d'.
Proof. unfold chain. intros ->. auto. Qed.

Lemma transaction_insert_keeps_blocks t d d' :
  insert_transaction t d = Return d' -> blocks d' = blocks d.
Proof.
  unfold insert_transaction. destruct (existsb _ _); [discriminate|].
  intros Hd. inversion Hd. reflexivity.
Qed.

Lemma report_insert_keeps_blocks r d d' :
  insert_verification_report r d = Return d' -> blocks d' = blocks d.
Proof.
  unfold insert_verification_report. destruct (negb _); [discriminate|].
  destruct (existsb _ _); [discriminate|]. intros Hd. inversion Hd. reflexivity.
Qed.

Lemma credit_insert_keeps_blocks c d d' :
  insert_carbon_credit c d = Return d' -> blocks d' = blocks d.
Proof.
  unfold insert_carbon_credit. destruct (existsb _ _); [discriminate|].
  intros Hd. inversion Hd. reflexivity.
Qed.

Lemma credit_update_keeps_blocks c ts i d d' :
  mark_transferred c ts i d = Return d' -> blocks d' = blocks d.
Proof. intros Hd. inversion Hd. reflexivity. Qed.

Lemma genesis_keeps_chain (w : world database) :
  chain (db w) -> chain (db (fst (_create_genesis_block w))).
Proof.
  intros Hc.
  unfold _create_genesis_block, _get_latest_block, bind, connection, query, now,
    lift, execute, ret.
  cbn [db clock draws _calculate_hash].
  destruct (select_latest_block (db w)) eqn:Hlatest; cbn [fst db]; [exact Hc|].
  destruct (insert_block _ _ _ _ _ (db w)) as [d'|e] eqn:Hd; cbn [fst db];
    [|exact Hc].
  eapply insert_block_chain; [exact Hc|].
  rewrite Hlatest. exact Hd.
Qed.

(** What a returning commit has done to [blocks]. *)
Ltac blocks_after_commit :=
  repeat match goal with
  | Hd : insert_transaction _ _ = Return _ |- _ =>
      apply transaction_insert_keeps_blocks in Hd
  | Hd : insert_verification_report _ _ = Return _ |- _ =>
      apply report_insert_keeps_blocks in Hd
  | Hd : insert_carbon_credit _ _ = Return _ |- _ =>
      apply credit_insert_keeps_blocks in Hd
  | Hd : mark_transferred _ _ _ _ = Return _ |- _ =>
      apply credit_update_keeps_blocks in Hd
  end.

(** The chain in a database whose blocks are those of a returning insert. *)
Ltac chain_after_insert Hc :=
  repeat (eapply same_blocks_chain; [eassumption|]);
  eapply insert_block_chain; [exact Hc|];
  match goal with
  | Hl : select_latest_block _ = _ |- _ => rewrite Hl
  end;
  eassumption.

Lemma issue_keeps_chain ngo_id report_id amount price (w : world database) :
  chain (db w) -> chain (db (fst (issue_carbon_credits ngo_id report_id amount price w))).
Proof.
  intros Hc.
  destruct (issue_carbon_credits ngo_id report_id amount price w) as [w' [r|e]] eqn:Hrun;
    cbn [fst]; [| rewrite (issue_carbon_credits_is_atomic _ _ _ _ _ Hrun); exact Hc].
  unfold issue_carbon_credits, _get_latest_block, subscript in Hrun. returned Hrun.
  blocks_after_commit. cbn [db] in *. chain_after_insert Hc.
Qed.

Lemma transfer_keeps_chain credit_id from_ngo to_company amount (w : world database) :
  chain (db w) ->
  chain (db (fst (transfer_credits credit_id from_ngo to_company amount w))).
Proof.
  intros Hc.
  destruct (transfer_credits credit_id from_ngo to_company amount w)
    as [w' [r|e]] eqn:Hrun;
    cbn [fst]; [| rewrite (transfer_credits_is_atomic _ _ _ _ _ Hrun); exact Hc].
  unfold transfer_credits, _get_latest_block, subscript in Hrun. returned Hrun.
  blocks_after_commit. cbn [db] in *. chain_after_insert Hc.
Qed.

Lemma submit_keeps_chain ngo_id project_id payload (w : world database) :
  chain (db w) ->
  chain (db (fst (submit_verification_report ngo_id project_id payload w))).
Proof.
  intros Hc. apply genesis_keeps_chain in Hc.
  destruct (submit_verification_report ngo_id project_id payload w)
    as [w' [r|e]] eqn:Hrun;
    cbn [fst];
    [| rewrite (submit_verification_report_is_atomic _ _ _ _ Hrun); exact Hc].
  unfold submit_verification_report, _get_latest_block in Hrun. returned Hrun.
  match goal with
  | Hg : _create_genesis_block w = _ |- _ => rewrite Hg in Hc; cbn [fst] in Hc
  end.
  repeat match goal with
  | Hg : py_get _ _ _ _ = (_, Return _) |- _ =>
      apply py_get_returns in Hg; destruct Hg as (-> & _)
  end.
  blocks_after_commit. cbn [db] in *.
  repeat (eapply same_blocks_chain; [eassumption|]).
  eapply insert_block_chain; [exact Hc | eassumption].
Qed.

Lemma perform_keeps_chain (c : call) (w : world database) :
  chain (db w) -> chain (db (perform c w)).
Proof.
  destruct c; cbn [perform].
  - apply genesis_keeps_chain.
  - apply submit_keeps_chain.
  - apply issue_keeps_chain.
  - apply transfer_keeps_chain.
Qed.

Lemma every_reachable_chain (w : world database) : reachable w -> chain (db w).
Proof.
  induction 1 as [|w c _ IH]; [| apply perform_keeps_chain; exact IH].
  unfold chain. simpl. split; [|split].
  - intros [|i] b Hi; discriminate.
  - intros [|i] p b Hp Hi; discriminate.
  - intros b Hi. discriminate.
Qed.

Lemma block_index (k : nat) (bs : list block) (b : block) :
  numbered_from k bs -> In b bs ->
  exists i, nth_error bs i = Some b /\ block_number b = k + i /\ i < length bs.
Proof.
  intros Hn Hin. destruct (In_nth_error _ _ Hin) as [i Hi].
  exists i. split; [exact Hi|]. split; [apply Hn; exact Hi|].
  apply nth_error_Some. congruence.
Qed.

Lemma find_by_number (bs : list block) : forall k i b,
  numbered_from k bs -> nth_error bs i = Some b ->
  find (fun x => Nat.eqb (block_number x) (k + i)) bs = Some b.
Proof.
  induction bs as [|x bs IH]; intros k i b Hn Hi.
  - destruct i; discriminate.
  - simpl. assert (Hx : block_number x = k) by (rewrite (Hn 0 x eq_refl); lia).
    destruct i as [|i]; simpl in Hi.
    + inversion Hi; subst x. rewrite Hx, Nat.add_0_r, Nat.eqb_refl. reflexivity.
    + replace (Nat.eqb (block_number x) (k + S i)) with false
        by (symmetry; apply Nat.eqb_neq; lia).
      replace (k + S i) with (S k + i) by lia. apply IH; [|exact Hi].
      intros j c Hj. rewrite (Hn (S j) c Hj). lia.
Qed.

(** The chain of [blockchain_api.py]: blocks are numbered from 1; the block
    numbered 1 names the sentinel "0", and every later block names the hash
    of the block numbered one less. *)
Theorem simulator_previous_hash_links (w : world database) (b : block) :
  reachable w -> In b (blocks (db w)) ->
  1 <= block_number b /\
  (block_number b = 1 -> previous_hash b = "0") /\
  (1 < block_number b ->
   exists p, block_at (block_number b - 1) (db w) = Some p /\
             previous_hash b = block_hash p).
Proof.
  intros Hr Hin. destruct (every_reachable_chain Hr) as (Hn & Hl & Hg).
  destruct (block_index b Hn Hin) as (i & Hi & Hnum & Hlt).
  split; [lia|]. split.
  - intros Hone. apply Hg. assert (i = 0) by lia. subst i. exact Hi.
  - intros Hlater. destruct i as [|j]; [lia|].
    destruct (nth_error (blocks (db w)) j) as [p|] eqn:Hp;
      [| apply nth_error_None in Hp; lia].
    exists p. replace (block_number b - 1) with (1 + j) by lia. split.
    + apply (find_by_number (k := 1) j Hn Hp).
    + eapply Hl; eauto.
Qed.


(** *** Tamper evidence in this service *)

Lemma insert_transaction_appends t d d' :
  insert_transaction t d = Return d' ->
  blocks d' = blocks d /\ transactions d' = transactions d ++ [t].
Proof.
  unfold insert_transaction. destruct (existsb _ _); [discriminate|].
  intros Hd. inversion Hd. split; reflexivity.
Qed.

Lemma report_insert_keeps_transactions r d d' :
  insert_verification_report r d = Return d' -> transactions d' = transactions d.
Proof.
  unfold insert_verification_report. destruct (negb _); [discriminate|].
  destruct (existsb _ _); [discriminate|]. intros Hd. inversion Hd. reflexivity.
Qed.

Lemma credit_insert_keeps_transactions c d d' :
  insert_carbon_credit c d = Return d' -> transactions d' = transactions d.
Proof.
  unfold insert_carbon_credit. destruct (existsb _ _); [discriminate|].
  intros Hd. inversion Hd. reflexivity.
Qed.

Lemma credit_update_keeps_transactions c ts i d d' :
  mark_transferred c ts i d = Return d' -> transactions d' = transactions d.
Proof. intros Hd. inversion Hd. reflexivity. Qed.

(** More blocks, the same transactions. *)
Lemma tamper_evident_grows (d d' : database) :
  transactions d' = transactions d ->
  (forall b, In b (blocks d) -> In b (blocks d')) ->
  tamper_evident d -> tamper_evident d'.
Proof.
  intros Htx Hblocks HT t Ht. rewrite Htx in Ht.
  destruct (HT t Ht) as (Hstatus & (b & Hb & Hnum) & Hpayload).
  split; [exact Hstatus|]. split; [|exact Hpayload].
  exists b. split; [apply Hblocks; exact Hb | exact Hnum].
Qed.

(** One commit: a block, then the transaction that bears its number, then
    rows of other tables. *)
Lemma commit_is_tamper_evident (d d1 d2 d3 : database) h p ts mr n
    (t : transaction) (payload : json) :
  tamper_evident d ->
  insert_block h p ts mr n d = Return d1 ->
  insert_transaction t d1 = Return d2 ->
  blocks d3 = blocks d2 -> transactions d3 = transactions d2 ->
  tx_status t = "confirmed" ->
  tx_block_number t = S (max_block_number (blocks d)) ->
  data t = json_dumps false payload ->
  _calculate_hash payload = Return (data_hash t) ->
  tamper_evident d3.
Proof.
  intros HT Hblock Htx Hb3 Ht3 Hstatus Hnum Hdata Hhash.
  destruct (insert_block_appends _ _ _ _ _ _ Hblock) as (Hb1 & Ht1 & _).
  destruct (insert_transaction_appends _ _ Htx) as (Hb2 & Ht2).
  intros x Hx. rewrite Ht3, Ht2, Ht1 in Hx. rewrite Hb3, Hb2, Hb1.
  apply in_app_or in Hx. destruct Hx as [Hx | [Hx | []]].
  - destruct (HT x Hx) as (Hs & (b & Hb & Hbn) & Hp).
    split; [exact Hs|]. split; [|exact Hp].
    exists b. split; [apply in_or_app; left; exact Hb | exact Hbn].
  - subst x. split; [exact Hstatus|]. split.
    + eexists. split; [apply in_or_app; right; left; reflexivity|].
      simpl. symmetry. exact Hnum.
    + exists payload. split; assumption.
Qed.

Lemma genesis_keeps_tamper_evidence (w : world database) :
  tamper_evident (db w) -> tamper_evident (db (fst (_create_genesis_block w))).
Proof.
  intros HT.
  unfold _create_genesis_block, _get_latest_block, bind, connection, query, now,
    lift, execute, ret.
  cbn [db clock draws _calculate_hash].
  destruct (select_latest_block (db w)); cbn [fst db]; [exact HT|].
  destruct (insert_block _ _ _ _ _ (db w)) as [d'|e] eqn:Hd; cbn [fst db];
    [|exact HT].
  destruct (insert_block_appends _ _ _ _ _ _ Hd) as (Hb & Ht & _).
  apply (tamper_evident_grows (d := db w)); [exact Ht | | exact HT].
  intros b Hin. rewrite Hb. apply in_or_app. left. exact Hin.
Qed.

(** Close the goal with [commit_is_tamper_evident], from the statements of a
    returning commit found among the hypotheses. *)
Ltac tamper_evident_after_commit HT :=
  match goal with
  | Hb : insert_block _ _ _ _ _ ?d = Return ?d1,
    Ht : insert_transaction _ ?d1 = Return ?d2 |- tamper_evident ?d3 =>
      eapply (@commit_is_tamper_evident d d1 d2 d3 _ _ _ _ _ _ _ HT Hb Ht);
      first
        [ reflexivity
        | eassumption
        | (eapply eq_trans; [eapply report_insert_keeps_blocks; eassumption|]);
          reflexivity
        | eapply report_insert_keeps_blocks; eassumption
        | eapply report_insert_keeps_transactions; eassumption
        | eapply credit_insert_keeps_blocks; eassumption
        | eapply credit_insert_keeps_transactions; eassumption
        | eapply credit_update_keeps_blocks; eassumption
        | eapply credit_update_keeps_transactions; eassumption
        | idtac ]
  end.

(** The number computed for the new block, once the latest block is known. *)
Ltac number_of_new_block :=
  cbn [tx_block_number];
  match goal with
  | Hl : select_latest_block ?d = Some _ |- _ = S (max_block_number (blocks ?d)) =>
      let Hn := fresh "Hn" in
      pose proof (next_number_is_assigned d) as Hn; rewrite Hl in Hn; exact Hn
  | |- _ = S (max_block_number (blocks ?d)) => exact (next_number_is_assigned d)
  end.

Lemma issue_keeps_tamper_evidence ngo_id report_id amount price (w : world database) :
  tamper_evident (db w) ->
  tamper_evident (db (fst (issue_carbon_credits ngo_id report_id amount price w))).
Proof.
  intros HT.
  destruct (issue_carbon_credits ngo_id report_id amount price w) as [w' [r|e]] eqn:Hrun;
    cbn [fst]; [| rewrite (issue_carbon_credits_is_atomic _ _ _ _ _ Hrun); exact HT].
  unfold issue_carbon_credits, _get_latest_block, subscript in Hrun. returned Hrun.
  cbn [db] in *. tamper_evident_after_commit HT. number_of_new_block.
Qed.

Lemma transfer_keeps_tamper_evidence credit_id from_ngo to_company amount
    (w : world database) :
  tamper_evident (db w) ->
  tamper_evident (db (fst (transfer_credits credit_id from_ngo to_company amount w))).
Proof.
  intros HT.
  destruct (transfer_credits credit_id from_ngo to_company amount w)
    as [w' [r|e]] eqn:Hrun;
    cbn [fst]; [| rewrite (transfer_credits_is_atomic _ _ _ _ _ Hrun); exact HT].
  unfold transfer_credits, _get_latest_block, subscript in Hrun. returned Hrun.
  cbn [db] in *. tamper_evident_after_commit HT. number_of_new_block.
Qed.

Lemma submit_keeps_tamper_evidence ngo_id project_id payload (w : world database) :
  tamper_evident (db w) ->
  tamper_evident (db (fst (submit_verification_report ngo_id project_id payload w))).
Proof.
  intros HT. apply genesis_keeps_tamper_evidence in HT.
  destruct (submit_verification_report ngo_id project_id payload w)
    as [w' [r|e]] eqn:Hrun;
    cbn [fst];
    [| rewrite (submit_verification_report_is_atomic _ _ _ _ Hrun); exact HT].
  unfold submit_verification_report, _get_latest_block in Hrun. returned Hrun.
  match goal with
  | Hg : _create_genesis_block w = _ |- _ => rewrite Hg in HT; cbn [fst] in HT
  end.
  repeat match goal with
  | Hg : py_get _ _ _ _ = (_, Return _) |- _ =>
      apply py_get_returns in Hg; destruct Hg as (-> & _)
  end.
  cbn [db] in *. tamper_evident_after_commit HT. number_of_new_block.
Qed.

(** In every world this service reaches, each stored transaction is
    confirmed, its block is stored, and its stored hash is the canonical hash
    of the payload whose serialisation is stored with it; so whenever
    [json.loads] gives that payload back from the stored text, a fresh hash of
    what was read reproduces the stored hash. *)
Theorem simulator_transactions_are_tamper_evident (w : world database) (t : transaction) :
  reachable w -> In t (transactions (db w)) ->
  tx_status t = "confirmed" /\
  (exists b, In b (blocks (db w)) /\ block_number b = tx_block_number t) /\
  exists payload,
    data t = json_dumps false payload /\
    _calculate_hash payload = Return (data_hash t) /\
    (json_loads (json_dumps false payload) = Some payload ->
     exists read, json_loads (data t) = Some read /\
                  _calculate_hash read = Return (data_hash t)).
Proof.
  intros Hr Hin.
  assert (HT : tamper_evident (db w)).
  { clear t Hin. induction Hr as [|w c _ IH]; [intros t []|].
    destruct c; cbn [perform].
    - apply genesis_keeps_tamper_evidence, IH.
    - apply submit_keeps_tamper_evidence, IH.
    - apply issue_keeps_tamper_evidence, IH.
    - apply transfer_keeps_tamper_evidence, IH. }
  destruct (HT t Hin) as (Hstatus & Hblock & payload & Hdata & Hhash).
  split; [exact Hstatus|]. split; [exact Hblock|].
  exists payload. split; [exact Hdata|]. split; [exact Hhash|].
  intros Hloads. exists payload. rewrite Hdata. split; assumption.
Qed.

End WithRuntime.

(** The sample payload, submitted to a new service, is read back. *)
Lemma submitted_report_reads_back_witness :
  let w' := fst Concrete.first_submission in
  let receipt :=
    Concrete.returned_value (snd Concrete.first_submission) Concrete.no_submission in
  exists view,
    @query_report Concrete.runtime (submitted_report_id receipt) w'
      = (w', Return (Some view)) /\
    view_verification_data view = Concrete.sample_payload /\
    @_calculate_hash Concrete.runtime (view_verification_data view)
      = Return (report_data_hash (view_report view)) /\
    report_data_hash (view_report view) = submitted_data_hash receipt /\
    report_id (view_report view) = submitted_report_id receipt /\
    "ngoA" = ngo_id (view_report view) /\
    "p1" = project_id (view_report view).
Proof.
  intros w' receipt.
  apply (@submitted_report_reads_back Concrete.runtime Simulator.fresh w'
           "ngoA" "p1" Concrete.sample_payload receipt).
  - vm_compute. reflexivity.
  - vm_compute. reflexivity.
Defined.

(** [transfer_credits] compares nobody with the credit's owner, leaves the
    credit's amount as it is and marks it transferred whatever amount is
    moved: a stranger moves 4 of ngoA's 10 credits. *)
Lemma simulator_transfer_checks_no_owner :
  let result :=
    @transfer_credits Concrete.runtime Concrete.simulator_credit_id
      "stranger" "companyB" (Some 4%Q) (fst Concrete.unknown_report_issuance) in
  exists receipt credit,
    snd result = Return receipt /\
    transferred_amount receipt = 4%Q /\
    carbon_credits (db (fst result)) = [credit] /\
    credit_ngo_id credit = "ngoA" /\
    company_id credit = Some "companyB" /\
    amount credit = 10%Q /\
    status credit = "transferred".
Proof.
  do 2 eexists. split; [vm_compute; reflexivity|].
  split; [reflexivity|]. split; [vm_compute; reflexivity|].
  repeat split.
Qed.

(** C7, on the code. [issue_carbon_credits] is called with a report id that
    no stored report carries (the reports table is empty): it returns a
    receipt, and a block, a transaction and an available credit that names
    the missing report have been written. *)
Theorem issuance_against_unknown_report_succeeds :
  verification_reports (db Concrete.simulator_started) = [] /\
  exists receipt credit,
    snd Concrete.unknown_report_issuance = Return receipt /\
    length (blocks (db (fst Concrete.unknown_report_issuance)))
      = S (length (blocks (db Concrete.simulator_started))) /\
    length (transactions (db (fst Concrete.unknown_report_issuance))) = 1 /\
    verification_reports (db (fst Concrete.unknown_report_issuance)) = [] /\
    carbon_credits (db (fst Concrete.unknown_report_issuance)) = [credit] /\
    credit_id credit = issued_credit_id receipt /\
    credit_report_id credit = "no-such-report" /\
    status credit = "available".
Proof.
  split; [reflexivity|]. do 2 eexists.
  split; [vm_compute; reflexivity|].
  repeat split; vm_compute; reflexivity.
Qed.

End SimulatorFacts.

(** ** [app.py]: where a commit is not one unit *)

Module AppCommit.
Import App.

Section WithRuntime.
Context `{Runtime}.

Lemma append_block_after_run (last : block) (txs : list (list (string * json)))
    (w : world database) :
  append_block_after last txs w =
  let b := next_block last txs (isoformat_now (clock w)) in
  match insert_block b (db w) with
  | Return d => (World d (S (clock w)) (draws w), Return b)
  | Raise e => (World (db w) (S (clock w)) (draws w), Raise e)
  end.
Proof.
  unfold append_block_after, bind, now, connection, execute, ret.
  cbn [db clock draws]. destruct (insert_block _ (db w)); reflexivity.
Qed.

(** *** What the order of the writes does guarantee: a transaction is
    confirmed only after its block is stored. *)

Lemma create_new_block_raises txs w w' e :
  create_new_block txs w = (w', Raise e) -> db w' = db w.
Proof.
  unfold create_new_block, get_last_block, bind, connection, query.
  cbn [db clock draws].
  destruct (select_last_block (db w)); [| intros Hrun; inversion Hrun; reflexivity].
  rewrite append_block_after_run. cbv zeta.
  destruct (insert_block _ (db w)); intros Hrun; inversion Hrun; reflexivity.
Qed.

Lemma create_new_block_confirmable txs :
  hoare confirmed_have_blocks (create_new_block txs)
        (fun b d => confirmed_have_blocks d /\ In b (blocks d))
        confirmed_have_blocks.
Proof.
  intros w HJ. destruct (create_new_block txs w) as [w' [b|e]] eqn:Hrun.
  - destruct (AppCredits.create_new_block_returns _ _ Hrun)
      as (Hin & Hblocks & Htxs & _).
    split; [|exact Hin]. intros t Ht Hconfirmed. rewrite Htxs in Ht.
    destruct (HJ t Ht Hconfirmed) as (b' & Hb' & Hnum).
    exists b'. split; [|exact Hnum]. rewrite Hblocks. apply in_or_app. left. exact Hb'.
  - rewrite (create_new_block_raises _ _ Hrun). exact HJ.
Qed.

Lemma confirm_transaction_confirmable (b : block) (h : string) :
  hoare (fun d => confirmed_have_blocks d /\ In b (blocks d))
        (connection (execute (confirm_transaction (block_number b) h)))
        (fun _ => confirmed_have_blocks) confirmed_have_blocks.
Proof.
  intros w [HJ Hb]. unfold connection, execute, confirm_transaction.
  cbn [db clock draws]. intros t Ht Hconfirmed.
  cbn [transactions with_transactions blocks] in *.
  apply in_map_iff in Ht. destruct Ht as (t0 & Ht0 & Hin0).
  destruct (String.eqb (tx_hash t0) h).
  - subst t. exists b. split; [exact Hb | reflexivity].
  - subst t0. exact (HJ t Hin0 Hconfirmed).
Qed.

Lemma keeps_ledger_confirmable (f : database -> outcome database) :
  keeps_ledger f -> preserves confirmed_have_blocks (execute f).
Proof.
  intros Hf. apply preserves_execute. intros d d' HJ Hd.
  destruct (Hf _ _ Hd) as [Hb Ht]. unfold confirmed_have_blocks.
  rewrite Hb, Ht. exact HJ.
Qed.

Lemma insert_carbon_credit_ledger c : keeps_ledger (insert_carbon_credit c).
Proof.
  intros d d' Hf. unfold insert_carbon_credit in Hf.
  destruct (existsb _ _); inversion Hf; split; reflexivity.
Qed.

Lemma insert_credit_transfer_ledger x : keeps_ledger (insert_credit_transfer x).
Proof.
  intros d d' Hf. unfold insert_credit_transfer in Hf.
  destruct (existsb _ _); inversion Hf; split; reflexivity.
Qed.

Lemma reassign_credit_ledger o a i : keeps_ledger (reassign_credit o a i).
Proof. intros d d' Hf. inversion Hf; split; reflexivity. Qed.

Lemma mark_transferred_ledger i : keeps_ledger (mark_transferred i).
Proof. intros d d' Hf. inversion Hf; split; reflexivity. Qed.

Lemma create_transaction_confirmable tx_type from_entity to_entity data :
  preserves confirmed_have_blocks (create_transaction tx_type from_entity to_entity data).
Proof.
  unfold create_transaction.
  apply preserves_bind; [apply preserves_new_uuid | intros tx_id].
  apply preserves_bind; [apply preserves_now | intros ts]. cbv zeta.
  apply preserves_bind; [| intros _; apply preserves_ret].
  apply preserves_connection, preserves_execute.
  intros d d' HJ Hd. unfold insert_transaction in Hd.
  destruct (existsb _ _); [discriminate|]. inversion Hd; subst d'; clear Hd.
  intros t Ht Hconfirmed. cbn [transactions with_transactions blocks] in *.
  apply in_app_or in Ht. destruct Ht as [Ht | [Ht | []]].
  - exact (HJ t Ht Hconfirmed).
  - subst t. discriminate Hconfirmed.
Qed.

(** The end of every route: append the block, confirm the transaction, reply. *)
Lemma commit_confirmable {A} txs h (k : block -> M database A) :
  (forall b, preserves confirmed_have_blocks (k b)) ->
  preserves confirmed_have_blocks
    (block <- create_new_block txs ;;
     connection (execute (confirm_transaction (block_number block) h)) ;;
     k block).
Proof.
  intros Hk. eapply hoare_bind; [apply create_new_block_confirmable | intros b].
  eapply hoare_bind; [apply confirm_transaction_confirmable | intros u; apply Hk].
Qed.

Lemma serve_confirmable (r : request) (w : world database) :
  confirmed_have_blocks (db w) -> confirmed_have_blocks (db (serve r w)).
Proof.
  intros HJ.
  destruct r; cbn [serve];
    [ unfold submit_verification_report
    | unfold issue_carbon_credits
    | unfold transfer_carbon_credits ];
    apply AppFacts.try_except_preserves; try exact HJ;
    repeat first
      [ apply commit_confirmable; intro
      | apply create_transaction_confirmable
      | apply preserves_ret | apply preserves_raise | apply preserves_now
      | apply preserves_new_uuid | apply preserves_query | apply preserves_py_get
      | apply keeps_ledger_confirmable;
        first [ apply insert_carbon_credit_ledger | apply insert_credit_transfer_ledger
              | apply reassign_credit_ledger | apply mark_transferred_ledger ]
      | apply preserves_connection
      | apply preserves_bind; [| intro]
      | match goal with
        | |- preserves _ (match ?x with _ => _ end) => destruct x
        end
      | progress cbv zeta ].
Qed.

(** In every reachable world a confirmed transaction carries the number of
    a block that is in the store (the first half of C4). *)
Theorem confirmed_transaction_has_its_block (w : world database) (t : transaction) :
  reachable w -> In t (transactions (db w)) -> tx_status t = "confirmed" ->
  exists b, In b (blocks (db w)) /\ tx_block_number t = Some (block_number b).
Proof.
  intros Hr. revert t. change (confirmed_have_blocks (db w)).
  induction Hr as [|w r _ IH]; [| apply serve_confirmable; exact IH].
  intros t Ht. destruct Ht.
Qed.

(** C3, on the code. An issuance whose optional [price_per_credit] is [null]
    is answered with an internal error (the market value cannot be computed),
    yet the transaction row written before that stays in the store as
    [pending], with no block: the failed operation is visible. *)
Theorem failed_issuance_leaves_pending_transaction
    (ngo_id project_id : string) (credits_amount verification_score : Q) :
  exists w' row,
    issue_carbon_credits ngo_id project_id credits_amount verification_score
      (IssueOptions None None None Null None) started
    = (w', InternalServerError TypeError) /\
    transactions (db started) = [] /\
    transactions (db w') = [row] /\
    tx_status row = "pending" /\
    tx_block_number row = None /\
    tx_type row = "credit_issuance" /\
    blocks (db w') = blocks (db started) /\
    carbon_credits (db w') = [].
Proof.
  do 2 eexists. split; [reflexivity|]. simpl. repeat split; reflexivity.
Qed.

(** C9, on the code. Two requests whose calls of [create_new_block] both
    read the last block before either inserts: when the first insert
    succeeds, the second is rejected by the [UNIQUE] constraint on
    [block_number], because both built block number last + 1.  Two commits
    leave one new block. *)
Theorem racing_commits_claim_the_same_number
    (txs1 txs2 : list (list (string * json))) (w w' : world database)
    (block1 : block) (outcome2 : outcome block) :
  racing_create_new_block txs1 txs2 w = (w', (Return block1, outcome2)) ->
  outcome2 = Raise (IntegrityError "blocks.block_number") /\
  blocks (db w') = blocks (db w) ++ [block1] /\
  exists last,
    select_last_block (db w) = Some last /\
    block_number block1 = block_number last + 1.
Proof.
  unfold racing_create_new_block, get_last_block, connection, query.
  destruct (select_last_block (db w)) as [last|] eqn:Hlast;
    [|intros Hrun; discriminate Hrun].
  rewrite append_block_after_run. cbv zeta.
  destruct (insert_block (next_block last txs1 _) (db w)) as [d1|e] eqn:Hfirst;
    rewrite append_block_after_run; cbv zeta; cbn [db clock draws].
  - unfold insert_block in Hfirst.
    destruct (existsb _ (blocks (db w))); [discriminate|].
    destruct (existsb _ (blocks (db w))); [discriminate|].
    injection Hfirst as Hfirst. subst d1.
    unfold insert_block at 1. cbn [blocks with_blocks].
    rewrite existsb_app. cbn [existsb next_block block_number].
    rewrite Nat.eqb_refl, orb_true_r. cbn [orb].
    intros Hrun. injection Hrun as Hw Hb Ho. subst.
    split; [reflexivity|]. split; [reflexivity|].
    exists last. split; reflexivity.
  - destruct (insert_block (next_block last txs2 _) (db w));
      cbv beta iota zeta; intros Hrun; discriminate Hrun.
Qed.

End WithRuntime.

(** Two submissions race on a store that holds only the genesis block. *)
Lemma racing_commits_claim_the_same_number_witness :
  let race := @racing_create_new_block Concrete.runtime [] [] (@started Concrete.runtime) in
  snd (snd race) = Raise (IntegrityError "blocks.block_number") /\
  blocks (db (fst race))
  = blocks (db (@started Concrete.runtime))
    ++ [Concrete.returned_value (fst (snd race)) Concrete.no_block] /\
  exists last,
    select_last_block (db (@started Concrete.runtime)) = Some last /\
    block_number (Concrete.returned_value (fst (snd race)) Concrete.no_block)
    = block_number last + 1.
Proof.
  intros race.
  apply (@racing_commits_claim_the_same_number Concrete.runtime [] []
           (@started Concrete.runtime) (fst race)).
  vm_compute. reflexivity.
Defined.

(** C4, on the code. After one submission the stored transaction is
    confirmed and its block exists, but the only hash stored with it,
    [tx_hash], is not the hash of its stored payload, neither of the stored
    text nor of the payload parsed and serialised in canonical form: it
    covers an envelope with a [tx_id] that no column keeps. *)
Theorem stored_hash_is_not_the_payload_hash :
  exists row b,
    transactions (db Concrete.after_submission) = [row] /\
    tx_status row = "confirmed" /\
    tx_block_number row = Some (block_number b) /\
    In b (blocks (db Concrete.after_submission)) /\
    tx_hash row <> @calculate_hash Concrete.runtime [Str (data row)] /\
    exists payload,
      @json_loads Concrete.runtime (data row) = Some payload /\
      tx_hash row <> @calculate_hash Concrete.runtime
                       [Str (@json_dumps Concrete.runtime true payload)].
Proof.
  eexists. exists (Concrete.newest_block Concrete.after_submission).
  split; [vm_compute; reflexivity|].
  split; [reflexivity|]. split; [vm_compute; reflexivity|].
  split; [vm_compute; right; left; reflexivity|].
  split; [vm_compute; discriminate|].
  eexists. split; [vm_compute; reflexivity | vm_compute; discriminate].
Qed.

End AppCommit.

(** * More of the two services *)

Section MoreRules.
Context `{Runtime} {D : Type}.

Lemma hoare_connection {A} (P E E' : D -> Prop) (Q : A -> D -> Prop) (m : M D A) :
  hoare P m Q E' -> (forall d, P d -> E d) -> hoare P (connection m) Q E.
Proof.
  intros Hm HE w HP. unfold connection. specialize (Hm w HP).
  destruct (m w) as [w' [a|e]]; simpl; auto.
Qed.

(** A computation of which we know what a run that returns has done, and
    that a run that raises has left the database alone. *)
Lemma hoare_by_runs {A} (P E : D -> Prop) (Q : A -> D -> Prop) (m : M D A) :
  (forall w w' a, P (db w) -> m w = (w', Return a) -> Q a (db w')) ->
  (forall w w' e, P (db w) -> m w = (w', Raise e) -> E (db w')) ->
  hoare P m Q E.
Proof.
  intros HQ HE w HP. destruct (m w) as [w' [a|e]] eqn:Hm; eauto.
Qed.

End MoreRules.

Module AppLedger.
Import App.

Section WithRuntime.
Context `{Runtime}.

Lemma create_transaction_appends tx_type from_entity to_entity data w w' h :
  create_transaction tx_type from_entity to_entity data w = (w', Return h) ->
  blocks (db w') = blocks (db w) /\
  carbon_credits (db w') = carbon_credits (db w) /\
  credit_transfers (db w') = credit_transfers (db w) /\
  existsb (fun x => String.eqb (tx_hash x) h) (transactions (db w)) = false /\
  transactions (db w') =
    transactions (db w)
      ++ [Transaction h None tx_type from_entity to_entity (json_dumps false data)
            (isoformat_now (clock w)) "pending"].
Proof.
  intros Hrun. unfold create_transaction in Hrun. returned Hrun.
  unfold insert_transaction in Hf. cbn [transactions db tx_hash] in Hf.
  destruct (existsb _ _) eqn:Hnew; [discriminate|]. inversion Hf; subst; clear Hf.
  cbn. repeat split.
Qed.

Lemma create_transaction_raises tx_type from_entity to_entity data w w' e :
  create_transaction tx_type from_entity to_entity data w = (w', Raise e) ->
  db w' = db w.
Proof.
  unfold create_transaction, bind, new_uuid, now, connection, execute, ret.
  cbn [db clock draws].
  destruct (insert_transaction _ (db w)); intros Hrun; inversion Hrun; reflexivity.
Qed.

Lemma not_in_hashes (h : string) (ts : list transaction) :
  existsb (fun x => String.eqb (tx_hash x) h) ts = false -> ~ In h (map tx_hash ts).
Proof.
  intros Hex Hin. apply in_map_iff in Hin. destruct Hin as (t & Ht & Hin).
  assert (Htrue : existsb (fun x => String.eqb (tx_hash x) h) ts = true).
  { apply existsb_exists. exists t. split; [exact Hin|]. apply String.eqb_eq. exact Ht. }
  congruence.
Qed.

Lemma count_where_app {A} (p : A -> bool) (l1 l2 : list A) :
  count_where p (l1 ++ l2) = count_where p l1 + count_where p l2.
Proof. unfold count_where. rewrite filter_app, length_app. reflexivity. Qed.

Lemma create_transaction_counts tx_type from_entity to_entity data :
  hoare ledger_counts (create_transaction tx_type from_entity to_entity data)
        (fun h d => ledger_counts d /\ pending_row h d) ledger_counts.
Proof.
  apply hoare_by_runs.
  - intros w w' h ((Hnodup & Hstatus) & Hcount) Hrun.
    destruct (create_transaction_appends _ _ _ _ _ Hrun)
      as (Hblocks & _ & _ & Hnew & Htxs).
    unfold ledger_counts, well_formed_transactions, pending_row, confirmed_count.
    rewrite Hblocks, Htxs. repeat split.
    + rewrite map_app. cbn [map tx_hash].
      apply NoDup_app; [exact Hnodup | repeat constructor; intros [] |].
      intros x Hx [<- | []]. exact (not_in_hashes _ _ Hnew Hx).
    + intros t Ht. apply in_app_or in Ht. destruct Ht as [Ht | [<- | []]].
      * apply Hstatus. exact Ht.
      * left. split; reflexivity.
    + rewrite count_where_app. cbn. unfold confirmed_count in Hcount. lia.
    + eexists. split; [apply in_or_app; right; left; reflexivity|].
      split; reflexivity.
  - intros w w' e HK Hrun. rewrite (create_transaction_raises _ _ _ _ _ Hrun). exact HK.
Qed.


Lemma create_new_block_counts txs h :
  hoare (fun d => ledger_counts d /\ pending_row h d) (create_new_block txs)
        (fun _ => awaiting h) ledger_counts.
Proof.
  apply hoare_by_runs.
  - intros w w' b ((Hwf & Hcount) & Hpending) Hrun.
    destruct (AppCredits.create_new_block_returns _ _ Hrun)
      as (_ & Hblocks & Htxs & _).
    unfold awaiting, well_formed_transactions, pending_row, confirmed_count in *.
    rewrite Hblocks, Htxs, length_app. cbn [length].
    repeat split; try tauto. lia.
  - intros w w' e [HK _] Hrun.
    rewrite (AppCommit.create_new_block_raises _ _ Hrun). exact HK.
Qed.

Lemma confirmed_row_hash n h t : tx_hash (confirmed_row n h t) = tx_hash t.
Proof. unfold confirmed_row. destruct (String.eqb _ _); reflexivity. Qed.

Lemma confirmed_row_others n h ts :
  ~ In h (map tx_hash ts) -> map (confirmed_row n h) ts = ts.
Proof.
  induction ts as [|t ts IH]; simpl; intros Hh; [reflexivity|].
  unfold confirmed_row at 1.
  destruct (String.eqb (tx_hash t) h) eqn:Heq.
  - apply String.eqb_eq in Heq. tauto.
  - rewrite IH by tauto. reflexivity.
Qed.

Lemma confirm_one_more n h ts :
  NoDup (map tx_hash ts) ->
  (exists t, In t ts /\ tx_hash t = h /\ tx_status t = "pending") ->
  count_where (fun t => String.eqb (tx_status t) "confirmed") (map (confirmed_row n h) ts)
  = S (count_where (fun t => String.eqb (tx_status t) "confirmed") ts).
Proof.
  induction ts as [|x ts IH]; intros Hnodup (t & Hin & Hh & Hp); [destruct Hin|].
  inversion Hnodup as [|? ? Hx Hts]; subst.
  cbn [map]. destruct (String.eqb (tx_hash x) (tx_hash t)) eqn:Heq.
  - apply String.eqb_eq in Heq.
    assert (t = x).
    { destruct Hin as [Hin | Hin]; [congruence|]. exfalso. apply Hx. rewrite Heq.
      apply in_map. exact Hin. }
    subst t. rewrite confirmed_row_others by exact Hx.
    unfold confirmed_row. rewrite String.eqb_refl.
    unfold count_where. cbn [filter tx_status]. rewrite Hp. reflexivity.
  - assert (Hin' : In t ts).
    { destruct Hin as [-> | Hin]; [|exact Hin]. rewrite String.eqb_refl in Heq.
      discriminate. }
    unfold confirmed_row at 1. rewrite Heq.
    unfold count_where in *. cbn [filter].
    specialize (IH Hts (ex_intro _ t (conj Hin' (conj eq_refl Hp)))).
    destruct (String.eqb (tx_status x) "confirmed"); cbn [length]; congruence.
Qed.

Lemma confirm_transaction_counts (b : block) (h : string) :
  hoare (awaiting h)
        (connection (execute (confirm_transaction (block_number b) h)))
        (fun _ => ledger_counts) ledger_counts.
Proof.
  intros w ((Hnodup & Hstatus) & Hcount & Hpending).
  unfold connection, execute, confirm_transaction. cbn [db clock draws].
  unfold ledger_counts, well_formed_transactions, confirmed_count.
  cbn [transactions with_transactions blocks].
  change (fun t => if String.eqb (tx_hash t) h then _ else t)
    with (confirmed_row (block_number b) h).
  repeat split.
  - rewrite map_map. rewrite (map_ext _ tx_hash); [exact Hnodup|].
    intros t. apply confirmed_row_hash.
  - intros t Ht. apply in_map_iff in Ht. destruct Ht as (t0 & <- & Ht0).
    unfold confirmed_row. destruct (String.eqb (tx_hash t0) h).
    + right. split; [reflexivity | eexists; reflexivity].
    + apply Hstatus. exact Ht0.
  - rewrite (@confirm_one_more (block_number b) h _ Hnodup Hpending).
    unfold confirmed_count in Hcount. lia.
Qed.

Lemma keeps_ledger_counts (P : database -> Prop) (f : database -> outcome database) :
  keeps_ledger f ->
  (forall d d', blocks d' = blocks d -> transactions d' = transactions d -> P d -> P d') ->
  preserves P (execute f).
Proof.
  intros Hf HP. apply preserves_execute. intros d d' Hd Hrun.
  destruct (Hf _ _ Hrun) as [Hb Ht]. eapply HP; eauto.
Qed.

Lemma ledger_counts_frame (d d' : database) :
  blocks d' = blocks d -> transactions d' = transactions d ->
  ledger_counts d -> ledger_counts d'.
Proof.
  unfold ledger_counts, well_formed_transactions, confirmed_count.
  intros -> ->. auto.
Qed.

Lemma pending_frame h (d d' : database) :
  blocks d' = blocks d -> transactions d' = transactions d ->
  ledger_counts d /\ pending_row h d -> ledger_counts d' /\ pending_row h d'.
Proof.
  unfold ledger_counts, well_formed_transactions, confirmed_count, pending_row.
  intros -> ->. auto.
Qed.

(** The end of every route: append the block, confirm the transaction, reply. *)
Lemma commit_counts {A} txs h (k : block -> M database A) :
  (forall b, preserves ledger_counts (k b)) ->
  hoare (fun d => ledger_counts d /\ pending_row h d)
    (block <- create_new_block txs ;;
     connection (execute (confirm_transaction (block_number block) h)) ;;
     k block)
    (fun _ => ledger_counts) ledger_counts.
Proof.
  intros Hk. eapply hoare_bind; [apply create_new_block_counts | intros b].
  eapply hoare_bind; [apply confirm_transaction_counts | intros u; apply Hk].
Qed.


(** The statements between the creation of the transaction and the block. *)
Ltac between_step :=
  first
    [ apply preserves_ret | apply preserves_raise | apply preserves_now
    | apply preserves_new_uuid | apply preserves_query | apply preserves_py_get
    | apply keeps_ledger_counts;
      [ first [ apply AppCommit.insert_carbon_credit_ledger
              | apply AppCommit.insert_credit_transfer_ledger
              | apply AppCommit.reassign_credit_ledger
              | apply AppCommit.mark_transferred_ledger ]
      | first [ apply pending_frame | apply ledger_counts_frame ] ]
    | apply preserves_connection
    | apply preserves_bind; [| intro]
    | match goal with
      | |- preserves _ (match ?x with _ => _ end) => destruct x
      | |- preserves _ (if ?x then _ else _) => destruct x
      end
    | progress cbv zeta ].

(** A route from the creation of its transaction on. *)
Lemma route_counts {A B} tx_type from_entity to_entity data
    (between : string -> M database B) txs (k : string -> block -> M database A) :
  (forall h, preserves (fun d => ledger_counts d /\ pending_row h d) (between h)) ->
  (forall h b, preserves ledger_counts (k h b)) ->
  preserves ledger_counts
    (h <- create_transaction tx_type from_entity to_entity data ;;
     connection (between h) ;;
     block <- create_new_block (txs h) ;;
     connection (execute (confirm_transaction (block_number block) h)) ;;
     k h block).
Proof.
  intros Hbetween Hk.
  eapply hoare_bind; [apply create_transaction_counts | intros h].
  eapply hoare_bind with (R := fun _ d => ledger_counts d /\ pending_row h d).
  - eapply hoare_connection; [apply Hbetween | tauto].
  - intros _. apply commit_counts. apply Hk.
Qed.

Lemma serve_counts (r : request) (w : world database) :
  ledger_counts (db w) -> ledger_counts (db (serve r w)).
Proof.
  intros HK. destruct r; cbn [serve].
  - unfold submit_verification_report.
    apply AppFacts.try_except_preserves; [|exact HK].
    eapply hoare_bind; [apply create_transaction_counts | intros h]. cbv zeta.
    apply commit_counts. intros b. repeat between_step.
  - unfold issue_carbon_credits.
    apply AppFacts.try_except_preserves; [|exact HK].
    apply preserves_bind; [apply preserves_new_uuid | intros u]. cbv zeta.
    apply (route_counts _ _ _ _
             (fun tx_hash =>
                ts <- now ;;
                match get_price (opt_price_per_credit options) with
                | None => raise TypeError
                | Some price =>
                    if sqlite_integer _
                    then execute (insert_carbon_credit _)
                    else raise OverflowError
                end)
             (fun tx_hash => [[("tx_hash", JStr tx_hash); _; _; _; _]])
             (fun tx_hash block => ret (OK (Issuance _ tx_hash _ _ _ _ _ _)))).
    + intros h. repeat between_step.
    + intros h b. apply preserves_ret.
  - unfold transfer_carbon_credits.
    apply AppFacts.try_except_preserves; [|exact HK].
    apply preserves_bind; [repeat between_step | intros credit_info].
    destruct credit_info as [credit|]; [|apply preserves_ret].
    cbv zeta. destruct (negb _); [apply preserves_ret|].
    destruct (Qltb _ _); [apply preserves_ret|].
    apply preserves_bind; [apply preserves_new_uuid | intros u]. cbv zeta.
    apply (route_counts _ _ _ _
             (fun tx_hash =>
                ts <- now ;;
                execute (insert_credit_transfer _) ;;
                execute (reassign_credit _ _ _) ;;
                execute (mark_transferred _))
             (fun tx_hash => [[("tx_hash", JStr tx_hash); _; _; _; _; _; _]])
             (fun tx_hash block => ret (OK (Transfer _ tx_hash _ _ _ _ _ _ _ _ _)))).
    + intros h. repeat between_step.
    + intros h b. apply preserves_ret.
Qed.

Lemma started_counts : ledger_counts (db started).
Proof.
  unfold started, ledger_counts, well_formed_transactions, confirmed_count. simpl.
  repeat split; [constructor | intros t []].
Qed.

Lemma reachable_counts (w : world database) : reachable w -> ledger_counts (db w).
Proof.
  induction 1 as [|w r _ IH]; [apply started_counts | apply serve_counts; exact IH].
Qed.


(** *** [ORDER BY block_number DESC] on a numbered table *)

Lemma insert_desc_last {A} (geb : A -> A -> bool) (x : A) (l : list A) :
  (forall y, In y l -> geb x y = false) -> insert_desc geb x l = l ++ [x].
Proof.
  induction l as [|y l IH]; simpl; intros Hx; [reflexivity|].
  rewrite (Hx y (or_introl eq_refl)). f_equal. apply IH. auto.
Qed.

Lemma numbered_tail (k : nat) (b : block) (bs : list block) :
  numbered_from k (b :: bs) -> block_number b = k /\ numbered_from (S k) bs.
Proof.
  intros Hn. split.
  - rewrite (Hn 0 b eq_refl). lia.
  - intros i x Hi. rewrite (Hn (S i) x Hi). lia.
Qed.

Lemma newest_first (bs : list block) : forall k,
  numbered_from k bs ->
  order_by_desc (fun x y => Nat.leb (block_number y) (block_number x)) bs = rev bs.
Proof.
  induction bs as [|b bs IH]; intros k Hn; [reflexivity|].
  destruct (numbered_tail Hn) as [Hb Hbs].
  cbn [order_by_desc fold_right rev]. fold (order_by_desc (fun x y => Nat.leb (block_number y) (block_number x)) bs).
  rewrite (IH _ Hbs). apply insert_desc_last.
  intros y Hy. apply in_rev in Hy. destruct (In_nth_error _ _ Hy) as [i Hi].
  apply Nat.leb_gt. rewrite (Hbs i y Hi). lia.
Qed.

(** [/ledger/blockchain] in a reachable world: one confirmed transaction for
    every block but the genesis block; the last block is the newest one, and
    its number is the number of the blocks before it; the recent blocks are
    the ten newest, newest first. *)
Theorem blockchain_info_counts_agree (w : world database) :
  reachable w ->
  exists info newest,
    get_blockchain_info w = (w, OK info) /\
    total_transactions info + 1 = total_blocks info /\
    last_block info = Some newest /\
    block_number newest + 1 = total_blocks info /\
    recent_blocks info = firstn 10 (rev (blocks (db w))).
Proof.
  intros Hr. destruct (reachable_counts Hr) as (_ & Hcount).
  destruct (AppFacts.reachable_chain Hr) as (Hne & Hn & _).
  destruct (exists_last Hne) as (bs & newest & Hbs).
  unfold get_blockchain_info, try_except, connection, bind, query, ret.
  cbn [db clock draws]. do 2 eexists. split; [reflexivity|].
  cbn [total_transactions total_blocks last_block recent_blocks].
  rewrite (newest_first Hn). unfold sql_limit. cbn [Z.ltb Z.compare Z.to_nat Pos.to_nat].
  change (Pos.iter_op Init.Nat.add 10 1) with 10.
  split; [exact Hcount|]. rewrite Hbs, rev_app_distr. cbn [rev app firstn hd_error].
  split; [reflexivity|]. split; [|reflexivity].
  rewrite length_app. cbn [length].
  assert (Hnum : block_number newest = 0 + length bs).
  { apply (Hn (length bs)). rewrite Hbs, nth_error_app2 by lia.
    rewrite Nat.sub_diag. reflexivity. }
  lia.
Qed.

(** In a reachable world no two transactions share a hash, and a
    transaction is pending, without a block number, or confirmed, with one. *)
Theorem transactions_are_pending_or_confirmed (w : world database) :
  reachable w ->
  NoDup (map tx_hash (transactions (db w))) /\
  forall t, In t (transactions (db w)) ->
    (tx_status t = "pending" /\ tx_block_number t = None) \/
    (tx_status t = "confirmed" /\ exists n, tx_block_number t = Some n).
Proof. intros Hr. exact (proj1 (reachable_counts Hr)). Qed.

End WithRuntime.
End AppLedger.

Module AppBalances.
Import App.

Section WithRuntime.
Context `{Runtime}.

Lemma unique_key {A} (key : A -> string) (l : list A) (a b : A) :
  NoDup (map key l) -> In a l -> In b l -> key a = key b -> a = b.
Proof.
  induction l as [|x l IH]; simpl; intros Hnodup Ha Hb Hkey; [contradiction|].
  inversion Hnodup as [|? ? Hx Hl]; subst.
  destruct Ha as [-> | Ha], Hb as [-> | Hb]; auto.
  - exfalso. apply Hx. rewrite Hkey. apply in_map. exact Hb.
  - exfalso. apply Hx. rewrite <- Hkey. apply in_map. exact Ha.
Qed.

Lemma select_active_found (id : string) (cs : list carbon_credit) (c : carbon_credit) :
  find (fun c => String.eqb (credit_id c) id && String.eqb (status c) "active") cs = Some c ->
  In c cs /\ credit_id c = id /\ status c = "active".
Proof.
  intros Hfind. destruct (find_some _ _ Hfind) as [Hin Hc].
  apply andb_true_iff in Hc. destruct Hc as [Hid Hs].
  apply String.eqb_eq in Hid, Hs. auto.
Qed.

Lemma transferred_row_id to_owner amount id c :
  credit_id (transferred_row to_owner amount id c) = credit_id c.
Proof.
  unfold transferred_row. destruct (String.eqb (credit_id c) id); cbn;
    destruct (_ && _); reflexivity.
Qed.

Lemma transferred_row_other to_owner amount id c :
  credit_id c <> id -> transferred_row to_owner amount id c = c.
Proof.
  intros Hid. apply String.eqb_neq in Hid. unfold transferred_row.
  rewrite Hid. cbn. rewrite Hid. reflexivity.
Qed.

(** The two [UPDATE]s, as one map over the table. *)
Lemma updates_are_transferred_rows to_owner amount id (d : database) :
  match reassign_credit to_owner amount id d with
  | Return d1 =>
      match mark_transferred id d1 with
      | Return d2 =>
          blocks d2 = blocks d /\ transactions d2 = transactions d /\
          credit_transfers d2 = credit_transfers d /\
          carbon_credits d2 = map (transferred_row to_owner amount id) (carbon_credits d)
      | Raise _ => False
      end
  | Raise _ => False
  end.
Proof.
  unfold reassign_credit, mark_transferred. cbn. repeat split.
  rewrite map_map. reflexivity.
Qed.

Lemma transfer_keeps_credits_well_formed to_owner amount id cs c :
  well_formed_credits cs ->
  find (fun c => String.eqb (credit_id c) id && String.eqb (status c) "active") cs = Some c ->
  well_formed_credits (map (transferred_row to_owner amount id) cs).
Proof.
  intros [Hnodup Hstatus] Hfind.
  destruct (select_active_found _ _ Hfind) as (Hin & Hid & Hactive). split.
  - rewrite map_map. rewrite (map_ext _ credit_id); [exact Hnodup|].
    intros x. apply transferred_row_id.
  - intros c' Hc'. apply in_map_iff in Hc'. destruct Hc' as (c0 & <- & Hc0).
    destruct (String.eqb (credit_id c0) id) eqn:Heq.
    + apply String.eqb_eq in Heq.
      assert (c0 = c) by (apply (unique_key credit_id cs); congruence). subst c0.
      unfold transferred_row. rewrite Hid, String.eqb_refl. cbn.
      rewrite Hid, String.eqb_refl. cbn.
      destruct (Qeq_bool (credits_amount c - amount) 0) eqn:Hzero; cbn.
      * right. split; [reflexivity|]. apply Qeq_bool_iff. exact Hzero.
      * left. exact Hactive.
    + apply String.eqb_neq in Heq. rewrite (@transferred_row_other to_owner amount id c0 Heq).
      apply Hstatus. exact Hc0.
Qed.

Lemma sum_of_cons {A} (column : A -> Q) (x : A) (l : list A) :
  sum_of column (x :: l) = (column x + sum_of column l)%Q.
Proof. reflexivity. Qed.


Lemma transferred_rows_others to_owner amount id cs :
  ~ In id (map credit_id cs) -> map (transferred_row to_owner amount id) cs = cs.
Proof.
  induction cs as [|c cs IH]; simpl; intros Hid; [reflexivity|].
  rewrite transferred_row_other by tauto. rewrite IH by tauto. reflexivity.
Qed.



End WithRuntime.
End AppBalances.

(** ** [app.py]: what a route that replied 200 has written *)

Module AppRuns.
Import App.

Section WithRuntime.
Context `{Runtime}.

Lemma commit_returns txs w1 w2 d3 (b : block) (t : transaction) d0 :
  blocks (db w1) = blocks d0 ->
  transactions (db w1) = transactions d0 ++ [t] ->
  existsb (fun x => String.eqb (tx_hash x) (tx_hash t)) (transactions d0) = false ->
  tx_status t = "pending" -> tx_block_number t = None ->
  create_new_block txs w1 = (w2, Return b) ->
  confirm_transaction (block_number b) (tx_hash t) (db w2) = Return d3 ->
  committed d0 d3 t b /\
  carbon_credits d3 = carbon_credits (db w1) /\
  credit_transfers d3 = credit_transfers (db w1).
Proof.
  intros Hb Ht Hknew Hp Hn Hblock Hconfirm.
  destruct (AppCredits.create_new_block_returns _ _ Hblock)
    as (_ & Hb2 & Ht2 & Hc2 & Hx2).
  unfold confirm_transaction in Hconfirm. inversion Hconfirm; subst d3; clear Hconfirm.
  unfold committed. cbn [blocks transactions carbon_credits credit_transfers
                        with_transactions].
  repeat split; try assumption; try congruence.
  rewrite Ht2, Ht. reflexivity.
Qed.

Lemma issue_carbon_credits_returns ngo project amount score options w w' receipt :
  issue_carbon_credits ngo project amount score options w = (w', OK receipt) ->
  exists price c t b,
    get_price (opt_price_per_credit options) = Some price /\
    c = CarbonCredit ("ECC-" ++ project ++ "-" ++ prefix 8 (uuid4 (draws w)))
          ngo project amount score
          (or_default (opt_co2_absorbed options) 0%Q)
          (or_default (opt_tree_count options) 0%Z)
          (or_default (opt_project_location options) EmptyString)
          (isoformat_now (S (clock w))) "active" ngo price (amount * price)%Q
          (json_dumps false (or_default (opt_verification_data options) (JObj [])))
          (tx_hash t) /\
    existsb (fun x => String.eqb (credit_id x) (credit_id c)) (carbon_credits (db w))
    = false /\
    carbon_credits (db w') = carbon_credits (db w) ++ [c] /\
    credit_transfers (db w') = credit_transfers (db w) /\
    committed (db w) (db w') t b /\
    tx_type t = "credit_issuance" /\ from_entity t = "ecoledger_system" /\
    to_entity t = ngo /\
    receipt = Issuance (credit_id c) (tx_hash t) (block_number b) (block_hash b)
                amount ngo score (timestamp b).
Proof.
  intros Hrun. apply AppCredits.try_except_OK in Hrun.
  unfold issue_carbon_credits in Hrun. returned Hrun.
  match goal with
  | Hc : create_transaction _ _ _ _ _ = (?w0, Return ?h) |- _ =>
      pose proof (AppLedger.create_transaction_appends _ _ _ _ _ Hc)
        as (Hkb & Hkc & Hkx & Hknew & Hkt);
      assert (Hclock : clock w0 = S (clock w))
        by (unfold create_transaction, bind, new_uuid, now, connection, execute, ret in Hc;
            cbn [db clock draws] in Hc;
            destruct (insert_transaction _ _); inversion Hc; reflexivity)
  end.
  cbn [db clock draws] in *.
  match goal with
  | Hf : insert_carbon_credit _ _ = Return _ |- _ =>
      unfold insert_carbon_credit in Hf; cbn [credit_id] in Hf;
      destruct (existsb _ (carbon_credits _)) eqn:Hfresh in Hf; [discriminate|];
      injection Hf as Hf; subst
  end.
  match goal with
  | Hblock : create_new_block _ ?w1 = (_, Return ?b),
    Hconfirm : confirm_transaction _ _ _ = _ |- _ =>
      pose proof (@commit_returns _ w1 _ _ _ _ (db w) Hkb Hkt Hknew eq_refl eq_refl
                    Hblock Hconfirm)
        as (Hcommitted & Hcredits & Htransfers)
  end.
  cbn [db carbon_credits credit_transfers with_carbon_credits] in *.
  match goal with
  | Ha : OK receipt = OK _ |- _ => injection Ha as Ha; subst receipt
  end.
  match type of Hcommitted with
  | committed _ _ ?t ?b => eexists; eexists; exists t, b
  end.
  split; [reflexivity|]. split; [reflexivity|].
  cbn [credit_id tx_hash tx_type from_entity to_entity].
  rewrite <- Hkc, <- Hclock, <- Hkx.
  repeat match goal with |- _ /\ _ => split end;
    first [assumption | reflexivity | exact Hcredits].
Qed.


Lemma create_transaction_clock tx_type from_entity to_entity data w w' h :
  create_transaction tx_type from_entity to_entity data w = (w', Return h) ->
  clock w' = S (clock w) /\ draws w' = S (draws w).
Proof.
  unfold create_transaction, bind, new_uuid, now, connection, execute, ret.
  cbn [db clock draws].
  destruct (insert_transaction _ _); intros Hrun; inversion Hrun; split; reflexivity.
Qed.

Lemma create_transaction_hash tx_type from_entity to_entity data w w' h :
  create_transaction tx_type from_entity to_entity data w = (w', Return h) ->
  exists s, h = sha256_hexdigest s.
Proof.
  intros Hrun. unfold create_transaction in Hrun. returned Hrun.
  eexists. reflexivity.
Qed.

Lemma transfer_carbon_credits_returns id from_owner to_owner amount price w w' receipt :
  transfer_carbon_credits id from_owner to_owner amount price w = (w', OK receipt) ->
  exists credit x t b,
    select_active_credit id (db w) = Some credit /\
    owner_id credit = from_owner /\
    Qltb (credits_amount credit) amount = false /\
    x = CreditTransfer ("TXF-" ++ prefix 8 (uuid4 (draws w))) id from_owner to_owner
          amount price (isoformat_now (S (clock w))) (tx_hash t) "completed" /\
    existsb (fun y => String.eqb (transfer_id y) (transfer_id x)) (credit_transfers (db w))
    = false /\
    credit_transfers (db w') = credit_transfers (db w) ++ [x] /\
    carbon_credits (db w') =
      map (transferred_row to_owner amount id) (carbon_credits (db w)) /\
    committed (db w) (db w') t b /\
    tx_type t = "credit_transfer" /\ from_entity t = from_owner /\
    to_entity t = to_owner /\
    receipt = Transfer (transfer_id x) (tx_hash t) (block_number b) (block_hash b)
                id from_owner to_owner amount price (amount * price)%Q (timestamp b).
Proof.
  intros Hrun. apply AppCredits.try_except_OK in Hrun.
  unfold transfer_carbon_credits in Hrun. returned Hrun.
  match goal with
  | Hc : create_transaction _ _ _ _ _ = (?w0, Return ?h) |- _ =>
      pose proof (AppLedger.create_transaction_appends _ _ _ _ _ Hc)
        as (Hkb & Hkc & Hkx & Hknew & Hkt);
      pose proof (create_transaction_clock _ _ _ _ _ Hc) as (Hclock & _)
  end.
  cbn [db clock draws] in *.
  match goal with
  | Hf : insert_credit_transfer _ _ = Return _ |- _ =>
      unfold insert_credit_transfer in Hf; cbn [transfer_id] in Hf;
      destruct (existsb _ (credit_transfers _)) eqn:Hfresh in Hf; [discriminate|];
      injection Hf as Hf; subst
  end.
  repeat match goal with
  | Hf : reassign_credit _ _ _ _ = Return _ |- _ =>
      unfold reassign_credit in Hf; injection Hf as Hf; subst
  | Hf : mark_transferred _ _ = Return _ |- _ =>
      unfold mark_transferred in Hf; injection Hf as Hf; subst
  end.
  match goal with
  | Hblock : create_new_block _ ?w1 = (_, Return ?b),
    Hconfirm : confirm_transaction _ _ _ = _ |- _ =>
      pose proof (@commit_returns _ w1 _ _ _ _ (db w) Hkb Hkt Hknew eq_refl eq_refl
                    Hblock Hconfirm)
        as (Hcommitted & Hcredits & Htransfers)
  end.
  cbn [db carbon_credits credit_transfers with_carbon_credits with_credit_transfers] in *.
  match goal with
  | Ha : OK receipt = OK _ |- _ => injection Ha as Ha; subst receipt
  end.
  match goal with
  | Ho : negb (String.eqb _ _) = false |- _ =>
      apply negb_false_iff, String.eqb_eq in Ho
  end.
  match type of Hcommitted with
  | committed _ _ ?t ?b => eexists; eexists; exists t, b
  end.
  split; [reflexivity|]. split; [assumption|]. split; [assumption|].
  split; [reflexivity|].
  cbn [transfer_id tx_hash tx_type from_entity to_entity].
  rewrite <- Hkc, <- Hclock, <- Hkx.
  repeat match goal with |- _ /\ _ => split end;
    first [assumption | reflexivity | idtac].
  rewrite Hcredits, map_map. reflexivity.
Qed.

Lemma submit_verification_report_returns ngo project payload w w' receipt :
  submit_verification_report ngo project payload w = (w', OK receipt) ->
  exists t b members,
    payload = JObj members /\
    t = Transaction (tx_hash t) None "verification_submission" ngo "ecoledger_system"
          (json_dumps false
             (JObj [("project_id", JStr project);
                    ("verification_data", payload);
                    ("action", JStr "submit_verification_report")]))
          (isoformat_now (clock w)) "pending" /\
    (exists s, tx_hash t = sha256_hexdigest s) /\
    committed (db w) (db w') t b /\
    carbon_credits (db w') = carbon_credits (db w) /\
    credit_transfers (db w') = credit_transfers (db w) /\
    submitted_tx_hash receipt = tx_hash t /\
    report_hash receipt = calculate_hash [Str (json_dumps true payload)] /\
    submitted_block_number receipt = block_number b /\
    submitted_block_hash receipt = block_hash b /\
    submitted_timestamp receipt = timestamp b.
Proof.
  intros Hrun. apply AppCredits.try_except_OK in Hrun.
  unfold submit_verification_report in Hrun. returned Hrun.
  match goal with
  | Hc : create_transaction _ _ _ _ _ = (?w0, Return ?h) |- _ =>
      pose proof (AppLedger.create_transaction_appends _ _ _ _ _ Hc)
        as (Hkb & Hkc & Hkx & Hknew & Hkt);
      pose proof (create_transaction_hash _ _ _ _ _ Hc) as Hdigest
  end.
  repeat match goal with
  | Hg : py_get _ _ _ _ = (_, Return _) |- _ =>
      let Hv := fresh "Hv" in
      apply py_get_returns in Hg; destruct Hg as (-> & ? & Hv & ->);
      first [subst payload | injection Hv as <-]
  end.
  cbn [db clock draws] in *.
  match goal with
  | Hblock : create_new_block _ ?w1 = (_, Return ?b),
    Hconfirm : confirm_transaction _ _ _ = _ |- _ =>
      pose proof (@commit_returns _ w1 _ _ _ _ (db w) Hkb Hkt Hknew eq_refl eq_refl
                    Hblock Hconfirm)
        as (Hcommitted & Hcredits & Htransfers)
  end.
  match goal with
  | Ha : OK receipt = OK _ |- _ => injection Ha as Ha; subst receipt
  end.
  match type of Hcommitted with
  | committed _ _ ?t ?b => exists t, b
  end.
  eexists. split; [reflexivity|]. split; [reflexivity|].
  cbn [tx_hash submitted_tx_hash report_hash submitted_block_number
       submitted_block_hash submitted_timestamp].
  split; [exact Hdigest|].
  repeat match goal with |- _ /\ _ => split end;
    first [assumption | reflexivity | congruence].
Qed.

End WithRuntime.
End AppRuns.

(** ** [app.py]: the credits table *)

Module AppCreditTable.
Import App.

Section WithRuntime.
Context `{Runtime}.

Lemma preserves_raising {D A} (P E : D -> Prop) (m : M D A) :
  preserves P m -> (forall d, P d -> E d) -> hoare P m (fun _ => P) E.
Proof.
  intros Hm HE. eapply hoare_weaken; [exact Hm | auto | auto | exact HE].
Qed.

Lemma on_credits_create_transaction (R : list carbon_credit -> Prop)
    tx_type from_entity to_entity data :
  preserves (fun d => R (carbon_credits d))
            (create_transaction tx_type from_entity to_entity data).
Proof.
  apply hoare_by_runs.
  - intros w w' h HR Hrun.
    destruct (AppLedger.create_transaction_appends _ _ _ _ _ Hrun) as (_ & Hc & _).
    rewrite Hc. exact HR.
  - intros w w' e HR Hrun.
    rewrite (AppLedger.create_transaction_raises _ _ _ _ _ Hrun). exact HR.
Qed.

Lemma on_credits_create_new_block (R : list carbon_credit -> Prop) txs :
  preserves (fun d => R (carbon_credits d)) (create_new_block txs).
Proof.
  apply hoare_by_runs.
  - intros w w' b HR Hrun.
    destruct (AppCredits.create_new_block_returns _ _ Hrun) as (_ & _ & _ & Hc & _).
    rewrite Hc. exact HR.
  - intros w w' e HR Hrun.
    rewrite (AppCommit.create_new_block_raises _ _ Hrun). exact HR.
Qed.

Lemma on_credits_execute (R : list carbon_credit -> Prop) (f : database -> outcome database) :
  (forall d d', f d = Return d' -> carbon_credits d' = carbon_credits d) ->
  preserves (fun d => R (carbon_credits d)) (execute f).
Proof.
  intros Hf. apply preserves_execute. intros d d' HR Hd.
  rewrite (Hf _ _ Hd). exact HR.
Qed.

Lemma confirm_transaction_credits n h d d' :
  confirm_transaction n h d = Return d' -> carbon_credits d' = carbon_credits d.
Proof. intros Hd. inversion Hd. reflexivity. Qed.

Lemma insert_credit_transfer_credits x d d' :
  insert_credit_transfer x d = Return d' -> carbon_credits d' = carbon_credits d.
Proof.
  unfold insert_credit_transfer. destruct (existsb _ _); [discriminate|].
  intros Hd. inversion Hd. reflexivity.
Qed.

Lemma not_in_ids (id : string) (cs : list carbon_credit) :
  existsb (fun x => String.eqb (credit_id x) id) cs = false -> ~ In id (map credit_id cs).
Proof.
  intros Hex Hin. apply in_map_iff in Hin. destruct Hin as (c & Hc & Hin).
  assert (Htrue : existsb (fun x => String.eqb (credit_id x) id) cs = true).
  { apply existsb_exists. exists c. split; [exact Hin|]. apply String.eqb_eq. exact Hc. }
  congruence.
Qed.

Lemma insert_carbon_credit_well_formed (c : carbon_credit) :
  status c = "active" ->
  preserves (fun d => well_formed_credits (carbon_credits d))
            (execute (insert_carbon_credit c)).
Proof.
  intros Hactive. apply preserves_execute. intros d d' [Hnodup Hstatus] Hd.
  unfold insert_carbon_credit in Hd.
  destruct (existsb _ _) eqn:Hnew; [discriminate|]. inversion Hd; subst d'; clear Hd.
  cbn [carbon_credits with_carbon_credits]. split.
  - rewrite map_app. cbn [map].
    apply NoDup_app; [exact Hnodup | repeat constructor; intros [] |].
    intros x Hx [<- | []]. exact (not_in_ids _ _ Hnew Hx).
  - intros x Hx. apply in_app_or in Hx. destruct Hx as [Hx | [<- | []]].
    + apply Hstatus. exact Hx.
    + left. exact Hactive.
Qed.

Lemma updates_keep_credits_well_formed to_owner amount id c :
  hoare (fun d => selected id c (carbon_credits d))
        (execute (reassign_credit to_owner amount id) ;;
         execute (mark_transferred id))
        (fun _ d => well_formed_credits (carbon_credits d))
        (fun d => well_formed_credits (carbon_credits d)).
Proof.
  intros w [Hwf Hfind]. unfold bind, execute.
  pose proof (AppBalances.updates_are_transferred_rows to_owner amount id (db w)) as Hd.
  destruct (reassign_credit to_owner amount id (db w)) as [d1|]; [|contradiction].
  cbn [db clock draws].
  destruct (mark_transferred id d1) as [d2|]; [|contradiction].
  destruct Hd as (_ & _ & _ & Hcredits). cbn [db]. rewrite Hcredits.
  eapply AppBalances.transfer_keeps_credits_well_formed; eassumption.
Qed.

(** One step of a route for a predicate on the credits table. *)
Ltac credits_step :=
  first
    [ apply preserves_ret | apply preserves_raise | apply preserves_now
    | apply preserves_new_uuid | apply preserves_query | apply preserves_py_get
    | apply on_credits_create_transaction
    | apply on_credits_create_new_block
    | apply on_credits_execute;
      first [ apply confirm_transaction_credits | apply insert_credit_transfer_credits ]
    | apply insert_carbon_credit_well_formed; reflexivity
    | apply preserves_connection
    | apply preserves_bind; [| intro]
    | match goal with
      | |- preserves _ (match ?x with _ => _ end) => destruct x
      end
    | progress cbv zeta ].

Lemma serve_credits (r : request) (w : world database) :
  well_formed_credits (carbon_credits (db w)) ->
  well_formed_credits (carbon_credits (db (serve r w))).
Proof.
  intros HI. destruct r as [n p v | n p a s o | id f t a p]; cbn [serve].
  - unfold submit_verification_report.
    apply (AppFacts.try_except_preserves
             (I := fun d => well_formed_credits (carbon_credits d))); [|exact HI].
    repeat credits_step.
  - unfold issue_carbon_credits.
    apply (AppFacts.try_except_preserves
             (I := fun d => well_formed_credits (carbon_credits d))); [|exact HI].
    repeat credits_step.
  - unfold transfer_carbon_credits.
    apply (AppFacts.try_except_preserves
             (I := fun d => well_formed_credits (carbon_credits d))); [|exact HI].
    eapply hoare_bind with
      (R := fun ci d => well_formed_credits (carbon_credits d) /\
                        select_active_credit id d = ci).
    { intros w0 Hw0. unfold connection, query. cbn [db]. auto. }
    intros [credit|]; [|apply hoare_ret; tauto].
    cbv zeta. destruct (negb _); [apply hoare_ret; tauto|].
    destruct (Qltb _ _); [apply hoare_ret; tauto|].
    change (fun d => well_formed_credits (carbon_credits d) /\
                     select_active_credit id d = Some credit)
      with (fun d => selected id credit (carbon_credits d)).
    assert (Hsel : forall d, selected id credit (carbon_credits d) ->
                             well_formed_credits (carbon_credits d))
      by (intros d [Hd _]; exact Hd).
    eapply hoare_bind;
      [apply preserves_raising; [apply preserves_new_uuid | exact Hsel] | intros u].
    cbv zeta.
    eapply hoare_bind;
      [apply preserves_raising; [apply on_credits_create_transaction | exact Hsel]
      | intros h].
    eapply hoare_bind with (R := fun _ d => well_formed_credits (carbon_credits d)).
    { eapply hoare_connection; [|exact Hsel].
      eapply hoare_bind; [apply preserves_raising; [apply preserves_now | exact Hsel]|].
      intros ts.
      eapply hoare_bind;
        [apply preserves_raising;
         [apply on_credits_execute; apply insert_credit_transfer_credits | exact Hsel]|].
      intros u1. apply updates_keep_credits_well_formed. }
    intros u2. repeat credits_step.
Qed.

Lemma reachable_credits (w : world database) :
  reachable w -> well_formed_credits (carbon_credits (db w)).
Proof.
  induction 1 as [|w r _ IH]; [| apply serve_credits; exact IH].
  split; [constructor | intros c []].
Qed.

(** In a reachable world no two credits share an id; a credit is active or
    transferred, and a transferred credit holds no credits. *)
Theorem transferred_credits_are_empty (w : world database) :
  reachable w ->
  NoDup (map credit_id (carbon_credits (db w))) /\
  forall c, In c (carbon_credits (db w)) ->
    status c = "active" \/ (status c = "transferred" /\ (credits_amount c == 0)%Q).
Proof. intros Hr. exact (reachable_credits Hr). Qed.

End WithRuntime.
End AppCreditTable.

(** ** [app.py]: the routes, one request after another *)

Module AppRoutes.
Import App.

Section WithRuntime.
Context `{Runtime}.

(** Restarting the service on a ledger that was reached by serving requests
    changes nothing: [init_database] finds blocks, and creates no second
    genesis block. *)
Theorem restart_keeps_the_ledger (w : world database) :
  reachable w -> init_database w = (w, Return tt).
Proof.
  intros Hr. destruct (AppFacts.reachable_chain Hr) as (Hne & _).
  unfold init_database, connection, bind, query. cbn [db clock draws].
  destruct (blocks (db w)) as [|b bs] eqn:Hbs; [contradiction|]. reflexivity.
Qed.

Lemma no_last_block_no_blocks (d : database) :
  select_last_block d = None -> blocks d = [].
Proof.
  unfold select_last_block. destruct (blocks d) as [|b bs]; [reflexivity|].
  simpl. intros Hnone. exfalso. revert b Hnone.
  induction bs as [|x bs IH]; simpl; intros b Hnone; [discriminate|].
  destruct (Nat.ltb _ _); eapply IH; exact Hnone.
Qed.

(** [create_new_block] and [get_last_block]: the block that was created is
    the last block, one number above the block that was the last before, and
    it names that block's hash.  Without any block, and only then, the call
    raises "No genesis block found", and writes nothing. *)
Theorem new_block_becomes_last_block txs (w w' : world database) (result : outcome block) :
  create_new_block txs w = (w', result) ->
  match result with
  | Return b =>
      get_last_block w' = (w', Return (Some b)) /\
      exists last,
        get_last_block w = (w, Return (Some last)) /\
        block_number b = block_number last + 1 /\
        previous_hash b = block_hash last /\
        transactions_count b = length txs
  | Raise e =>
      db w' = db w /\
      (e = PlainException "No genesis block found" <-> blocks (db w) = [])
  end.
Proof.
  unfold create_new_block, get_last_block, bind, connection, query.
  cbn [db clock draws].
  destruct (select_last_block (db w)) as [last|] eqn:Hlast.
  - rewrite AppCommit.append_block_after_run. cbv zeta.
    destruct (insert_block _ (db w)) as [d'|e] eqn:Hinsert;
      intros Hrun; inversion Hrun; subst; clear Hrun; cbn [db].
    + unfold insert_block in Hinsert.
      destruct (existsb _ _); [discriminate|].
      destruct (existsb _ _); [discriminate|].
      inversion Hinsert; subst d'; clear Hinsert.
      split.
      * unfold select_last_block in *. cbn [blocks with_blocks].
        rewrite fold_left_app, Hlast. cbn [fold_left highest next_block block_number].
        replace (Nat.ltb (block_number last) (block_number last + 1)) with true
          by (symmetry; apply Nat.ltb_lt; lia).
        reflexivity.
      * exists last. repeat split.
    + split; [reflexivity|]. split.
      * intros ->. unfold insert_block in Hinsert.
        destruct (existsb _ _); [discriminate|].
        destruct (existsb _ _); discriminate.
      * intros Hnone. unfold select_last_block in Hlast. rewrite Hnone in Hlast.
        discriminate.
  - intros Hrun; inversion Hrun; subst; clear Hrun.
    split; [reflexivity|]. split; [intros _|reflexivity].
    apply no_last_block_no_blocks. exact Hlast.
Qed.

Lemma try_except_refused {A} (m : M database (reply A)) (w w' : world database)
    (r : reply A) :
  try_except m w = (w', r) -> (forall e, r <> InternalServerError e) ->
  m w = (w', Return r).
Proof.
  unfold try_except. destruct (m w) as [w1 [r1|e]]; intros Hm Hr.
  - congruence.
  - exfalso. apply (Hr e). congruence.
Qed.

(** A transfer that is refused (404, 403 or 400) has changed nothing: no
    row, no clock reading, no UUID.  It is refused with 404 when no active
    credit has the id, with 403 when the active credit belongs to another
    owner, and with 400 when its balance is below the amount. *)
Theorem refused_transfer_changes_nothing (w w' : world database)
    (credit_id from_owner to_owner : string) (credits_amount transfer_price : Q)
    (r : reply transfer) :
  transfer_carbon_credits credit_id from_owner to_owner credits_amount transfer_price w
  = (w', r) ->
  (forall receipt, r <> OK receipt) -> (forall e, r <> InternalServerError e) ->
  w' = w /\
  match select_active_credit credit_id (db w) with
  | None => r = CreditNotFoundOrInactive
  | Some credit =>
      (owner_id credit <> from_owner /\ r = OwnedBy (owner_id credit) from_owner) \/
      (owner_id credit = from_owner /\
       (App.credits_amount credit < credits_amount)%Q /\
       r = InsufficientCredits (App.credits_amount credit) credits_amount)
  end.
Proof.
  intros Hrun Hnot_ok Hnot_failed.
  apply try_except_refused in Hrun; [|exact Hnot_failed].
  unfold transfer_carbon_credits in Hrun. returned Hrun.
  - split; [reflexivity|]. left.
    match goal with
    | Ho : negb (String.eqb _ _) = true |- _ =>
        apply negb_true_iff, String.eqb_neq in Ho
    end.
    split; [assumption | reflexivity].
  - split; [reflexivity|]. right.
    match goal with
    | Ho : negb (String.eqb _ _) = false |- _ =>
        apply negb_false_iff, String.eqb_eq in Ho
    end.
    match goal with
    | Hq : Qltb _ _ = true |- _ => unfold Qltb in Hq; apply Z.ltb_lt in Hq
    end.
    repeat split; assumption.
  - exfalso. eapply Hnot_ok. reflexivity.
  - split; reflexivity.
Qed.


Lemma find_new_row {A} (key : A -> string) (l : list A) (x : A) :
  existsb (fun y => String.eqb (key y) (key x)) l = false ->
  find (fun y => String.eqb (key y) (key x)) l = None /\
  find (fun y => String.eqb (key y) (key x)) (l ++ [x]) = Some x.
Proof.
  induction l as [|y l IH]; cbn [existsb find app]; intros Hex.
  - rewrite String.eqb_refl. split; reflexivity.
  - apply orb_false_iff in Hex. destruct Hex as [Hy Hl]. rewrite Hy. apply IH. exact Hl.
Qed.

Lemma confirmed_row_of_new (n : nat) (ts : list transaction) (t : transaction) :
  existsb (fun x => String.eqb (tx_hash x) (tx_hash t)) ts = false ->
  map (confirmed_row n (tx_hash t)) (ts ++ [t])
  = ts ++ [Transaction (tx_hash t) (Some n) (tx_type t) (from_entity t) (to_entity t)
             (data t) (tx_timestamp t) "confirmed"].
Proof.
  intros Hnew. rewrite map_app.
  rewrite AppLedger.confirmed_row_others by (apply AppLedger.not_in_hashes; exact Hnew).
  cbn [map]. unfold confirmed_row. rewrite String.eqb_refl. reflexivity.
Qed.

(** What [committed] says of the two ledger tables, row by row. *)
Lemma committed_rows (d d' : database) (t : transaction) (b : block) :
  committed d d' t b ->
  blocks d' = blocks d ++ [b] /\
  transactions d' =
    transactions d
      ++ [Transaction (tx_hash t) (Some (block_number b)) (tx_type t) (from_entity t)
            (to_entity t) (data t) (tx_timestamp t) "confirmed"].
Proof.
  intros (Hnew & _ & _ & Hb & Ht). split; [exact Hb|].
  rewrite Ht. apply confirmed_row_of_new. exact Hnew.
Qed.

(** An issuance that replied 200 has stored a new credit under the id of the
    reply: active, owned by the NGO, with the amount asked for, and worth
    that amount times the price, which is 15.50 when the request names none.
    The credit is the one a transfer would select, and the transaction of the
    reply is confirmed in the block of the reply. *)
Theorem issued_credit_is_stored (w w' : world database) (ngo_id project_id : string)
    (credits_amount verification_score : Q) (options : issue_options)
    (receipt : issuance) :
  issue_carbon_credits ngo_id project_id credits_amount verification_score options w
  = (w', OK receipt) ->
  credit_by_id (issued_credit_id receipt) (db w) = None /\
  exists credit price t b,
    credit_by_id (issued_credit_id receipt) (db w') = Some credit /\
    select_active_credit (issued_credit_id receipt) (db w') = Some credit /\
    status credit = "active" /\
    owner_id credit = ngo_id /\
    App.ngo_id credit = ngo_id /\
    App.project_id credit = project_id /\
    App.credits_amount credit = credits_amount /\
    get_price (opt_price_per_credit options) = Some price /\
    (opt_price_per_credit options = Absent -> price = (31 # 2)%Q) /\
    price_per_credit credit = price /\
    market_value credit = (credits_amount * price)%Q /\
    In t (transactions (db w')) /\
    tx_hash t = issued_tx_hash receipt /\
    credit_tx_hash credit = issued_tx_hash receipt /\
    tx_status t = "confirmed" /\
    tx_block_number t = Some (issued_block_number receipt) /\
    In b (blocks (db w')) /\
    block_number b = issued_block_number receipt /\
    block_hash b = issued_block_hash receipt.
Proof.
  intros Hrun.
  destruct (AppRuns.issue_carbon_credits_returns _ _ _ _ _ _ Hrun)
    as (price & c & t & b & Hprice & Hc & Hfresh & Hcredits & _ & Hcommitted
        & _ & _ & _ & Hreceipt).
  destruct (committed_rows Hcommitted) as (Hblocks & Htxs).
  destruct (@find_new_row _ credit_id _ _ Hfresh) as (Hbefore & Hafter).
  assert (Hid : issued_credit_id receipt = credit_id c) by (rewrite Hreceipt; reflexivity).
  unfold credit_by_id. rewrite Hid, Hcredits. split; [exact Hbefore|].
  exists c, price,
    (Transaction (tx_hash t) (Some (block_number b)) (tx_type t) (from_entity t)
       (to_entity t) (data t) (tx_timestamp t) "confirmed"), b.
  split; [exact Hafter|]. split.
  { apply AppCredits.active_credit_is_selected.
    - unfold credit_by_id. rewrite Hcredits. exact Hafter.
    - rewrite Hc. reflexivity. }
  rewrite Htxs, Hblocks, Hreceipt.
  cbn [issued_tx_hash issued_block_number issued_block_hash].
  rewrite Hc. cbn.
  repeat match goal with |- _ /\ _ => split end;
    try reflexivity; try assumption.
  - intros Habsent. rewrite Habsent in Hprice. cbn in Hprice. congruence.
  - apply in_or_app. right. left. reflexivity.
  - apply in_or_app. right. left. reflexivity.
Qed.


(** *** The statistics of [/ledger/blockchain] *)





Lemma select_after_transfer to_owner amount id cs c :
  NoDup (map App.credit_id cs) ->
  find (fun x => String.eqb (App.credit_id x) id && String.eqb (status x) "active") cs
  = Some c ->
  find (fun x => String.eqb (App.credit_id x) id && String.eqb (status x) "active")
       (map (transferred_row to_owner amount id) cs)
  = if Qeq_bool (App.credits_amount c - amount) 0
    then None
    else Some (set_owner_and_amount to_owner (App.credits_amount c - amount)%Q c).
Proof.
  induction cs as [|x cs IH]; intros Hnodup Hfind; [discriminate|].
  inversion Hnodup as [|? ? Hx Hcs]; subst.
  destruct (AppBalances.select_active_found _ _ Hfind) as (Hin & Hid & Hactive).
  cbn [map find].
  destruct (String.eqb (App.credit_id x) id) eqn:Heq.
  - apply String.eqb_eq in Heq.
    assert (x = c).
    { apply (AppBalances.unique_key App.credit_id (x :: cs)); auto;
        [left; reflexivity | congruence]. }
    subst x.
    rewrite AppBalances.transferred_rows_others by (rewrite <- Heq; exact Hx).
    unfold transferred_row. rewrite Heq, String.eqb_refl.
    cbn [App.credit_id set_owner_and_amount App.credits_amount].
    rewrite Heq, String.eqb_refl. cbn [andb].
    destruct (Qeq_bool (App.credits_amount c - amount) 0);
      cbn [App.credit_id status set_status set_owner_and_amount].
    + rewrite Heq, String.eqb_refl. cbn [andb String.eqb Ascii.eqb Bool.eqb].
      clear -Hx Heq. rewrite <- Heq in *.
      induction cs as [|y cs IH]; [reflexivity|]. cbn [find].
      destruct (String.eqb (App.credit_id y) (App.credit_id c)) eqn:Hy.
      * exfalso. apply Hx. left. apply String.eqb_eq. exact Hy.
      * cbn [andb]. apply IH. intros Hin. apply Hx. right. exact Hin.
    + rewrite Heq, String.eqb_refl, Hactive. reflexivity.
  - cbn [find] in Hfind. rewrite Heq in Hfind. cbn [andb] in Hfind.
    apply String.eqb_neq in Heq.
    rewrite (@AppBalances.transferred_row_other to_owner amount id x Heq).
    apply String.eqb_neq in Heq. rewrite Heq. cbn [andb]. apply IH; assumption.
Qed.

(** After a transfer that replied 200 in a reachable world, the seller can
    transfer nothing more of the credit, whatever is asked: the request is
    refused with 404 when the whole balance was moved (the credit is no
    longer active), and with 403 otherwise (the rest belongs to the buyer). *)
Theorem seller_cannot_transfer_twice (w w' : world database)
    (credit_id from_owner to_owner : string) (credits_amount transfer_price : Q)
    (receipt : transfer) (credit : carbon_credit)
    (to_owner' : string) (credits_amount' transfer_price' : Q) :
  reachable w -> from_owner <> to_owner ->
  select_active_credit credit_id (db w) = Some credit ->
  transfer_carbon_credits credit_id from_owner to_owner credits_amount transfer_price w
  = (w', OK receipt) ->
  transfer_carbon_credits credit_id from_owner to_owner' credits_amount' transfer_price' w'
  = (w', if Qeq_bool (App.credits_amount credit - credits_amount) 0
         then CreditNotFoundOrInactive
         else OwnedBy to_owner from_owner).
Proof.
  intros Hr Hother Hcredit Hrun.
  destruct (AppRuns.transfer_carbon_credits_returns _ _ _ _ _ _ Hrun)
    as (credit0 & x & t & b & Hselected & _ & _ & _ & _ & _ & Hcredits & _).
  assert (credit0 = credit) by congruence. subst credit0.
  destruct (AppCreditTable.reachable_credits Hr) as (Hnodup & _).
  unfold transfer_carbon_credits, try_except, bind, connection, query.
  cbn [db clock draws]. unfold select_active_credit in *. rewrite Hcredits.
  rewrite (@select_after_transfer to_owner credits_amount credit_id _ _ Hnodup Hselected).
  destruct (Qeq_bool _ 0); [destruct w'; reflexivity|].
  cbn [owner_id set_owner_and_amount].
  replace (String.eqb to_owner from_owner) with false
    by (symmetry; apply String.eqb_neq; congruence).
  cbn [negb]. destruct w'; reflexivity.
Qed.


(** *** Submissions *)

(** A submission whose [verification_data] is no JSON object never replies
    200.  When the error it replies is the [AttributeError] of the summary
    ([verification_data.get]), the submission has been recorded all the same:
    its block is appended and its transaction is confirmed in that block. *)
Theorem submission_of_non_object_is_recorded (w w' : world database)
    (ngo_id project_id : string) (verification_data : json) (r : reply submission) :
  (forall members, verification_data <> JObj members) ->
  submit_verification_report ngo_id project_id verification_data w = (w', r) ->
  exists e,
    r = InternalServerError e /\
    (e = AttributeError ->
     exists h b,
       blocks (db w') = blocks (db w) ++ [b] /\
       transactions (db w') =
         transactions (db w)
           ++ [Transaction h (Some (block_number b)) "verification_submission" ngo_id
                 "ecoledger_system"
                 (json_dumps false
                    (JObj [("project_id", JStr project_id);
                           ("verification_data", verification_data);
                           ("action", JStr "submit_verification_report")]))
                 (isoformat_now (clock w)) "confirmed"]).
Proof.
  intros Hshape Hrun. unfold submit_verification_report, try_except in Hrun.
  match type of Hrun with
  | match ?m w with _ => _ end = _ => destruct (m w) as [w1 [r1|e]] eqn:Hm
  end.
  - exfalso. returned Hm.
    repeat match goal with
    | Hg : py_get _ _ _ _ = (_, Return _) |- _ =>
        apply py_get_returns in Hg; destruct Hg as (_ & members & Hv & _);
        exact (Hshape members Hv)
    end.
  - injection Hrun as <- <-. exists e. split; [reflexivity|]. intros He. subst e.
    unfold bind in Hm.
    destruct (create_transaction _ _ _ _ w) as [w2 [h|e2]] eqn:Hcreate.
    2:{ exfalso. unfold create_transaction, bind, new_uuid, now, connection, execute,
          ret, insert_transaction in Hcreate. cbn [db clock draws] in Hcreate.
        destruct (existsb _ _); inversion Hcreate; subst; discriminate Hm. }
    cbv zeta in Hm.
    destruct (create_new_block _ w2) as [w3 [b|e3]] eqn:Hblock.
    2:{ exfalso. injection Hm as _ He3. subst e3.
        unfold create_new_block, get_last_block, bind, connection, query in Hblock.
        cbn [db clock draws] in Hblock.
        destruct (select_last_block (db w2)); [|inversion Hblock].
        rewrite AppCommit.append_block_after_run in Hblock. cbv zeta in Hblock.
        unfold insert_block in Hblock.
        destruct (existsb _ _); [inversion Hblock|].
        destruct (existsb _ _); inversion Hblock. }
    destruct (AppLedger.create_transaction_appends _ _ _ _ _ Hcreate)
      as (Hkb & _ & _ & Hknew & Hkt).
    destruct (connection (execute (confirm_transaction (block_number b) h)) w3)
      as [w4 [u|e4]] eqn:Hconfirm; [|inversion Hconfirm].
    unfold connection, execute in Hconfirm.
    destruct (confirm_transaction (block_number b) h (db w3)) as [d4|] eqn:Hd4;
      [|discriminate Hconfirm].
    injection Hconfirm as <- _.
    pose proof (@AppRuns.commit_returns _ _ w2 _ _ _ _ (db w) Hkb Hkt Hknew eq_refl
                  eq_refl Hblock Hd4) as (Hcommitted & _).
    destruct (committed_rows Hcommitted) as (Hblocks & Htxs).
    assert (Hw1 : db w1 = d4).
    { destruct verification_data; try (exfalso; exact (Hshape _ eq_refl));
        cbn in Hm; unfold raise in Hm; injection Hm as <-; reflexivity. }
    rewrite Hw1. exists h, b. split; [exact Hblocks | exact Htxs].
Qed.

Lemma filter_none {A} (p : A -> bool) (l : list A) :
  (forall x, In x l -> p x = false) -> filter p l = [].
Proof.
  induction l as [|x l IH]; cbn [filter]; intros Hp; [reflexivity|].
  rewrite (Hp x (or_introl eq_refl)). apply IH. intros y Hy. apply Hp. right. exact Hy.
Qed.

(** A submission that replied 200, queried by the [tx_hash] of the reply
    (other parameters are not looked at), is the one report found, with the
    payload submitted, provided the payload survives
    [json.loads(json.dumps(...))] inside the stored envelope.  The entry's
    [status] is the time of the submission, not "confirmed", and its
    [timestamp] is empty: the route reads the row one column too far. *)
Theorem submitted_report_is_found_by_its_hash (w w' : world database)
    (ngo_id project_id : string) (verification_data : json) (receipt : submission)
    (other_project_id other_ngo_id : option string) :
  (forall s, sha256_hexdigest s <> EmptyString) ->
  (let envelope := JObj [("project_id", JStr project_id);
                         ("verification_data", verification_data);
                         ("action", JStr "submit_verification_report")] in
   json_loads (json_dumps false envelope) = Some envelope) ->
  submit_verification_report ngo_id project_id verification_data w = (w', OK receipt) ->
  query_verification_report (Some (submitted_tx_hash receipt))
    other_project_id other_ngo_id w'
  = (w', Found [Report (submitted_tx_hash receipt)
                       (Some (submitted_block_number receipt))
                       ngo_id None (isoformat_now (clock w))
                       verification_data (JStr project_id)]).
Proof.
  intros Hdigest Hcodec Hrun. cbv zeta in Hcodec.
  destruct (@AppRuns.submit_verification_report_returns _ _ _ _ _ _ _ Hrun)
    as (t & b & members & Hpayload & Ht & (s & Hs) & Hcommitted & _ & _ & Hhash & _
        & Hnumber & _).
  destruct (committed_rows Hcommitted) as (_ & Htxs).
  destruct Hcommitted as (Hnew & _).
  rewrite Hhash, Hnumber.
  assert (Hgiven : given (Some (tx_hash t)) = true).
  { specialize (Hdigest s). rewrite <- Hs in Hdigest.
    destruct (tx_hash t); [contradiction | reflexivity]. }
  unfold query_verification_report, bind, connection, query.
  rewrite Hgiven. cbn [orb negb db clock draws].
  unfold select_confirmed. rewrite Hgiven, Htxs, filter_app.
  cbn [or_default].
  rewrite filter_none.
  2:{ intros x Hx. apply andb_false_iff. right.
      destruct (String.eqb (tx_hash x) (tx_hash t)) eqn:Heq; [|reflexivity].
      exfalso. assert (Htrue : existsb (fun y => String.eqb (tx_hash y) (tx_hash t))
                                (transactions (db w)) = true).
      { apply existsb_exists. exists x. split; assumption. }
      congruence. }
  cbn [filter app tx_status tx_hash String.eqb Ascii.eqb Bool.eqb andb].
  rewrite String.eqb_refl.
  cbn [for_each]. unfold format_report, bind, py_loads.
  rewrite Ht. cbn [data tx_hash tx_block_number from_entity tx_timestamp].
  rewrite Hcodec. unfold ret. cbn [py_get dict_get String.eqb Ascii.eqb Bool.eqb].
  unfold ret. reflexivity.
Qed.

End WithRuntime.
End AppRoutes.

(** ** [SELECT ... ORDER BY ... DESC LIMIT ...] *)

Section Selections.
Context {A : Type} (geb : A -> A -> bool).

Lemma in_insert_desc (x a : A) (l : list A) :
  In x (insert_desc geb a l) <-> x = a \/ In x l.
Proof.
  induction l as [|y l IH]; cbn [insert_desc].
  - cbn. intuition.
  - destruct (geb a y); cbn [In]; [intuition|]. rewrite IH. intuition.
Qed.

Lemma in_order_by_desc (x : A) (l : list A) :
  In x (order_by_desc geb l) <-> In x l.
Proof.
  induction l as [|a l IH]; [reflexivity|].
  cbn [order_by_desc fold_right]. fold (order_by_desc geb l).
  rewrite in_insert_desc, IH. cbn. intuition.
Qed.

Lemma length_insert_desc (a : A) (l : list A) :
  length (insert_desc geb a l) = S (length l).
Proof.
  induction l as [|y l IH]; cbn [insert_desc]; [reflexivity|].
  destruct (geb a y); cbn [length]; [reflexivity|]. rewrite IH. reflexivity.
Qed.

Lemma length_order_by_desc (l : list A) : length (order_by_desc geb l) = length l.
Proof.
  induction l as [|a l IH]; [reflexivity|].
  cbn [order_by_desc fold_right]. fold (order_by_desc geb l).
  rewrite length_insert_desc, IH. reflexivity.
Qed.

Hypothesis geb_total : forall x y, geb x y = false -> geb y x = true.

Lemma insert_desc_sorted (a : A) (l : list A) :
  Sorted (fun x y => geb x y = true) l ->
  Sorted (fun x y => geb x y = true) (insert_desc geb a l).
Proof.
  induction l as [|y l IH]; cbn [insert_desc]; intros Hl.
  - repeat constructor.
  - destruct (geb a y) eqn:Hay.
    + constructor; [exact Hl|]. constructor. exact Hay.
    + inversion Hl as [|? ? Hl' Hhd]; subst. constructor; [apply IH; exact Hl'|].
      destruct l as [|z l]; cbn [insert_desc].
      * constructor. apply geb_total. exact Hay.
      * destruct (geb a z); constructor.
        -- apply geb_total. exact Hay.
        -- inversion Hhd; assumption.
Qed.

Lemma order_by_desc_sorted (l : list A) :
  Sorted (fun x y => geb x y = true) (order_by_desc geb l).
Proof.
  induction l as [|a l IH]; [constructor|].
  cbn [order_by_desc fold_right]. apply insert_desc_sorted. exact IH.
Qed.

Lemma firstn_sorted (R : A -> A -> Prop) (n : nat) (l : list A) :
  Sorted R l -> Sorted R (firstn n l).
Proof.
  revert l. induction n as [|n IH]; intros l Hl; [constructor|].
  destruct l as [|x l]; [constructor|]. cbn [firstn].
  inversion Hl as [|? ? Hl' Hhd]; subst. constructor; [apply IH; exact Hl'|].
  destruct l as [|y l]; [rewrite firstn_nil; constructor|].
  destruct n; cbn [firstn]; constructor.
  inversion Hhd; assumption.
Qed.

Lemma sql_limit_sorted (R : A -> A -> Prop) (n : Z) (l : list A) :
  Sorted R l -> Sorted R (sql_limit n l).
Proof.
  intros Hl. unfold sql_limit. destruct (n <? 0)%Z; [exact Hl|].
  apply firstn_sorted. exact Hl.
Qed.

Lemma in_sql_limit (n : Z) (x : A) (l : list A) : In x (sql_limit n l) -> In x l.
Proof.
  unfold sql_limit. destruct (n <? 0)%Z; [auto|]. intros Hx.
  rewrite <- (firstn_skipn (Z.to_nat n) l). apply in_or_app. left. exact Hx.
Qed.

Lemma length_sql_limit (n : Z) (l : list A) :
  (0 <= n)%Z -> length (sql_limit n l) <= Z.to_nat n.
Proof.
  intros Hn. unfold sql_limit.
  replace (n <? 0)%Z with false by (symmetry; apply Z.ltb_ge; exact Hn).
  apply firstn_le_length.
Qed.

Lemma sql_limit_all (n : Z) (l : list A) :
  length (sql_limit n l) < Z.to_nat n \/ (n < 0)%Z -> sql_limit n l = l.
Proof.
  unfold sql_limit. destruct (n <? 0)%Z eqn:Hn; [reflexivity|].
  apply Z.ltb_ge in Hn. intros [Hlen | Hneg]; [|lia].
  apply firstn_all2. rewrite length_firstn in Hlen. lia.
Qed.

End Selections.

Module AppListing.
Import App.

Section WithRuntime.
Context `{Runtime}.

(** [/ledger/credits].  The limit is 50 when none is given.  A limit that
    does not fit 64 bits cannot be bound to the query: the route answers 500
    with the [OverflowError].  Otherwise it answers 200, and the credits
    listed are stored credits that have the status asked for ("active" when
    none is) and, when an owner is named, that owner; they come by descending
    issuance date, and there are at most [limit] of them unless the limit is
    negative.  When the limit has cut nothing off, every such credit is
    listed.  Nothing changes either way. *)
Theorem listed_credits_match_the_filter (w : world database)
    (owner status : option string) (limit : option Z) :
  if sqlite_integer (or_default limit 50%Z)
  then
    exists listing,
      list_carbon_credits owner status limit w = (w, OK listing) /\
      total_count listing = length (credits listing) /\
      (forall c, In c (credits listing) ->
         In c (carbon_credits (db w)) /\
         App.status c = or_default status "active" /\
         (given owner = true -> Some (owner_id c) = owner)) /\
      ((0 <= or_default limit 50)%Z ->
       length (credits listing) <= Z.to_nat (or_default limit 50%Z)) /\
      (length (credits listing) < Z.to_nat (or_default limit 50%Z)
       \/ (or_default limit 50 < 0)%Z ->
       forall c, In c (carbon_credits (db w)) ->
         App.status c = or_default status "active" ->
         (given owner = true -> Some (owner_id c) = owner) ->
         In c (credits listing)) /\
      Sorted (fun x y => String.leb (issuance_date y) (issuance_date x) = true)
             (credits listing)
  else
    list_carbon_credits owner status limit w = (w, InternalServerError OverflowError).
Proof.
  unfold list_carbon_credits, try_except, bind, connection, query, ret, raise.
  cbn [db clock draws].
  destruct (sqlite_integer (or_default limit 50%Z)); [|destruct w; reflexivity].
  eexists. split; [reflexivity|].
  cbn [total_count credits]. split; [reflexivity|].
  unfold select_credits. split; [|split; [|split]].
  - intros c Hc. apply in_sql_limit, in_order_by_desc, filter_In in Hc.
    destruct Hc as (Hin & Hc). apply andb_true_iff in Hc. destruct Hc as (Hs & Ho).
    split; [exact Hin|]. split; [apply String.eqb_eq; exact Hs|].
    intros Hgiven. rewrite Hgiven in Ho. apply String.eqb_eq in Ho.
    destruct owner as [o|]; [|discriminate]. cbn in Ho. congruence.
  - apply length_sql_limit.
  - intros Hall c Hin Hs Ho. rewrite (@sql_limit_all _ _ _ Hall).
    apply in_order_by_desc, filter_In. split; [exact Hin|].
    apply andb_true_iff. split; [apply String.eqb_eq; exact Hs|].
    destruct (given owner) eqn:Hgiven; [|reflexivity].
    specialize (Ho eq_refl). subst owner. cbn. apply String.eqb_refl.
  - apply sql_limit_sorted. apply order_by_desc_sorted.
    intros x y Hxy. destruct (String.leb_total (issuance_date y) (issuance_date x));
      congruence.
Qed.

End WithRuntime.
End AppListing.

(** ** [blockchain_api.py]: what a method that returned has written *)

Module SimulatorRuns.
Import Simulator.

Section WithRuntime.
Context `{Runtime}.

Lemma insert_carbon_credit_appends c d d' :
  insert_carbon_credit c d = Return d' ->
  existsb (fun x => String.eqb (credit_id x) (credit_id c)) (carbon_credits d) = false /\
  blocks d' = blocks d /\ transactions d' = transactions d /\
  verification_reports d' = verification_reports d /\
  carbon_credits d' = carbon_credits d ++ [c].
Proof.
  unfold insert_carbon_credit. destruct (existsb _ _); [discriminate|].
  intros Hd. inversion Hd. repeat split.
Qed.

Lemma insert_verification_report_appends r d d' :
  insert_verification_report r d = Return d' ->
  existsb (fun x => String.eqb (report_id x) (report_id r)) (verification_reports d)
  = false /\
  blocks d' = blocks d /\ transactions d' = transactions d /\
  verification_reports d' = verification_reports d ++ [r] /\
  carbon_credits d' = carbon_credits d.
Proof.
  unfold insert_verification_report. destruct (negb _); [discriminate|].
  destruct (existsb _ _); [discriminate|].
  intros Hd. inversion Hd. repeat split.
Qed.

Lemma insert_transaction_rows t d d' :
  insert_transaction t d = Return d' ->
  existsb (fun x => String.eqb (transaction_id x) (transaction_id t)) (transactions d)
  = false /\
  blocks d' = blocks d /\ transactions d' = transactions d ++ [t] /\
  verification_reports d' = verification_reports d /\
  carbon_credits d' = carbon_credits d.
Proof.
  unfold insert_transaction. destruct (existsb _ _); [discriminate|].
  intros Hd. inversion Hd. repeat split.
Qed.

Lemma mark_transferred_rows to_company ts id d d' :
  mark_transferred to_company ts id d = Return d' ->
  blocks d' = blocks d /\ transactions d' = transactions d /\
  verification_reports d' = verification_reports d /\
  carbon_credits d' = map (transferred_row to_company ts id) (carbon_credits d).
Proof. intros Hd. inversion Hd. repeat split. Qed.

Lemma insert_block_row h p ts mr n d d' :
  insert_block h p ts mr n d = Return d' ->
  existsb (fun x => String.eqb (block_hash x) h) (blocks d) = false /\
  blocks d' = blocks d ++ [Block (S (max_block_number (blocks d))) h p ts mr n] /\
  transactions d' = transactions d /\
  verification_reports d' = verification_reports d /\
  carbon_credits d' = carbon_credits d.
Proof.
  unfold insert_block. destruct (existsb _ _); [discriminate|].
  intros Hd. inversion Hd. repeat split.
Qed.

(** The block and the transaction of a commit that returned. *)
Lemma commit_appended h p ts mr (t : transaction) (d d1 d2 : database) :
  insert_block h p ts mr 1 d = Return d1 ->
  insert_transaction t d1 = Return d2 ->
  tx_block_number t = S (max_block_number (blocks d)) ->
  tx_status t = "confirmed" -> data_hash t = mr ->
  appended d d2 (Block (S (max_block_number (blocks d))) h p ts mr 1) t /\
  verification_reports d2 = verification_reports d /\
  carbon_credits d2 = carbon_credits d.
Proof.
  intros Hb Ht Hn Hs Hm.
  destruct (insert_block_row _ _ _ _ _ _ Hb) as (Hnew & Hb1 & Ht1 & Hr1 & Hc1).
  destruct (insert_transaction_rows _ _ Ht) as (Hfresh & Hb2 & Ht2 & Hr2 & Hc2).
  unfold appended. cbn [block_hash block_number transaction_count merkle_root].
  rewrite Ht1 in Hfresh.
  repeat match goal with |- _ /\ _ => split end;
    try assumption; try congruence; reflexivity.
Qed.

Lemma next_number (d : database) (latest : block) :
  select_latest_block d = Some latest ->
  block_number latest + 1 = S (max_block_number (blocks d)).
Proof.
  intros Hlatest. pose proof (SimulatorFacts.next_number_is_assigned d) as Hn.
  rewrite Hlatest in Hn. exact Hn.
Qed.

Lemma simulator_issue_returns ngo report amount price w w' receipt :
  issue_carbon_credits ngo report amount price w = (w', Return receipt) ->
  exists latest b t c,
    select_latest_block (db w) = Some latest /\
    appended (db w) (db w') b t /\
    previous_hash b = block_hash latest /\
    block_number b = block_number latest + 1 /\
    verification_reports (db w') = verification_reports (db w) /\
    existsb (fun x => String.eqb (credit_id x) (credit_id c)) (carbon_credits (db w))
    = false /\
    carbon_credits (db w') = carbon_credits (db w) ++ [c] /\
    c = CarbonCredit (uuid4 (draws w)) ngo None amount price
          match price with
          | Some p => if truthy price then Some (amount * p)%Q else None
          | None => None
          end
          report "available" None /\
    transaction_type t = "issue_credits" /\ from_org t = ngo /\ to_org t = None /\
    receipt = Issuance (credit_id c) (transaction_id t) (block_number b) (block_hash b)
                amount.
Proof.
  intros Hrun. unfold issue_carbon_credits, _get_latest_block, subscript in Hrun.
  returned Hrun. cbn [db clock draws] in *.
  match goal with
  | Hl : select_latest_block _ = Some ?latest,
    Hb : insert_block _ _ _ _ _ _ = Return _,
    Ht : insert_transaction _ _ = Return _,
    Hc : insert_carbon_credit _ _ = Return _ |- _ =>
      pose proof (@next_number _ _ Hl) as Hnext;
      destruct (@commit_appended _ _ _ _ _ _ _ _ Hb Ht Hnext eq_refl eq_refl)
        as (Happended & Hreports & Hcredits);
      destruct (@insert_carbon_credit_appends _ _ _ Hc)
        as (Hfresh & Hb3 & Ht3 & Hr3 & Hc3);
      exists latest
  end.
  match type of Happended with
  | appended _ _ ?b ?t => exists b, t
  end.
  eexists. split; [reflexivity|].
  split.
  { unfold appended in *. rewrite Hb3, Ht3. exact Happended. }
  cbn [previous_hash block_number block_hash credit_id transaction_id transaction_type
       from_org to_org].
  rewrite Hcredits in Hfresh, Hc3.
  repeat match goal with |- _ /\ _ => split end;
    first [reflexivity | congruence | eassumption | idtac].
  all: rewrite <- ?Hnext; reflexivity.
Qed.


Lemma transfer_credits_returns id from_ngo to_company requested w w' receipt :
  transfer_credits id from_ngo to_company requested w = (w', Return receipt) ->
  exists credit latest b t ts,
    select_available_credit id (db w) = Some credit /\
    Qltb (amount credit) (amount_or requested (amount credit)) = false /\
    select_latest_block (db w) = Some latest /\
    appended (db w) (db w') b t /\
    previous_hash b = block_hash latest /\
    block_number b = block_number latest + 1 /\
    verification_reports (db w') = verification_reports (db w) /\
    carbon_credits (db w')
    = map (transferred_row to_company ts id) (carbon_credits (db w)) /\
    transaction_type t = "transfer_credits" /\ from_org t = from_ngo /\
    to_org t = Some to_company /\
    receipt = Transfer (transaction_id t) (block_number b) (block_hash b) id
                (amount_or requested (amount credit)) from_ngo to_company.
Proof.
  intros Hrun. unfold transfer_credits, _get_latest_block, subscript in Hrun.
  returned Hrun. cbn [db clock draws] in *.
  match goal with
  | Hs : select_available_credit _ _ = Some ?credit,
    Hl : select_latest_block _ = Some ?latest,
    Hb : insert_block _ _ _ _ _ _ = Return _,
    Ht : insert_transaction _ _ = Return _,
    Hc : mark_transferred _ ?ts _ _ = Return _ |- _ =>
      pose proof (@next_number _ _ Hl) as Hnext;
      destruct (@commit_appended _ _ _ _ _ _ _ _ Hb Ht Hnext eq_refl eq_refl)
        as (Happended & Hreports & Hcredits);
      destruct (@mark_transferred_rows _ _ _ _ _ Hc) as (Hb3 & Ht3 & Hr3 & Hc3);
      exists credit, latest
  end.
  match type of Happended with
  | appended _ _ ?b ?t => exists b, t
  end.
  eexists. split; [reflexivity|]. split; [assumption|]. split; [reflexivity|].
  split.
  { unfold appended in *. rewrite Hb3, Ht3. exact Happended. }
  cbn [previous_hash block_number block_hash transaction_id transaction_type
       from_org to_org].
  rewrite Hcredits in Hc3.
  repeat match goal with |- _ /\ _ => split end;
    first [reflexivity | congruence | eassumption | idtac].
  all: rewrite <- ?Hnext; reflexivity.
Qed.

(** [_create_genesis_block]: nothing on a chain that has a block, the first
    block on one that has none. *)
Lemma genesis_rows (w : world database) :
  let w0 := fst (_create_genesis_block w) in
  transactions (db w0) = transactions (db w) /\
  verification_reports (db w0) = verification_reports (db w) /\
  carbon_credits (db w0) = carbon_credits (db w) /\
  ((blocks (db w) <> [] /\ blocks (db w0) = blocks (db w)) \/
   (blocks (db w) = [] /\
    exists g, blocks (db w0) = [g] /\ block_number g = 1 /\ previous_hash g = "0")).
Proof.
  unfold _create_genesis_block, _get_latest_block, bind, connection, query, now,
    lift, execute, ret.
  cbn [db clock draws _calculate_hash].
  destruct (select_latest_block (db w)) as [latest|] eqn:Hlatest; cbn [fst db].
  - repeat split. left. split; [|reflexivity].
    intros Hnone. unfold select_latest_block in Hlatest. rewrite Hnone in Hlatest.
    discriminate.
  - pose proof (SimulatorFacts.no_latest_no_blocks _ Hlatest) as Hnone.
    unfold insert_block. rewrite Hnone. cbn [existsb fst db blocks transactions
      verification_reports carbon_credits max_block_number fold_left app].
    repeat split. right. split; [reflexivity|]. eexists. repeat split.
Qed.

Lemma genesis_gives_latest (w w0 : world database) (u : unit) :
  _create_genesis_block w = (w0, Return u) ->
  exists latest, select_latest_block (db w0) = Some latest.
Proof.
  unfold _create_genesis_block, _get_latest_block, bind, connection, query, now,
    lift, execute, ret.
  cbn [db clock draws _calculate_hash].
  destruct (select_latest_block (db w)) as [latest|] eqn:Hlatest.
  - intros Hrun. inversion Hrun; subst. exists latest. exact Hlatest.
  - destruct (insert_block _ _ _ _ _ (db w)) as [d|e] eqn:Hd; cbn [db];
      intros Hrun; inversion Hrun; subst; clear Hrun. cbn [db].
    destruct (insert_block_row _ _ _ _ _ _ Hd) as (_ & Hb & _).
    destruct (select_latest_block d) as [l|] eqn:Hl; [exists l; reflexivity|].
    apply SimulatorFacts.no_latest_no_blocks in Hl. rewrite Hl in Hb.
    destruct (blocks (db w)); discriminate.
Qed.

Lemma simulator_submit_returns ngo project payload w w' receipt :
  submit_verification_report ngo project payload w = (w', Return receipt) ->
  let w0 := fst (_create_genesis_block w) in
  exists members latest b t r,
    payload = JObj members /\
    select_latest_block (db w0) = Some latest /\
    appended (db w0) (db w') b t /\
    previous_hash b = block_hash latest /\
    block_number b = block_number latest + 1 /\
    existsb (fun x => String.eqb (report_id x) (report_id r)) (verification_reports (db w0))
    = false /\
    verification_reports (db w') = verification_reports (db w0) ++ [r] /\
    carbon_credits (db w') = carbon_credits (db w0) /\
    r = VerificationReport (submitted_report_id receipt) ngo project
          (json_dumps false payload) (submitted_data_hash receipt)
          match dict_get "Final_Score" members with Some x => x | None => JNull end
          match dict_get "Carbon_Credits" members with Some x => x | None => JNull end
          (transaction_id t) "submitted" /\
    transaction_type t = "verification_report" /\ from_org t = ngo /\
    to_org t = None /\
    data t = json_dumps false payload /\
    data_hash t = submitted_data_hash receipt /\
    _calculate_hash payload = Return (submitted_data_hash receipt) /\
    submitted_transaction_id receipt = transaction_id t /\
    submitted_block_number receipt = block_number b /\
    submitted_block_hash receipt = block_hash b.
Proof.
  intros Hrun w0. subst w0.
  unfold submit_verification_report, _get_latest_block in Hrun. returned Hrun.
  match goal with
  | Hg : _create_genesis_block w = _ |- _ =>
      rewrite Hg; cbn [fst]; destruct (genesis_gives_latest _ Hg) as (latest & Hlatest)
  end.
  rewrite Hlatest in *.
  repeat match goal with
  | Hg : py_get _ _ _ _ = (_, Return _) |- _ =>
      let Hv := fresh "Hv" in
      apply py_get_returns in Hg; destruct Hg as (-> & ? & Hv & ->);
      first [subst payload | injection Hv as <-]
  end.
  cbn [db clock draws] in *.
  match goal with
  | Hb : insert_block _ _ _ _ _ _ = Return _,
    Ht : insert_transaction _ _ = Return _,
    Hr : insert_verification_report _ _ = Return _ |- _ =>
      pose proof (@next_number _ _ Hlatest) as Hnext;
      destruct (@commit_appended _ _ _ _ _ _ _ _ Hb Ht Hnext eq_refl eq_refl)
        as (Happended & Hreports & Hcredits);
      destruct (@insert_verification_report_appends _ _ _ Hr)
        as (Hfresh & Hb3 & Ht3 & Hr3 & Hc3)
  end.
  eexists. exists latest.
  match type of Happended with
  | appended _ _ ?b ?t => exists b, t
  end.
  eexists. split; [reflexivity|]. split; [reflexivity|].
  split.
  { unfold appended in *. rewrite Hb3, Ht3. exact Happended. }
  cbn [previous_hash block_number block_hash transaction_id transaction_type
       from_org to_org data data_hash report_id submitted_report_id
       submitted_data_hash submitted_transaction_id submitted_block_number
       submitted_block_hash].
  rewrite Hreports in Hfresh, Hr3. rewrite Hc3, Hcredits.
  repeat match goal with |- _ /\ _ => split end;
    first [reflexivity | congruence | eassumption | idtac].
  all: rewrite <- ?Hnext; reflexivity.
Qed.

End WithRuntime.
End SimulatorRuns.

(** ** [blockchain_api.py]: the credits table and the statistics *)

Module SimulatorAccounts.
Import Simulator.

Section WithRuntime.
Context `{Runtime}.

Lemma select_available_found (id : string) (cs : list carbon_credit) (c : carbon_credit) :
  find (fun c => String.eqb (credit_id c) id && String.eqb (status c) "available") cs
  = Some c ->
  In c cs /\ credit_id c = id /\ status c = "available".
Proof.
  intros Hfind. destruct (find_some _ _ Hfind) as [Hin Hc].
  apply andb_true_iff in Hc. destruct Hc as [Hid Hs].
  apply String.eqb_eq in Hid, Hs. auto.
Qed.

Lemma simulator_row_id to_company ts id c :
  credit_id (transferred_row to_company ts id c) = credit_id c.
Proof. unfold transferred_row. destruct (String.eqb _ _); reflexivity. Qed.

Lemma simulator_row_other to_company ts id c :
  credit_id c <> id -> transferred_row to_company ts id c = c.
Proof.
  intros Hid. apply String.eqb_neq in Hid. unfold transferred_row.
  rewrite Hid. reflexivity.
Qed.

Lemma simulator_rows_others to_company ts id cs :
  ~ In id (map credit_id cs) -> map (transferred_row to_company ts id) cs = cs.
Proof.
  induction cs as [|c cs IH]; simpl; intros Hid; [reflexivity|].
  rewrite simulator_row_other by tauto. rewrite IH by tauto. reflexivity.
Qed.

(** The table after the [UPDATE] of a transfer: the selected credit is
    found transferred under its id, the other rows are as they were. *)
Lemma rows_after_transfer to_company ts id cs c :
  NoDup (map credit_id cs) ->
  find (fun c => String.eqb (credit_id c) id && String.eqb (status c) "available") cs
  = Some c ->
  let cs' := map (transferred_row to_company ts id) cs in
  find (fun c => String.eqb (credit_id c) id && String.eqb (status c) "available") cs'
  = None /\
  find (fun c => String.eqb (credit_id c) id) cs'
  = Some (CarbonCredit id (credit_ngo_id c) (Some to_company) (amount c)
            (price_per_credit c) (total_value c) (credit_report_id c)
            "transferred" (Some ts)) /\
  length (with_status "available" cs) = S (length (with_status "available" cs')) /\
  length (with_status "transferred" cs') = S (length (with_status "transferred" cs)) /\
  (sum_of amount (with_status "available" cs')
   == sum_of amount (with_status "available" cs) - amount c)%Q /\
  (sum_of amount (with_status "transferred" cs')
   == sum_of amount (with_status "transferred" cs) + amount c)%Q.
Proof.
  induction cs as [|x cs IH]; intros Hnodup Hfind; [discriminate|].
  inversion Hnodup as [|? ? Hx Hcs]; subst.
  destruct (select_available_found _ _ Hfind) as (Hin & Hid & Havailable).
  cbn zeta. cbn [map find]. unfold with_status. cbn [filter].
  destruct (String.eqb (credit_id x) id) eqn:Heq.
  - apply String.eqb_eq in Heq.
    assert (x = c).
    { apply (AppBalances.unique_key credit_id (x :: cs)); auto;
        [left; reflexivity | congruence]. }
    subst x.
    rewrite simulator_rows_others by (rewrite <- Heq; exact Hx).
    unfold transferred_row. rewrite Heq, String.eqb_refl.
    cbn [credit_id status]. rewrite String.eqb_refl, Havailable.
    cbn [andb String.eqb Ascii.eqb Bool.eqb length].
    rewrite !AppBalances.sum_of_cons. cbn [amount].
    repeat match goal with |- _ /\ _ => split end; try reflexivity; try lra.
    clear -Hx Heq. rewrite <- Heq in *.
    induction cs as [|y cs IH]; [reflexivity|]. cbn [find].
    destruct (String.eqb (credit_id y) (credit_id c)) eqn:Hy.
    + exfalso. apply Hx. left. apply String.eqb_eq. exact Hy.
    + cbn [andb]. apply IH. intros Hin. apply Hx. right. exact Hin.
  - cbn [find] in Hfind. rewrite Heq in Hfind. cbn [andb] in Hfind.
    destruct (IH Hcs Hfind) as (Hnone & Hsome & Ha & Ht & Hsa & Hst).
    unfold with_status in *.
    apply String.eqb_neq in Heq.
    rewrite (@simulator_row_other to_company ts id x Heq).
    apply String.eqb_neq in Heq. rewrite Heq. cbn [andb].
    repeat match goal with |- _ /\ _ => split end; try assumption.
    + destruct (String.eqb (status x) "available"); cbn [length]; congruence.
    + destruct (String.eqb (status x) "transferred"); cbn [length]; congruence.
    + destruct (String.eqb (status x) "available"); [|exact Hsa].
      rewrite !AppBalances.sum_of_cons, Hsa. lra.
    + destruct (String.eqb (status x) "transferred"); [|exact Hst].
      rewrite !AppBalances.sum_of_cons, Hst. lra.
Qed.


Lemma latest_means_blocks (d : database) (latest : block) :
  select_latest_block d = Some latest -> blocks d <> [].
Proof.
  intros Hlatest Hnone. unfold select_latest_block in Hlatest.
  rewrite Hnone in Hlatest. discriminate.
Qed.

Lemma not_in_credit_ids (id : string) (cs : list carbon_credit) :
  existsb (fun x => String.eqb (credit_id x) id) cs = false -> ~ In id (map credit_id cs).
Proof.
  intros Hex Hin. apply in_map_iff in Hin. destruct Hin as (c & Hc & Hin).
  assert (Htrue : existsb (fun x => String.eqb (credit_id x) id) cs = true).
  { apply existsb_exists. exists c. split; [exact Hin|]. apply String.eqb_eq. exact Hc. }
  congruence.
Qed.

Lemma with_status_app (s : string) (l1 l2 : list carbon_credit) :
  with_status s (l1 ++ l2) = with_status s l1 ++ with_status s l2.
Proof. apply filter_app. Qed.

Lemma genesis_keeps_accounts (w : world database) :
  accounts (db w) -> accounts (db (fst (_create_genesis_block w))).
Proof.
  intros (Hnodup & Hstatus & Hempty & Hblocks & Hcount).
  destruct (SimulatorRuns.genesis_rows w) as (Ht & Hr & Hc & Hb).
  unfold accounts. rewrite Ht, Hr, Hc.
  split; [exact Hnodup|]. split; [exact Hstatus|].
  destruct Hb as [(Hsome & Hsame) | (Hnone & g & Hg & _)].
  - rewrite Hsame. auto.
  - rewrite Hg, (Hempty Hnone). split; [discriminate|]. split; [reflexivity|].
    rewrite (Hempty Hnone) in Hcount. exact Hcount.
Qed.

Lemma appended_counts (d d' : database) (b : block) (t : transaction) :
  appended d d' b t ->
  (blocks d = [] -> transactions d = []) ->
  (blocks d <> [] -> length (blocks d) = S (length (transactions d))) ->
  blocks d <> [] ->
  (blocks d' = [] -> transactions d' = []) /\
  (blocks d' <> [] -> length (blocks d') = S (length (transactions d'))) /\
  length (transactions d') = S (length (transactions d)).
Proof.
  intros (_ & _ & Hb & Ht & _) Hempty Hblocks Hsome.
  rewrite Hb, Ht, !length_app. cbn [length]. rewrite (Hblocks Hsome).
  split; [|split; lia]. intros Hnil. destruct (blocks d); discriminate.
Qed.

Lemma perform_keeps_accounts (c : call) (w : world database) :
  accounts (db w) -> accounts (db (perform c w)).
Proof.
  intros HA. destruct c as [| n p v | n r a p | id f t a]; cbn [perform].
  - apply genesis_keeps_accounts. exact HA.
  - apply genesis_keeps_accounts in HA.
    destruct (submit_verification_report n p v w) as [w' [receipt|e]] eqn:Hrun;
      cbn [fst];
      [| rewrite (SimulatorFacts.submit_verification_report_is_atomic _ _ _ _ Hrun);
         exact HA].
    destruct (SimulatorRuns.simulator_submit_returns _ _ _ _ Hrun)
      as (members & latest & b & t & r & _ & Hlatest & Happended & _ & _ & _
          & Hreports & Hcredits & _).
    destruct HA as (Hnodup & Hstatus & Hempty & Hblocks & Hcount).
    destruct (appended_counts Happended Hempty Hblocks (latest_means_blocks _ Hlatest))
      as (Hempty' & Hblocks' & Htxs).
    unfold accounts. rewrite Hcredits, Hreports, length_app. cbn [length].
    repeat match goal with |- _ /\ _ => split end; try assumption. lia.
  - destruct (issue_carbon_credits n r a p w) as [w' [receipt|e]] eqn:Hrun;
      cbn [fst];
      [| rewrite (SimulatorFacts.issue_carbon_credits_is_atomic _ _ _ _ _ Hrun);
         exact HA].
    destruct (SimulatorRuns.simulator_issue_returns _ _ _ _ _ Hrun)
      as (latest & b & t & c & Hlatest & Happended & _ & _ & Hreports & Hfresh
          & Hcredits & Hc & _).
    destruct HA as (Hnodup & Hstatus & Hempty & Hblocks & Hcount).
    destruct (appended_counts Happended Hempty Hblocks (latest_means_blocks _ Hlatest))
      as (Hempty' & Hblocks' & Htxs).
    unfold accounts. rewrite Hcredits, Hreports, !with_status_app, !length_app.
    repeat match goal with |- _ /\ _ => split end; try assumption.
    + rewrite map_app. cbn [map].
      apply NoDup_app; [exact Hnodup | repeat constructor; intros [] |].
      intros x Hx [<- | []]. exact (not_in_credit_ids _ _ Hfresh Hx).
    + intros x Hx. apply in_app_or in Hx. destruct Hx as [Hx | [<- | []]].
      * apply Hstatus. exact Hx.
      * left. rewrite Hc. reflexivity.
    + rewrite Hc. unfold with_status at 2 4.
      cbn [filter status String.eqb Ascii.eqb Bool.eqb length]. lia.
  - destruct (transfer_credits id f t a w) as [w' [receipt|e]] eqn:Hrun;
      cbn [fst];
      [| rewrite (SimulatorFacts.transfer_credits_is_atomic _ _ _ _ _ Hrun);
         exact HA].
    destruct (SimulatorRuns.transfer_credits_returns _ _ _ _ _ Hrun)
      as (credit & latest & b & tx & ts & Hselected & _ & Hlatest & Happended & _ & _
          & Hreports & Hcredits & _).
    destruct HA as (Hnodup & Hstatus & Hempty & Hblocks & Hcount).
    destruct (appended_counts Happended Hempty Hblocks (latest_means_blocks _ Hlatest))
      as (Hempty' & Hblocks' & Htxs).
    destruct (@rows_after_transfer t ts id _ _ Hnodup Hselected)
      as (_ & _ & Havailable & Htransferred & _).
    unfold accounts. rewrite Hcredits, Hreports.
    repeat match goal with |- _ /\ _ => split end; try assumption.
    + rewrite map_map. rewrite (map_ext _ credit_id); [exact Hnodup|].
      intros x. apply simulator_row_id.
    + intros x Hx. apply in_map_iff in Hx. destruct Hx as (x0 & <- & Hx0).
      unfold transferred_row. destruct (String.eqb (credit_id x0) id).
      * right. reflexivity.
      * apply Hstatus. exact Hx0.
    + cbv zeta in Havailable, Htransferred. lia.
Qed.

Lemma reachable_accounts (w : world database) : reachable w -> accounts (db w).
Proof.
  induction 1 as [|w c _ IH]; [| apply perform_keeps_accounts; exact IH].
  unfold accounts. cbn. repeat split; try constructor; try discriminate;
    try contradiction.
Qed.

(** [/ledger/stats] in a reachable world.  There is one transaction for
    every block but the first, and every transaction is accounted for: one
    for each report, one for each credit, and one more for each credit that
    has been transferred. *)
Theorem blockchain_stats_add_up (w : world database) :
  reachable w ->
  exists stats,
    Routes.get_stats w = (w, Success stats) /\
    get_blockchain_stats w = (w, Return stats) /\
    (stats_blocks stats = 0 -> stats_transactions stats = 0) /\
    (0 < stats_blocks stats -> stats_blocks stats = S (stats_transactions stats)) /\
    stats_transactions stats
    = stats_verification_reports stats
      + count (available_credits stats)
      + 2 * count (transferred_credits stats).
Proof.
  intros Hr. destruct (reachable_accounts Hr) as (_ & _ & Hempty & Hblocks & Hcount).
  eexists. split; [reflexivity|]. split; [reflexivity|].
  cbn [stats_blocks stats_transactions stats_verification_reports available_credits
       transferred_credits count credits_with_status].
  split; [|split; [|exact Hcount]].
  - intros Hzero. rewrite Hempty; [reflexivity|].
    destruct (blocks (db w)); [reflexivity | discriminate].
  - intros Hpos. apply Hblocks. intros Hnil. rewrite Hnil in Hpos. cbn in Hpos. lia.
Qed.

End WithRuntime.
End SimulatorAccounts.

(** ** [blockchain_api.py]: the methods and the routes *)

Module SimulatorRoutes.
Import Simulator.

Section WithRuntime.
Context `{Runtime}.

Lemma blockchain_stats_are (w : world database) :
  get_blockchain_stats w
  = (w, Return (BlockchainStats
                  (length (blocks (db w))) (length (transactions (db w)))
                  (length (verification_reports (db w)))
                  (credits_with_status "available" (db w))
                  (credits_with_status "transferred" (db w)))).
Proof. reflexivity. Qed.

(** A transfer that returned in a reachable world has marked the whole
    credit transferred to the company, whatever amount was asked for and
    whoever asked: the row keeps its amount and its NGO, and the statistics
    count one available credit less and one transferred credit more.  The
    amount of the receipt is the amount asked for, or the balance when none
    (or zero) was. *)
Theorem transfer_marks_the_whole_credit (w w' : world database)
    (credit_id from_ngo to_company : string) (requested : option Q)
    (receipt : transfer) (credit : carbon_credit) (before after : blockchain_stats) :
  reachable w ->
  select_available_credit credit_id (db w) = Some credit ->
  transfer_credits credit_id from_ngo to_company requested w = (w', Return receipt) ->
  get_blockchain_stats w = (w, Return before) ->
  get_blockchain_stats w' = (w', Return after) ->
  transferred_amount receipt = amount_or requested (amount credit) /\
  (exists ts,
     credit_by_id credit_id (db w')
     = Some (CarbonCredit credit_id (credit_ngo_id credit) (Some to_company)
               (amount credit) (price_per_credit credit) (total_value credit)
               (credit_report_id credit) "transferred" (Some ts))) /\
  count (available_credits before) = S (count (available_credits after)) /\
  count (transferred_credits after) = S (count (transferred_credits before)).
Proof.
  intros Hr Hcredit Hrun Hbefore Hafter.
  rewrite blockchain_stats_are in Hbefore, Hafter.
  injection Hbefore as <-. injection Hafter as <-.
  destruct (SimulatorRuns.transfer_credits_returns _ _ _ _ _ Hrun)
    as (credit0 & latest & b & t & ts & Hselected & _ & _ & _ & _ & _ & _ & Hcredits
        & _ & _ & _ & Hreceipt).
  assert (credit0 = credit) by congruence. subst credit0.
  destruct (SimulatorAccounts.reachable_accounts Hr) as (Hnodup & _).
  destruct (@SimulatorAccounts.rows_after_transfer to_company ts credit_id _ _
              Hnodup Hselected) as (_ & Hfound & Ha & Ht & _).
  cbv zeta in *. rewrite <- Hcredits in *.
  cbn [available_credits transferred_credits count credits_with_status].
  rewrite Hreceipt. cbn [transferred_amount].
  split; [reflexivity|]. split; [exists ts; exact Hfound|].
  repeat split; assumption.
Qed.

(** A credit is transferred at most once: after a transfer that returned in
    a reachable world, every further transfer of the credit raises "Credit
    not found or not available", which the route reports as a 500, and
    writes nothing. *)
Theorem credit_is_transferred_once (w w' : world database)
    (credit_id from_ngo to_company : string) (requested : option Q) (receipt : transfer)
    (from_ngo' to_company' : string) (requested' : option Q) :
  reachable w ->
  transfer_credits credit_id from_ngo to_company requested w = (w', Return receipt) ->
  exists w'',
    Routes.transfer_credits credit_id from_ngo' to_company' requested' w'
    = (w'', Error "Failed to transfer credits"
              (Failed "Failed to transfer credits"
                 (ValueError "Credit not found or not available"))) /\
    db w'' = db w'.
Proof.
  intros Hr Hrun.
  destruct (SimulatorRuns.transfer_credits_returns _ _ _ _ _ Hrun)
    as (credit & latest & b & t & ts & Hselected & _ & _ & _ & _ & _ & _ & Hcredits & _).
  destruct (SimulatorAccounts.reachable_accounts Hr) as (Hnodup & _).
  destruct (@SimulatorAccounts.rows_after_transfer to_company ts credit_id _ _
              Hnodup Hselected) as (Hnone & _).
  cbv zeta in Hnone. rewrite <- Hcredits in Hnone.
  unfold Routes.transfer_credits, respond, transfer_credits, rewrap, bind, new_uuid,
    connection, query, raise.
  cbn [db clock draws]. unfold select_available_credit. rewrite Hnone.
  eexists. split; reflexivity.
Qed.

(** A transfer is refused before anything is written, and as a server
    error (500), when no available credit has the id, and when the amount
    asked for, not zero, exceeds the balance. *)
Theorem refused_transfer_is_a_server_error (w : world database)
    (credit_id from_ngo to_company : string) (requested : option Q) :
  let refused message :=
    (World (db w) (clock w) (S (draws w)),
     Error "Failed to transfer credits"
       (Failed "Failed to transfer credits" (ValueError message))) in
  match select_available_credit credit_id (db w) with
  | None =>
      Routes.transfer_credits credit_id from_ngo to_company requested w
      = refused "Credit not found or not available"
  | Some credit =>
      forall asked,
        requested = Some asked -> ~ (asked == 0)%Q -> (amount credit < asked)%Q ->
        Routes.transfer_credits credit_id from_ngo to_company requested w
        = refused "Transfer amount exceeds available credits"
  end.
Proof.
  cbv zeta.
  unfold Routes.transfer_credits, respond, transfer_credits, rewrap, bind, new_uuid,
    connection, query, raise.
  cbn [db clock draws].
  destruct (select_available_credit credit_id (db w)) as [credit|]; [|reflexivity].
  intros asked -> Hnonzero Hless. unfold amount_or, truthy.
  destruct (Qeq_bool asked 0) eqn:Hzero; cbn [negb].
  - exfalso. apply Hnonzero. apply Qeq_bool_iff. exact Hzero.
  - replace (Qltb (amount credit) asked) with true; [reflexivity|].
    symmetry. unfold Qltb. apply Z.ltb_lt. exact Hless.
Qed.


(** [/ledger/query/<report_id>] for an id that no stored report has: the
    method returns [None], the route answers 404, and nothing changes. *)
Theorem unknown_report_is_not_found (w : world database) (id : string) :
  ~ In id (map report_id (verification_reports (db w))) ->
  query_report id w = (w, Return None) /\
  Routes.query_report id w = (w, NotFound).
Proof.
  intros Hunknown.
  assert (Hselect : select_report id (db w) = None).
  { unfold select_report. rewrite SimulatorFacts.flat_map_nothing; [reflexivity|].
    intros vr Hvr. destruct (String.eqb (report_id vr) id) eqn:Heq; [|reflexivity].
    exfalso. apply Hunknown. apply in_map_iff. exists vr.
    split; [apply String.eqb_eq; exact Heq | exact Hvr]. }
  assert (Hquery : query_report id w = (w, Return None)).
  { unfold query_report, rewrap, connection, bind, query. cbn [db clock draws].
    rewrite Hselect. reflexivity. }
  split; [exact Hquery|]. unfold Routes.query_report. rewrite Hquery. reflexivity.
Qed.


Lemma find_in_app {A} (f : A -> bool) (l l' : list A) :
  find f (l ++ l') = match find f l with Some x => Some x | None => find f l' end.
Proof.
  induction l as [|x l IH]; cbn [find app]; [reflexivity|].
  destruct (f x); [reflexivity | exact IH].
Qed.

Lemma find_nothing {A} (f : A -> bool) (l : list A) :
  (forall x, In x l -> f x = false) -> find f l = None.
Proof.
  induction l as [|x l IH]; cbn [find]; intros Hall; [reflexivity|].
  rewrite (Hall x (or_introl eq_refl)). apply IH. intros y Hy. apply Hall. right. exact Hy.
Qed.

Lemma find_last_numbered (bs : list block) (b : block) :
  block_number b = S (max_block_number bs) ->
  find (fun x => Nat.eqb (block_number x) (block_number b)) (bs ++ [b]) = Some b.
Proof.
  intros Hb. rewrite find_in_app.
  replace (find (fun x => Nat.eqb (block_number x) (block_number b)) bs) with (@None block).
  - cbn [find]. rewrite Nat.eqb_refl. reflexivity.
  - symmetry. apply find_nothing. intros x Hx. apply Nat.eqb_neq.
    pose proof (SimulatorFacts.max_block_number_bounds bs 0 x Hx) as Hmax.
    unfold max_block_number in Hb. lia.
Qed.

Lemma find_new_id {A} (key : A -> string) (l : list A) (x : A) :
  existsb (fun y => String.eqb (key y) (key x)) l = false ->
  find (fun y => String.eqb (key y) (key x)) (l ++ [x]) = Some x.
Proof.
  induction l as [|y l IH]; cbn [existsb find app]; intros Hex.
  - rewrite String.eqb_refl. reflexivity.
  - apply orb_false_iff in Hex. destruct Hex as [Hy Hl]. rewrite Hy. apply IH. exact Hl.
Qed.

(** An issuance that returned: its receipt names rows that are stored.  The
    block found under the number of the receipt has the hash of the receipt
    (the number the method computed is the number the table assigned); the
    transaction is stored in that block; and the credit found under the id of
    the receipt is available to no company yet, with the amount issued and,
    as its value, that amount times the price, or nothing when the price is
    absent or zero. *)
Theorem issuance_receipt_names_stored_rows (w w' : world database)
    (ngo_id report_id : string) (amount : Q) (price_per_credit : option Q)
    (receipt : issuance) :
  issue_carbon_credits ngo_id report_id amount price_per_credit w = (w', Return receipt) ->
  exists b t c,
    block_at (issued_block_number receipt) (db w') = Some b /\
    block_hash b = issued_block_hash receipt /\
    block_at (issued_block_number receipt - 1) (db w') <> None /\
    In t (transactions (db w')) /\
    transaction_id t = issued_transaction_id receipt /\
    tx_block_number t = issued_block_number receipt /\
    credit_by_id (issued_credit_id receipt) (db w') = Some c /\
    credit_ngo_id c = ngo_id /\ company_id c = None /\ status c = "available" /\
    Simulator.amount c = amount /\ credit_report_id c = report_id /\
    total_value c = match price_per_credit with
                    | Some p => if Qeq_bool p 0 then None else Some (amount * p)%Q
                    | None => None
                    end.
Proof.
  intros Hrun.
  destruct (SimulatorRuns.simulator_issue_returns _ _ _ _ _ Hrun)
    as (latest & b & t & c & Hlatest & Happended & _ & Hnumber & _ & Hfresh & Hcredits
        & Hc & _ & _ & _ & Hreceipt).
  destruct Happended as (_ & _ & Hblocks & Htxs & Hnext & Htb & _).
  exists b, t, c. rewrite Hreceipt.
  cbn [issued_block_number issued_block_hash issued_transaction_id issued_credit_id].
  unfold block_at, credit_by_id. rewrite Hblocks, Htxs, Hcredits.
  split; [apply find_last_numbered; exact Hnext|]. split; [reflexivity|].
  split.
  { rewrite Hnumber. replace (block_number latest + 1 - 1) with (block_number latest) by lia.
    destruct (SimulatorFacts.latest_in _ _ Hlatest) as [Hnone | Hin]; [discriminate|].
    rewrite find_in_app.
    destruct (find (fun x => Nat.eqb (block_number x) (block_number latest))
                   (blocks (db w))) eqn:Hfind; [discriminate|].
    exfalso. pose proof (find_none _ _ Hfind _ Hin) as Hneq.
    cbv beta in Hneq. rewrite Nat.eqb_refl in Hneq. discriminate. }
  split; [apply in_or_app; right; left; reflexivity|].
  split; [reflexivity|]. split; [exact Htb|].
  split; [apply find_new_id; exact Hfresh|].
  rewrite Hc. cbn. repeat split.
  destruct price_per_credit as [p|]; [|reflexivity]. cbn.
  destruct (Qeq_bool p 0); reflexivity.
Qed.

(** A method that raised has left every table as it was; a submission may
    have created the genesis block before. *)
Theorem failed_call_writes_nothing (w w' : world database) (e : exn) :
  (forall ngo_id project_id verification_data,
     submit_verification_report ngo_id project_id verification_data w = (w', Raise e) ->
     db w' = db (fst (_create_genesis_block w))) /\
  (forall ngo_id report_id amount price_per_credit,
     issue_carbon_credits ngo_id report_id amount price_per_credit w = (w', Raise e) ->
     db w' = db w) /\
  (forall credit_id from_ngo to_company amount,
     transfer_credits credit_id from_ngo to_company amount w = (w', Raise e) ->
     db w' = db w).
Proof.
  split; [|split].
  - intros n p v. apply SimulatorFacts.submit_verification_report_is_atomic.
  - intros n r a p. apply SimulatorFacts.issue_carbon_credits_is_atomic.
  - intros c f t a. apply SimulatorFacts.transfer_credits_is_atomic.
Qed.

(** A submission returns for a JSON object only.  For any other payload
    the route answers 500, and nothing but, at most, the genesis block has
    been written. *)
Theorem simulator_submission_needs_an_object (w w' : world database)
    (ngo_id project_id : string) (verification_data : json)
    (r : response submission) :
  Routes.submit_report ngo_id project_id verification_data w = (w', r) ->
  (forall members, verification_data <> JObj members) ->
  (exists e, r = Error "Failed to submit report" e) /\
  db w' = db (fst (_create_genesis_block w)).
Proof.
  unfold Routes.submit_report, respond. intros Hrun Hshape.
  destruct (submit_verification_report ngo_id project_id verification_data w)
    as [w1 [receipt|e]] eqn:Hsubmit; injection Hrun as <- <-.
  - exfalso.
    destruct (SimulatorRuns.simulator_submit_returns _ _ _ _ Hsubmit)
      as (members & _ & _ & _ & _ & Hv & _).
    exact (Hshape members Hv).
  - split; [exists e; reflexivity|].
    exact (SimulatorFacts.submit_verification_report_is_atomic _ _ _ _ Hsubmit).
Qed.


Lemma in_select_available_credits (d : database) (e : available_entry) :
  In e (select_available_credits d) <->
  In (entry_credit e) (carbon_credits d) /\
  status (entry_credit e) = "available" /\
  exists vr, In vr (verification_reports d) /\
             report_id vr = credit_report_id (entry_credit e) /\
             entry_project_id e = project_id vr /\
             entry_final_score e = final_score vr.
Proof.
  unfold select_available_credits. rewrite in_flat_map. split.
  - intros (cc & Hcc & Hin).
    destruct (String.eqb (status cc) "available") eqn:Hstatus; [|contradiction].
    apply in_flat_map in Hin. destruct Hin as (vr & Hvr & Hin).
    destruct (String.eqb (credit_report_id cc) (report_id vr)) eqn:Hid; [|contradiction].
    destruct Hin as [<- | []]. cbn.
    apply String.eqb_eq in Hstatus, Hid. repeat split; auto.
    exists vr. repeat split; auto.
  - intros (Hcc & Hstatus & vr & Hvr & Hid & Hproject & Hscore).
    exists (entry_credit e). split; [exact Hcc|].
    rewrite Hstatus, String.eqb_refl. apply in_flat_map. exists vr. split; [exact Hvr|].
    rewrite <- Hid, String.eqb_refl. left.
    destruct e as [cc p f]. cbn in *. subst. reflexivity.
Qed.

Lemma get_available_credits_is (w : world database) :
  Routes.get_available_credits w
  = (w, Success (AvailableListing
                   (select_available_credits (db w))
                   (sum_of (fun e => amount (entry_credit e))
                           (select_available_credits (db w))))).
Proof. destruct w. reflexivity. Qed.

(** [/ledger/credits/available] always answers 200 and changes nothing.  Its
    entries are the pairs of an available credit and a stored report with the
    credit's report id, reported with the project and the final score of that
    report; the total is the sum of the amounts of the entries. *)
Theorem available_listing_joins_reports (w : world database) :
  exists listing,
    Routes.get_available_credits w = (w, Success listing) /\
    (forall e, In e (listed listing) <->
       In (entry_credit e) (carbon_credits (db w)) /\
       status (entry_credit e) = "available" /\
       exists vr, In vr (verification_reports (db w)) /\
                  report_id vr = credit_report_id (entry_credit e) /\
                  entry_project_id e = project_id vr /\
                  entry_final_score e = final_score vr) /\
    total_credits listing = sum_of (fun e => amount (entry_credit e)) (listed listing).
Proof.
  eexists. split; [apply get_available_credits_is|]. cbn [listed total_credits].
  split; [intros e; apply in_select_available_credits | reflexivity].
Qed.

(** Credits issued against a report id that no stored report has are
    stored as available, and no entry of [/ledger/credits/available] shows
    them: the listing joins the credits with their reports. *)
Theorem credit_without_report_is_not_listed (w w' : world database)
    (ngo_id report : string) (amount : Q) (price_per_credit : option Q)
    (receipt : issuance) :
  ~ In report (map report_id (verification_reports (db w))) ->
  issue_carbon_credits ngo_id report amount price_per_credit w = (w', Return receipt) ->
  (exists c, credit_by_id (issued_credit_id receipt) (db w') = Some c /\
             status c = "available") /\
  exists listing,
    Routes.get_available_credits w' = (w', Success listing) /\
    forall e, In e (listed listing) ->
              credit_id (entry_credit e) <> issued_credit_id receipt.
Proof.
  intros Hunknown Hrun.
  destruct (SimulatorRuns.simulator_issue_returns _ _ _ _ _ Hrun)
    as (latest & b & t & c & Hlatest & Happended & _ & Hnumber & Hreports & Hfresh
        & Hcredits & Hc & _ & _ & _ & Hreceipt).
  assert (Hid : issued_credit_id receipt = credit_id c) by (rewrite Hreceipt; reflexivity).
  split.
  - exists c. unfold credit_by_id. rewrite Hid, Hcredits.
    split; [apply find_new_id; exact Hfresh | rewrite Hc; reflexivity].
  - eexists. split; [apply get_available_credits_is|]. cbn [listed].
    intros e He Hsame. apply in_select_available_credits in He.
    destruct He as (Hin & _ & vr & Hvr & Hvrid & _).
    rewrite Hcredits in Hin. apply in_app_or in Hin. destruct Hin as [Hold | [Hnew | []]].
    + assert (Hex : existsb (fun y => String.eqb (credit_id y) (credit_id c))
                            (carbon_credits (db w)) = true).
      { apply existsb_exists. exists (entry_credit e). split; [exact Hold|].
        apply String.eqb_eq. congruence. }
      congruence.
    + apply Hunknown. rewrite <- Hreports. apply in_map_iff. exists vr. split; [|exact Hvr].
      rewrite Hvrid, <- Hnew, Hc. reflexivity.
Qed.

End WithRuntime.
End SimulatorRoutes.

(** ** [blockchain_api.py]: what a transfer does *)

Module SimulatorTransfers.
Import Simulator.

Section WithRuntime.
Context `{Runtime}.

(** A reachable store that holds an available credit has a block. *)
Lemma available_credit_means_block (w : world database) (id : string)
    (credit : carbon_credit) :
  reachable w ->
  select_available_credit id (db w) = Some credit ->
  exists latest, select_latest_block (db w) = Some latest.
Proof.
  intros Hr Hs.
  destruct (SimulatorAccounts.reachable_accounts Hr) as (_ & _ & Hnone & _ & Hcount).
  destruct (select_latest_block (db w)) as [latest|] eqn:Hlatest;
    [exists latest; reflexivity|].
  exfalso. apply SimulatorFacts.no_latest_no_blocks in Hlatest.
  rewrite (Hnone Hlatest) in Hcount. cbn [length] in Hcount.
  destruct (SimulatorAccounts.select_available_found _ _ Hs) as (Hin & _ & Havailable).
  assert (Hlisted : In credit (with_status "available" (carbon_credits (db w)))).
  { unfold with_status. apply filter_In. split; [exact Hin|].
    apply String.eqb_eq. exact Havailable. }
  destruct (with_status "available" (carbon_credits (db w))); [destruct Hlisted|].
  cbn [length] in Hcount. lia.
Qed.

(** A transfer of an available credit, of no more than its balance, returns
    unless the new block hash or the new transaction id is taken. *)
Lemma transfer_credits_runs (w : world database) (id from_ngo to_company : string)
    (requested : option Q) (credit : carbon_credit) :
  reachable w ->
  select_available_credit id (db w) = Some credit ->
  Qltb (amount credit) (amount_or requested (amount credit)) = false ->
  collision_free (transfer_credits id from_ngo to_company requested) w ->
  exists w' receipt,
    transfer_credits id from_ngo to_company requested w = (w', Return receipt).
Proof.
  intros Hr Hs Hle Hfree.
  edestruct available_credit_means_block as (latest & Hlatest);
    [exact Hr | exact Hs |].
  unfold collision_free in Hfree. revert Hfree.
  unfold transfer_credits, _get_latest_block, subscript.
  unfold rewrap, bind, new_uuid, connection, query, now, lift, execute, ret, raise.
  cbn [db clock draws]. rewrite Hs. cbn [db clock draws]. rewrite Hle.
  cbn [db clock draws]. rewrite Hlatest.
  cbn [db clock draws _calculate_hash block_data].
  unfold insert_block. cbn [blocks].
  destruct (existsb _ (blocks (db w))); cbn [db clock draws].
  { intros Hfree. exfalso. eapply Hfree. reflexivity. }
  unfold insert_transaction. cbn [transactions transaction_id].
  destruct (existsb _ (transactions (db w))); cbn [db clock draws].
  { intros Hfree. exfalso. eapply Hfree. reflexivity. }
  intros _. do 2 eexists. reflexivity.
Qed.

(** What such a transfer leaves: a receipt for the amount asked, in the name
    given, one block and one transaction more, and the credit's row marked
    transferred to the company, its amount and its NGO as they were. *)
Lemma transfer_credits_serves (w : world database) (id from_ngo to_company : string)
    (requested : option Q) (credit : carbon_credit) :
  reachable w ->
  select_available_credit id (db w) = Some credit ->
  Qltb (amount credit) (amount_or requested (amount credit)) = false ->
  collision_free (transfer_credits id from_ngo to_company requested) w ->
  exists w' receipt ts,
    transfer_credits id from_ngo to_company requested w = (w', Return receipt) /\
    transferred_amount receipt = amount_or requested (amount credit) /\
    transferred_from_ngo receipt = from_ngo /\
    transferred_to_company receipt = to_company /\
    credit_by_id id (db w')
    = Some (CarbonCredit id (credit_ngo_id credit) (Some to_company) (amount credit)
              (price_per_credit credit) (total_value credit) (credit_report_id credit)
              "transferred" (Some ts)) /\
    length (blocks (db w')) = S (length (blocks (db w))) /\
    length (transactions (db w')) = S (length (transactions (db w))).
Proof.
  intros Hr Hs Hle Hfree.
  edestruct transfer_credits_runs as (w' & receipt & Hrun);
    [exact Hr | exact Hs | exact Hle | exact Hfree |].
  destruct (SimulatorRuns.transfer_credits_returns _ _ _ _ _ Hrun)
    as (credit0 & latest & b & t & ts & Hselected & _ & _ & Happended & _ & _ & _
        & Hcredits & _ & _ & _ & Hreceipt).
  assert (credit0 = credit) by congruence. subst credit0.
  destruct (SimulatorAccounts.reachable_accounts Hr) as (Hnodup & _).
  destruct (@SimulatorAccounts.rows_after_transfer to_company ts id _ _
              Hnodup Hselected) as (_ & Hfound & _).
  cbv zeta in Hfound. rewrite <- Hcredits in Hfound.
  destruct Happended as (_ & _ & Hblocks & Htxs & _).
  exists w', receipt, ts. rewrite Hreceipt at 2 3 4.
  cbn [transferred_amount transferred_from_ngo transferred_to_company].
  repeat match goal with |- _ /\ _ => split end;
    try reflexivity; try assumption.
  - rewrite Hblocks, length_app. cbn [length]. lia.
  - rewrite Htxs, length_app. cbn [length]. lia.
Qed.

(** C5, on the code.  [blockchain_api.py] compares nobody with the credit's
    owner.  In every reachable world, a transfer of an available credit asked
    for in the name of an NGO that does not own it, for no more than the
    balance, is served (short of a collision of the new hash or id): the
    receipt names the stranger as the sender, a block and a transaction are
    appended, and the credit is marked transferred to the company. *)
Theorem simulator_transfer_by_non_owner_is_served (w : world database)
    (credit_id from_ngo to_company : string) (requested : option Q)
    (credit : carbon_credit) :
  reachable w ->
  select_available_credit credit_id (db w) = Some credit ->
  credit_ngo_id credit <> from_ngo ->
  (amount_or requested (amount credit) <= amount credit)%Q ->
  collision_free (transfer_credits credit_id from_ngo to_company requested) w ->
  exists w' receipt ts,
    transfer_credits credit_id from_ngo to_company requested w = (w', Return receipt) /\
    transferred_from_ngo receipt = from_ngo /\
    credit_by_id credit_id (db w')
    = Some (CarbonCredit credit_id (credit_ngo_id credit) (Some to_company)
              (amount credit) (price_per_credit credit) (total_value credit)
              (credit_report_id credit) "transferred" (Some ts)) /\
    length (blocks (db w')) = S (length (blocks (db w))) /\
    length (transactions (db w')) = S (length (transactions (db w))).
Proof.
  intros Hr Hs _ Hle Hfree.
  assert (Hcheck : Qltb (amount credit) (amount_or requested (amount credit)) = false).
  { unfold Qltb. apply Z.ltb_ge. exact Hle. }
  edestruct transfer_credits_serves
    as (w' & receipt & ts & Hrun & _ & Hfrom & _ & Hrow & Hblocks & Htxs);
    [exact Hr | exact Hs | exact Hcheck | exact Hfree |].
  exists w', receipt, ts. repeat split; assumption.
Qed.

(** C6, on the code.  In every reachable world, a transfer of a part of an
    available credit by its own NGO is served (short of a collision of the new
    hash or id), and the receipt shows the part asked for; yet the credit's row
    keeps the whole amount, not the rest, and is marked transferred although
    the rest is not zero. *)
Theorem simulator_partial_transfer_keeps_the_amount (w : world database)
    (credit_id to_company : string) (part : Q) (credit : carbon_credit) :
  reachable w ->
  select_available_credit credit_id (db w) = Some credit ->
  (0 < part)%Q -> (part < amount credit)%Q ->
  collision_free
    (transfer_credits credit_id (credit_ngo_id credit) to_company (Some part)) w ->
  exists w' receipt row,
    transfer_credits credit_id (credit_ngo_id credit) to_company (Some part) w
    = (w', Return receipt) /\
    transferred_amount receipt = part /\
    credit_by_id credit_id (db w') = Some row /\
    amount row = amount credit /\
    status row = "transferred" /\
    credit_ngo_id row = credit_ngo_id credit /\
    company_id row = Some to_company /\
    ~ (amount credit - part == 0)%Q.
Proof.
  intros Hr Hs Hpositive Hless Hfree.
  assert (Hpart : amount_or (Some part) (amount credit) = part).
  { unfold amount_or, truthy. destruct (Qeq_bool part 0) eqn:Hzero; [|reflexivity].
    exfalso. apply Qeq_bool_iff in Hzero. rewrite Hzero in Hpositive.
    exact (Qlt_irrefl 0 Hpositive). }
  assert (Hcheck : Qltb (amount credit) (amount_or (Some part) (amount credit)) = false).
  { rewrite Hpart. unfold Qltb. apply Z.ltb_ge. apply Qlt_le_weak in Hless. exact Hless. }
  edestruct transfer_credits_serves
    as (w' & receipt & ts & Hrun & Hamount & _ & _ & Hrow & _);
    [exact Hr | exact Hs | exact Hcheck | exact Hfree |].
  exists w', receipt. eexists. split; [exact Hrun|].
  split; [rewrite Hamount; exact Hpart|]. split; [exact Hrow|].
  cbn [amount status credit_ngo_id company_id]. repeat split.
  intros Hrest. lra.
Qed.


End WithRuntime.
End SimulatorTransfers.

(** * The required-fields checks of the POST routes *)

Module Requests.

Lemma py_in_raises_for_all (field field' : string) (data : json) (e : exn) :
  py_in field data = Raise e -> py_in field' data = Raise e.
Proof. destruct data; cbn; intros Hin; try discriminate Hin; exact Hin. Qed.

Lemma missing_fields_returns (required_fields : list string) (field : string)
    (data : json) (present : bool) :
  py_in field data = Return present ->
  exists missing, App.missing_fields required_fields data = Return missing.
Proof.
  intros Hin. induction required_fields as [|f rest [missing IH]]; cbn [App.missing_fields].
  - exists []. reflexivity.
  - destruct (py_in f data) as [p|e] eqn:Hf.
    + rewrite IH. eexists. reflexivity.
    + rewrite (py_in_raises_for_all f field _ Hf) in Hin. discriminate Hin.
Qed.

Lemma first_missing_is_head (required_fields : list string) (data : json) :
  Simulator.first_missing_field required_fields data
  = match App.missing_fields required_fields data with
    | Return missing => Return (hd_error missing)
    | Raise e => Raise e
    end.
Proof.
  induction required_fields as [|field rest IH];
    cbn [Simulator.first_missing_field App.missing_fields]; [reflexivity|].
  destruct (py_in field data) as [[|]|e] eqn:Hin; [| |reflexivity].
  - rewrite IH. destruct (App.missing_fields rest data); reflexivity.
  - destruct (missing_fields_returns rest field data Hin) as [missing ->]. reflexivity.
Qed.

(** The two services check the same way, up to what they report:
    [blockchain_api.py] names the first field that [app.py] would list, on
    any JSON body, and raises where it raises. *)
Theorem simulator_reports_the_first_missing_field (required_fields : list string)
    (data : json) :
  Simulator.first_missing_field required_fields data
  = match App.missing_fields required_fields data with
    | Return missing => Return (hd_error missing)
    | Raise e => Raise e
    end.
Proof. apply first_missing_is_head. Qed.

Lemma missing_fields_of_object (required_fields : list string)
    (members : list (string * json)) :
  App.missing_fields required_fields (JObj members)
  = Return (filter (fun field =>
                      negb (existsb (fun m => String.eqb (fst m) field) members))
                   required_fields).
Proof.
  induction required_fields as [|field rest IH]; cbn [App.missing_fields filter py_in];
    [reflexivity|].
  rewrite IH. destruct (existsb _ members); reflexivity.
Qed.

Lemma has_key (field : string) (members : list (string * json)) :
  existsb (fun m => String.eqb (fst m) field) members = true
  <-> In field (map fst members).
Proof.
  rewrite existsb_exists, in_map_iff. split; intros (m & H1 & H2).
  - exists m. split; [apply String.eqb_eq; exact H2 | exact H1].
  - exists m. split; [exact H2 | apply String.eqb_eq; exact H1].
Qed.

(** The check on a JSON object looks at the keys only: it passes exactly
    when every required field is a key, whatever the value (a [null], a
    number where a string is meant); otherwise the reply lists the required
    fields that are no key, each as often and in the order as the requirement
    has them. *)
Theorem required_fields_are_keys (required_fields : list string)
    (members : list (string * json)) :
  let missing := filter (fun field => negb (existsb (String.eqb field) (map fst members)))
                        required_fields in
  App.missing_fields required_fields (JObj members) = Return missing /\
  (forall field, In field missing
                 <-> In field required_fields /\ ~ In field (map fst members)) /\
  (App.check_required_fields required_fields (JObj members) = Return App.Complete
   <-> incl required_fields (map fst members)) /\
  (missing <> [] ->
   App.check_required_fields required_fields (JObj members)
   = Return (App.MissingRequiredFields
               ("Missing required fields: " ++ String.concat ", " missing))).
Proof.
  intros missing.
  assert (Hkeys : forall field,
             existsb (fun m => String.eqb (fst m) field) members
             = existsb (String.eqb field) (map fst members)).
  { intros field. induction members as [|m members IH]; cbn [existsb map]; [reflexivity|].
    rewrite IH, (String.eqb_sym (fst m) field). reflexivity. }
  assert (Hlist : App.missing_fields required_fields (JObj members) = Return missing).
  { rewrite missing_fields_of_object. f_equal. apply filter_ext.
    intros field. rewrite Hkeys. reflexivity. }
  assert (Hmissing : forall field, In field missing
                       <-> In field required_fields /\ ~ In field (map fst members)).
  { intros field. unfold missing. rewrite filter_In, negb_true_iff, <- Hkeys, <- has_key.
    destruct (existsb _ members); intuition congruence. }
  split; [exact Hlist|]. split; [exact Hmissing|].
  unfold App.check_required_fields. rewrite Hlist. split.
  - split.
    + intros Hcomplete field Hfield.
      destruct missing as [|f rest] eqn:Hm; [|discriminate Hcomplete].
      destruct (in_dec string_dec field (map fst members)) as [Hin | Hout];
        [exact Hin|].
      exfalso. apply (proj2 (Hmissing field)). split; assumption.
    + intros Hincl. destruct missing as [|f rest] eqn:Hm; [reflexivity|].
      exfalso. destruct (proj1 (Hmissing f) (or_introl eq_refl)) as [Hreq Hout].
      exact (Hout (Hincl f Hreq)).
  - intros Hsome. destruct missing; [contradiction | reflexivity].
Qed.

Lemma occurs_itself (s : string) (rest : string) : occurs s (s ++ rest) = true.
Proof.
  destruct s as [|c s]; cbn [occurs append].
  - destruct rest; reflexivity.
  - replace (String.prefix (String c s) (String c (s ++ rest))) with true; [reflexivity|].
    symmetry. cbn [String.prefix]. destruct (ascii_dec c c) as [_|Hc]; [|contradiction].
    clear c. induction s as [|c s IH]; cbn [String.prefix append]; [destruct rest; reflexivity|].
    destruct (ascii_dec c c) as [_|Hc]; [exact IH | contradiction].
Qed.

Lemma occurs_inside (s before after : string) :
  occurs s (before ++ s ++ after) = true.
Proof.
  induction before as [|c before IH]; [cbn [append]; apply occurs_itself|].
  cbn [append occurs]. rewrite IH. apply orb_true_r.
Qed.

(** The check does not ask for an object.  A JSON list that holds the
    required names passes it, and so does a JSON string that has a required
    name as a substring; [null], a number and a boolean raise a [TypeError]
    as soon as one field is required. *)
Theorem required_fields_check_accepts_other_shapes (required_fields : list string) :
  App.check_required_fields required_fields (JArr (map JStr required_fields))
  = Return App.Complete /\
  Simulator.first_missing_field required_fields (JArr (map JStr required_fields))
  = Return None /\
  (forall field before after,
     App.check_required_fields [field] (JStr (before ++ field ++ after))
     = Return App.Complete) /\
  (forall data,
     required_fields <> [] ->
     (App.check_required_fields required_fields data = Raise TypeError
      <-> (data = JNull \/ (exists b, data = JBool b) \/ (exists q, data = JNum q)))).
Proof.
  assert (Hlist : App.missing_fields required_fields (JArr (map JStr required_fields))
                  = Return []).
  { assert (Hall : forall fields,
               incl fields required_fields ->
               App.missing_fields fields (JArr (map JStr required_fields)) = Return []).
    { induction fields as [|f fields IH]; intros Hincl; cbn [App.missing_fields py_in];
        [reflexivity|].
      rewrite IH by (intros x Hx; apply Hincl; right; exact Hx).
      replace (existsb _ (map JStr required_fields)) with true; [reflexivity|].
      symmetry. apply existsb_exists. exists (JStr f). split.
      - apply in_map. apply Hincl. left. reflexivity.
      - apply String.eqb_refl. }
    apply Hall. apply incl_refl. }
  split; [unfold App.check_required_fields; rewrite Hlist; reflexivity|].
  split; [rewrite first_missing_is_head, Hlist; reflexivity|].
  split.
  - intros field before after. unfold App.check_required_fields.
    cbn [App.missing_fields py_in]. rewrite occurs_inside. reflexivity.
  - intros data Hsome. destruct required_fields as [|f fields]; [contradiction|].
    unfold App.check_required_fields. split.
    + destruct data as [|b|q|s|items|members]; eauto.
      * destruct (missing_fields_returns (f :: fields) f (JStr s) eq_refl) as [m ->].
        destruct m; discriminate.
      * destruct (missing_fields_returns (f :: fields) f (JArr items) eq_refl) as [m ->].
        destruct m; discriminate.
      * destruct (missing_fields_returns (f :: fields) f (JObj members) eq_refl) as [m ->].
        destruct m; discriminate.
    + intros [-> | [[b ->] | [q ->]]]; reflexivity.
Qed.

(** The body that [dynamic_dataset_api.py] posts to [/ledger/issue] on port
    5006, where either service listens: it has the fields that
    [blockchain_api.py] requires, and [app.py] answers it with 400, three of
    its four fields missing. *)
Theorem approval_request_fits_the_simulator_only (ngo_id verification_id credits_issued : json) :
  let body := Caller.issue_request_body ngo_id verification_id credits_issued in
  Simulator.first_missing_field Simulator.issue_required_fields body = Return None /\
  App.check_required_fields App.issue_required_fields body
  = Return (App.MissingRequiredFields
              "Missing required fields: project_id, credits_amount, verification_score").
Proof. split; reflexivity. Qed.

End Requests.

(** * The theorems with hypotheses, on the example runs *)

Module AppExamples.
Import App.

Ltac computed := vm_compute; reflexivity.

(** After an issuance and a full transfer. *)
Lemma blockchain_info_counts_agree_witness :
  let w := Concrete.after_full_transfer in
  exists info newest,
    get_blockchain_info w = (w, OK info) /\
    total_transactions info + 1 = total_blocks info /\
    last_block info = Some newest /\
    block_number newest + 1 = total_blocks info /\
    recent_blocks info = firstn 10 (rev (blocks (db w))).
Proof.
  intros w.
  apply (@AppLedger.blockchain_info_counts_agree Concrete.runtime w).
  apply AppFacts.run_reachable.
Defined.

Lemma transactions_are_pending_or_confirmed_witness :
  let w := Concrete.after_full_transfer in
  NoDup (map tx_hash (transactions (db w))) /\
  forall t, In t (transactions (db w)) ->
    (tx_status t = "pending" /\ tx_block_number t = None) \/
    (tx_status t = "confirmed" /\ exists n, tx_block_number t = Some n).
Proof.
  intros w.
  apply (@AppLedger.transactions_are_pending_or_confirmed Concrete.runtime w).
  apply AppFacts.run_reachable.
Defined.

Lemma transferred_credits_are_empty_witness :
  let w := Concrete.after_full_transfer in
  NoDup (map credit_id (carbon_credits (db w))) /\
  forall c, In c (carbon_credits (db w)) ->
    status c = "active" \/ (status c = "transferred" /\ (credits_amount c == 0)%Q).
Proof.
  intros w.
  apply (@AppCreditTable.transferred_credits_are_empty Concrete.runtime w).
  apply AppFacts.run_reachable.
Defined.

Lemma restart_keeps_the_ledger_witness :
  @init_database Concrete.runtime Concrete.after_issuance
  = (Concrete.after_issuance, Return tt).
Proof.
  apply (@AppRoutes.restart_keeps_the_ledger Concrete.runtime Concrete.after_issuance).
  apply AppFacts.run_reachable.
Defined.

(** A block without transactions, after the block of the issuance. *)
Lemma new_block_becomes_last_block_witness :
  let w := Concrete.after_issuance in
  let txs : list (list (string * json)) := [] in
  exists w' b,
    @create_new_block Concrete.runtime txs w = (w', Return b) /\
    get_last_block w' = (w', Return (Some b)) /\
    exists last,
      get_last_block w = (w, Return (Some last)) /\
      block_number b = block_number last + 1 /\
      previous_hash b = block_hash last /\
      transactions_count b = length txs.
Proof.
  intros w txs. eexists. eexists. split; [computed|].
  apply (@AppRoutes.new_block_becomes_last_block Concrete.runtime txs w _ (Return _)).
  computed.
Defined.

(** ngoB asks to transfer the credit of ngoA. *)
Lemma refused_transfer_changes_nothing_witness :
  let w := Concrete.after_issuance in
  let credit_id := Concrete.issued_credit_id in
  let from_owner := "ngoB" in
  let credits_amount := 4%Q in
  exists w' r,
    @transfer_carbon_credits Concrete.runtime credit_id from_owner "companyB"
      credits_amount 15 w = (w', r) /\
    w' = w /\
    match select_active_credit credit_id (db w) with
    | None => r = CreditNotFoundOrInactive
    | Some credit =>
        (owner_id credit <> from_owner /\ r = OwnedBy (owner_id credit) from_owner) \/
        (owner_id credit = from_owner /\
         (App.credits_amount credit < credits_amount)%Q /\
         r = InsufficientCredits (App.credits_amount credit) credits_amount)
    end.
Proof.
  intros w credit_id from_owner credits_amount. eexists. eexists.
  split; [computed|].
  apply (@AppRoutes.refused_transfer_changes_nothing Concrete.runtime w _ credit_id
           from_owner "companyB" credits_amount 15%Q).
  - computed.
  - intros receipt Hr. discriminate Hr.
  - intros e Hr. discriminate Hr.
Defined.

(** The first issuance after the start, with no price in the request. *)
Lemma issued_credit_is_stored_witness :
  let w := @started Concrete.runtime in
  let ngo_id := "ngoA" in
  let project_id := "p1" in
  let credits_amount := 10%Q in
  let options := no_options in
  exists w' receipt,
    @issue_carbon_credits Concrete.runtime ngo_id project_id credits_amount (9 # 10)
      options w = (w', OK receipt) /\
    credit_by_id (issued_credit_id receipt) (db w) = None /\
    exists credit price t b,
      credit_by_id (issued_credit_id receipt) (db w') = Some credit /\
      select_active_credit (issued_credit_id receipt) (db w') = Some credit /\
      status credit = "active" /\
      owner_id credit = ngo_id /\
      App.ngo_id credit = ngo_id /\
      App.project_id credit = project_id /\
      App.credits_amount credit = credits_amount /\
      get_price (opt_price_per_credit options) = Some price /\
      (opt_price_per_credit options = Absent -> price = (31 # 2)%Q) /\
      price_per_credit credit = price /\
      market_value credit = (credits_amount * price)%Q /\
      In t (transactions (db w')) /\
      tx_hash t = issued_tx_hash receipt /\
      credit_tx_hash credit = issued_tx_hash receipt /\
      tx_status t = "confirmed" /\
      tx_block_number t = Some (issued_block_number receipt) /\
      In b (blocks (db w')) /\
      block_number b = issued_block_number receipt /\
      block_hash b = issued_block_hash receipt.
Proof.
  intros w ngo_id project_id credits_amount options. eexists. eexists.
  split; [computed|].
  apply (@AppRoutes.issued_credit_is_stored Concrete.runtime w _ ngo_id project_id
           credits_amount (9 # 10)%Q options).
  computed.
Defined.



(** After selling four of ten credits, ngoA asks to sell one more. *)
Lemma seller_cannot_transfer_twice_witness :
  let w := Concrete.after_issuance in
  let credit := Concrete.stored_credit w in
  let credit_id := Concrete.issued_credit_id in
  let from_owner := "ngoA" in
  let to_owner := "companyB" in
  let credits_amount := 4%Q in
  exists w' receipt,
    @transfer_carbon_credits Concrete.runtime credit_id from_owner to_owner
      credits_amount 15 w = (w', OK receipt) /\
    @transfer_carbon_credits Concrete.runtime credit_id from_owner "companyC" 1 15 w'
    = (w', if Qeq_bool (App.credits_amount credit - credits_amount) 0
           then CreditNotFoundOrInactive
           else OwnedBy to_owner from_owner).
Proof.
  intros w credit credit_id from_owner to_owner credits_amount. do 2 eexists.
  split; [computed|].
  eapply (@AppRoutes.seller_cannot_transfer_twice Concrete.runtime w _ credit_id
           from_owner to_owner credits_amount 15%Q _ credit "companyC" 1%Q 15%Q).
  - apply AppFacts.run_reachable.
  - discriminate.
  - computed.
  - computed.
Defined.

(** A submission whose [verification_data] is a string. *)
Lemma submission_of_non_object_is_recorded_witness :
  let w := @started Concrete.runtime in
  let ngo_id := "ngoA" in
  let project_id := "p1" in
  let verification_data := JStr "ninety trees" in
  exists w' r,
    @submit_verification_report Concrete.runtime ngo_id project_id verification_data w
    = (w', r) /\
    exists e,
      r = InternalServerError e /\
      (e = AttributeError ->
       exists h b,
         blocks (db w') = blocks (db w) ++ [b] /\
         transactions (db w') =
           transactions (db w)
             ++ [Transaction h (Some (block_number b)) "verification_submission" ngo_id
                   "ecoledger_system"
                   (@json_dumps Concrete.runtime false
                      (JObj [("project_id", JStr project_id);
                             ("verification_data", verification_data);
                             ("action", JStr "submit_verification_report")]))
                   (@isoformat_now Concrete.runtime (clock w)) "confirmed"]).
Proof.
  intros w ngo_id project_id verification_data. do 2 eexists.
  split; [computed|].
  apply (@AppRoutes.submission_of_non_object_is_recorded Concrete.runtime w _ ngo_id
           project_id verification_data).
  - intros members Hv. discriminate Hv.
  - computed.
Defined.

(** The sample payload, submitted and queried by the hash of the reply. *)
Lemma submitted_report_is_found_by_its_hash_witness :
  let w := @started Concrete.runtime in
  let ngo_id := "ngoA" in
  let project_id := "p1" in
  let verification_data := Concrete.sample_payload in
  exists w' receipt,
    @submit_verification_report Concrete.runtime ngo_id project_id verification_data w
    = (w', OK receipt) /\
    @query_verification_report Concrete.runtime (Some (submitted_tx_hash receipt))
      None (Some "ngoZ") w'
    = (w', Found [Report (submitted_tx_hash receipt)
                         (Some (submitted_block_number receipt))
                         ngo_id None (@isoformat_now Concrete.runtime (clock w))
                         verification_data (JStr project_id)]).
Proof.
  intros w ngo_id project_id verification_data. do 2 eexists.
  split; [computed|].
  apply (@AppRoutes.submitted_report_is_found_by_its_hash Concrete.runtime w _ ngo_id
           project_id verification_data _ None (Some "ngoZ")).
  - intros s Hs. discriminate Hs.
  - computed.
  - computed.
Defined.

(** A limit of 2^63. *)
Lemma listed_credits_match_the_filter_witness :
  list_carbon_credits None None (Some (2 ^ 63)%Z) Concrete.after_issuance
  = (Concrete.after_issuance, InternalServerError OverflowError).
Proof.
  exact (@AppListing.listed_credits_match_the_filter Concrete.after_issuance
           None None (Some (2 ^ 63)%Z)).
Defined.

(** The transaction of the submission in [Concrete.after_submission]. *)
Lemma confirmed_transaction_has_its_block_witness :
  let w := Concrete.after_submission in
  exists t,
    In t (transactions (db w)) /\ tx_status t = "confirmed" /\
    exists b, In b (blocks (db w)) /\ tx_block_number t = Some (block_number b).
Proof.
  intros w.
  assert (Hlast : exists t, last (map Some (transactions (db w))) None = Some t).
  { eexists. computed. }
  destruct Hlast as [t Ht]. exists t.
  assert (Hin : In t (transactions (db w)) /\ tx_status t = "confirmed").
  { revert Ht. vm_compute. intros Ht. injection Ht as <-. split; [left|]; reflexivity. }
  destruct Hin as [Hin Hstatus]. split; [exact Hin|]. split; [exact Hstatus|].
  apply (@AppCommit.confirmed_transaction_has_its_block Concrete.runtime w t).
  - apply AppFacts.run_reachable.
  - exact Hin.
  - exact Hstatus.
Defined.

End AppExamples.

Module SimulatorExamples.
Import Simulator.

Ltac computed := vm_compute; reflexivity.

(** The world after the genesis block and one issuance is reachable. *)
Lemma issuance_is_reachable :
  @reachable Concrete.runtime (fst Concrete.unknown_report_issuance).
Proof.
  exact (@reachable_perform Concrete.runtime _ (Issue "ngoA" "no-such-report" 10 None)
           (@reachable_perform Concrete.runtime _ CreateGenesis
              (@reachable_fresh Concrete.runtime))).
Qed.

(** The block of the issuance names the genesis block. *)
Lemma simulator_previous_hash_links_witness :
  let w := fst Concrete.unknown_report_issuance in
  exists b,
    In b (blocks (db w)) /\
    1 <= block_number b /\
    (block_number b = 1 -> previous_hash b = "0") /\
    (1 < block_number b ->
     exists p, block_at (block_number b - 1) (db w) = Some p /\
               previous_hash b = block_hash p).
Proof.
  intros w.
  assert (Hlast : exists b, last (map Some (blocks (db w))) None = Some b).
  { eexists. computed. }
  destruct Hlast as [b Hb]. exists b.
  assert (Hin : In b (blocks (db w))).
  { revert Hb. vm_compute. intros Hb. injection Hb as <-. right. left. reflexivity. }
  split; [exact Hin|].
  apply (@SimulatorFacts.simulator_previous_hash_links Concrete.runtime w b).
  - exact issuance_is_reachable.
  - exact Hin.
Defined.

(** The transaction of the issuance. *)
Lemma simulator_transactions_are_tamper_evident_witness :
  let w := fst Concrete.unknown_report_issuance in
  exists t,
    In t (transactions (db w)) /\
    tx_status t = "confirmed" /\
    (exists b, In b (blocks (db w)) /\ block_number b = tx_block_number t) /\
    exists payload,
      data t = @json_dumps Concrete.runtime false payload /\
      @_calculate_hash Concrete.runtime payload = Return (data_hash t) /\
      (@json_loads Concrete.runtime (@json_dumps Concrete.runtime false payload)
       = Some payload ->
       exists read, @json_loads Concrete.runtime (data t) = Some read /\
                    @_calculate_hash Concrete.runtime read = Return (data_hash t)).
Proof.
  intros w.
  assert (Hlast : exists t, last (map Some (transactions (db w))) None = Some t).
  { eexists. computed. }
  destruct Hlast as [t Ht]. exists t.
  assert (Hin : In t (transactions (db w))).
  { revert Ht. vm_compute. intros Ht. injection Ht as <-. left. reflexivity. }
  split; [exact Hin|].
  apply (@SimulatorFacts.simulator_transactions_are_tamper_evident Concrete.runtime w t).
  - exact issuance_is_reachable.
  - exact Hin.
Defined.

Lemma blockchain_stats_add_up_witness :
  let w := fst Concrete.unknown_report_issuance in
  exists stats,
    Routes.get_stats w = (w, Success stats) /\
    get_blockchain_stats w = (w, Return stats) /\
    (stats_blocks stats = 0 -> stats_transactions stats = 0) /\
    (0 < stats_blocks stats -> stats_blocks stats = S (stats_transactions stats)) /\
    stats_transactions stats
    = stats_verification_reports stats
      + count (available_credits stats)
      + 2 * count (transferred_credits stats).
Proof.
  intros w.
  apply (@SimulatorAccounts.blockchain_stats_add_up Concrete.runtime w).
  exact issuance_is_reachable.
Defined.

(** companyB asks for four of the ten credits, in the name of ngoZ. *)
Lemma transfer_marks_the_whole_credit_witness :
  let w := fst Concrete.unknown_report_issuance in
  let credit_id := Concrete.simulator_credit_id in
  let credit := Concrete.available_credit w in
  let to_company := "companyB" in
  let requested := Some 4%Q in
  exists w' receipt before after,
    @transfer_credits Concrete.runtime credit_id "ngoZ" to_company requested w
    = (w', Return receipt) /\
    get_blockchain_stats w = (w, Return before) /\
    get_blockchain_stats w' = (w', Return after) /\
    transferred_amount receipt = amount_or requested (amount credit) /\
    (exists ts,
       credit_by_id credit_id (db w')
       = Some (CarbonCredit credit_id (credit_ngo_id credit) (Some to_company)
                 (amount credit) (price_per_credit credit) (total_value credit)
                 (credit_report_id credit) "transferred" (Some ts))) /\
    count (available_credits before) = S (count (available_credits after)) /\
    count (transferred_credits after) = S (count (transferred_credits before)).
Proof.
  intros w credit_id credit to_company requested. do 4 eexists.
  split; [computed|]. split; [computed|]. split; [computed|].
  eapply (@SimulatorRoutes.transfer_marks_the_whole_credit Concrete.runtime w _
            credit_id "ngoZ" to_company requested).
  - exact issuance_is_reachable.
  - computed.
  - computed.
  - computed.
  - computed.
Defined.

Lemma credit_is_transferred_once_witness :
  let w := fst Concrete.unknown_report_issuance in
  let credit_id := Concrete.simulator_credit_id in
  exists w' receipt,
    @transfer_credits Concrete.runtime credit_id "ngoA" "companyB" None w
    = (w', Return receipt) /\
    exists w'',
      @Routes.transfer_credits Concrete.runtime credit_id "ngoA" "companyC" (Some 1%Q) w'
      = (w'', Error "Failed to transfer credits"
                (Failed "Failed to transfer credits"
                   (ValueError "Credit not found or not available"))) /\
      db w'' = db w'.
Proof.
  intros w credit_id. do 2 eexists. split; [computed|].
  eapply (@SimulatorRoutes.credit_is_transferred_once Concrete.runtime w _ credit_id
            "ngoA" "companyB" None).
  - exact issuance_is_reachable.
  - computed.
Defined.

(** No credit has the id asked for. *)
Lemma refused_transfer_is_a_server_error_witness :
  let w := Concrete.simulator_started in
  @Routes.transfer_credits Concrete.runtime "no-such-credit" "ngoA" "companyB" None w
  = (World (db w) (clock w) (S (draws w)),
     Error "Failed to transfer credits"
       (Failed "Failed to transfer credits"
          (ValueError "Credit not found or not available"))).
Proof.
  intros w.
  exact (@SimulatorRoutes.refused_transfer_is_a_server_error Concrete.runtime w
           "no-such-credit" "ngoA" "companyB" None).
Defined.

Lemma unknown_report_is_not_found_witness :
  let w := Concrete.simulator_started in
  let id := "no-such-report" in
  @query_report Concrete.runtime id w = (w, Return None) /\
  @Routes.query_report Concrete.runtime id w = (w, NotFound).
Proof.
  intros w id.
  apply (@SimulatorRoutes.unknown_report_is_not_found Concrete.runtime w id).
  intros Hin. exact Hin.
Defined.


Lemma issuance_receipt_names_stored_rows_witness :
  let w := Concrete.simulator_started in
  let ngo_id := "ngoA" in
  let report_id := "no-such-report" in
  let amount := 10%Q in
  let price_per_credit : option Q := None in
  exists w' receipt,
    @issue_carbon_credits Concrete.runtime ngo_id report_id amount price_per_credit w
    = (w', Return receipt) /\
    exists b t c,
      block_at (issued_block_number receipt) (db w') = Some b /\
      block_hash b = issued_block_hash receipt /\
      block_at (issued_block_number receipt - 1) (db w') <> None /\
      In t (transactions (db w')) /\
      transaction_id t = issued_transaction_id receipt /\
      tx_block_number t = issued_block_number receipt /\
      credit_by_id (issued_credit_id receipt) (db w') = Some c /\
      credit_ngo_id c = ngo_id /\ company_id c = None /\ status c = "available" /\
      Simulator.amount c = amount /\ credit_report_id c = report_id /\
      total_value c = match price_per_credit with
                      | Some p => if Qeq_bool p 0 then None else Some (amount * p)%Q
                      | None => None
                      end.
Proof.
  intros w ngo_id report_id amount price_per_credit. do 2 eexists.
  split; [computed|].
  apply (@SimulatorRoutes.issuance_receipt_names_stored_rows Concrete.runtime w _ ngo_id
           report_id amount price_per_credit).
  computed.
Defined.

(** An issuance before any block exists raises, and writes nothing. *)
Lemma failed_call_writes_nothing_witness :
  exists w' e,
    @issue_carbon_credits Concrete.runtime "ngoA" "r1" 10 None fresh = (w', Raise e) /\
    db w' = db fresh.
Proof.
  do 2 eexists. split; [computed|].
  eapply (proj1 (proj2 (@SimulatorRoutes.failed_call_writes_nothing Concrete.runtime
                          fresh _ _)) "ngoA" "r1" 10%Q None).
  computed.
Defined.

(** A submission whose [verification_data] is a list. *)
Lemma simulator_submission_needs_an_object_witness :
  let w := fresh in
  exists w' r,
    @Routes.submit_report Concrete.runtime "ngoA" "p1" (JArr []) w = (w', r) /\
    (exists e, r = Error "Failed to submit report" e) /\
    db w' = db (fst (@_create_genesis_block Concrete.runtime w)).
Proof.
  intros w. do 2 eexists. split; [computed|].
  apply (@SimulatorRoutes.simulator_submission_needs_an_object Concrete.runtime w _
           "ngoA" "p1" (JArr [])).
  - computed.
  - intros members Hv. discriminate Hv.
Defined.

Lemma credit_without_report_is_not_listed_witness :
  let w := Concrete.simulator_started in
  exists w' receipt,
    @issue_carbon_credits Concrete.runtime "ngoA" "no-such-report" 10 None w
    = (w', Return receipt) /\
    (exists c, credit_by_id (issued_credit_id receipt) (db w') = Some c /\
               status c = "available") /\
    exists listing,
      Routes.get_available_credits w' = (w', Success listing) /\
      forall e, In e (listed listing) ->
                credit_id (entry_credit e) <> issued_credit_id receipt.
Proof.
  intros w. do 2 eexists. split; [computed|].
  apply (@SimulatorRoutes.credit_without_report_is_not_listed Concrete.runtime w _
           "ngoA" "no-such-report" 10%Q None).
  - intros Hin. exact Hin.
  - computed.
Defined.

(** A stranger asks for four of the ten credits of ngoA. *)
Lemma simulator_transfer_by_non_owner_is_served_witness :
  let w := fst Concrete.unknown_report_issuance in
  let credit_id := Concrete.simulator_credit_id in
  let credit := Concrete.available_credit w in
  let from_ngo := "stranger" in
  let to_company := "companyB" in
  credit_ngo_id credit = "ngoA" /\
  exists w' receipt ts,
    @transfer_credits Concrete.runtime credit_id from_ngo to_company (Some 4%Q) w
    = (w', Return receipt) /\
    transferred_from_ngo receipt = from_ngo /\
    credit_by_id credit_id (db w')
    = Some (CarbonCredit credit_id (credit_ngo_id credit) (Some to_company)
              (amount credit) (price_per_credit credit) (total_value credit)
              (credit_report_id credit) "transferred" (Some ts)) /\
    length (blocks (db w')) = S (length (blocks (db w))) /\
    length (transactions (db w')) = S (length (transactions (db w))).
Proof.
  intros w credit_id credit from_ngo to_company. split; [reflexivity|].
  apply (@SimulatorTransfers.simulator_transfer_by_non_owner_is_served Concrete.runtime
           w credit_id from_ngo to_company (Some 4%Q) credit).
  - exact issuance_is_reachable.
  - computed.
  - discriminate.
  - vm_compute. discriminate.
  - intros w' what constraint Hrun. vm_compute in Hrun. discriminate Hrun.
Defined.

(** ngoA transfers four of its ten credits. *)
Lemma simulator_partial_transfer_keeps_the_amount_witness :
  let w := fst Concrete.unknown_report_issuance in
  let credit_id := Concrete.simulator_credit_id in
  let credit := Concrete.available_credit w in
  let to_company := "companyB" in
  let part := 4%Q in
  amount credit = 10%Q /\
  exists w' receipt row,
    @transfer_credits Concrete.runtime credit_id (credit_ngo_id credit) to_company
      (Some part) w
    = (w', Return receipt) /\
    transferred_amount receipt = part /\
    credit_by_id credit_id (db w') = Some row /\
    amount row = amount credit /\
    status row = "transferred" /\
    credit_ngo_id row = credit_ngo_id credit /\
    company_id row = Some to_company /\
    ~ (amount credit - part == 0)%Q.
Proof.
  intros w credit_id credit to_company part. split; [reflexivity|].
  apply (@SimulatorTransfers.simulator_partial_transfer_keeps_the_amount
           Concrete.runtime w credit_id to_company part credit).
  - exact issuance_is_reachable.
  - computed.
  - reflexivity.
  - reflexivity.
  - intros w' what constraint Hrun. vm_compute in Hrun. discriminate Hrun.
Defined.


End SimulatorExamples.
